(** * cargo_parser: the queue-fed worker pools of [domain/cities.py] and
      [domain/parsing.py]

    The two parsers ([CityParser], [CargoParserWithToken]) drive a fixed
    number of asyncio workers over an [asyncio.Queue].  asyncio runs the
    workers on one thread and switches between them only at an [await]
    that really suspends, i.e. at the outbound HTTP calls and at the
    [asyncio.sleep] of the polling loop.  The embedding therefore has

    - Python values as decoded by [resp.json()] ([Py.value]);
    - exceptions as an error monad ([result]);
    - the code that runs between two suspension points as pure functions
      on the parser object (a record holding the instance attributes);
    - the event loop as an executable step function [worker_step], driven
      by a schedule: the list of (worker resumed, HTTP response delivered)
      pairs.  Theorems quantify over every schedule, so they hold for
      every interleaving and every behaviour of the remote site. *)

From Stdlib Require Import ZArith SpecFloat.
From stdpp Require Import functions strings gmap fin_maps list.

Set Warnings "-register-all".
Open Scope Z_scope.

(** ** Exceptions *)

(** The subclasses of [Exception] that the modelled code can raise.  All of
    them are caught by the [except Exception] of the workers. *)
Inductive exn :=
  | AttributeError      (* [.get] on something that is not a dict *)
  | TypeError           (* iterating over a non-iterable *)
  | ValueError
  | IndexError
  | ValidationError     (* pydantic *)
  | ClientError         (* aiohttp / json decoding *)
  | Exception (msg : string).

Inductive result (A : Type) :=
  | Ok (a : A)
  | Raise (e : exn).
Arguments Ok {A} a.
Arguments Raise {A} e.

#[global] Instance result_ret : MRet result := fun A a => Ok a.
#[global] Instance result_bind : MBind result :=
  fun A B f m => match m with Ok a => f a | Raise e => Raise e end.

Definition is_Ok {A} (r : result A) : bool :=
  match r with Ok _ => true | Raise _ => false end.

(** ** Python values *)

Module Py.

(** What [json.loads] / [resp.json()] produces.  A dict keeps its keys in
    insertion order; [lookup] returns the first binding of a key. *)
Inductive value :=
  | VNone
  | VBool (b : bool)
  | VInt (z : Z)
  | VFloat (f : spec_float)
  | VStr (s : string)
  | VList (l : list value)
  | VDict (d : list (string * value)).

(** [bool(v)] *)
Definition truthy (v : value) : bool :=
  match v with
  | VNone => false
  | VBool b => b
  | VInt z => negb (z =? 0)
  | VFloat (S754_zero _) => false
  | VFloat _ => true
  | VStr s => negb (String.eqb s "")
  | VList l => match l with [] => false | _ => true end
  | VDict d => match d with [] => false | _ => true end
  end.

Fixpoint lookup (k : string) (d : list (string * value)) : option value :=
  match d with
  | [] => None
  | (k', v) :: d' => if String.eqb k' k then Some v else lookup k d'
  end.

(** [v.get(k)]: [None] for a missing key, [AttributeError] when [v] is
    not a dict. *)
Definition get (v : value) (k : string) : result value :=
  match v with
  | VDict d => Ok (default VNone (lookup k d))
  | _ => Raise AttributeError
  end.

(** [d[k] = v] on a dict: overwrite in place or append. *)
Fixpoint setitem (d : list (string * value)) (k : string) (v : value)
  : list (string * value) :=
  match d with
  | [] => [(k, v)]
  | (k', v') :: d' =>
      if String.eqb k' k then (k', v) :: d' else (k', v') :: setitem d' k v
  end.

Fixpoint chars (s : string) : list value :=
  match s with
  | EmptyString => []
  | String c s' => VStr (String c EmptyString) :: chars s'
  end.

(** [for x in v]: the elements of a list, the keys of a dict, the
    characters of a str; [TypeError] otherwise. *)
Definition iter (v : value) : result (list value) :=
  match v with
  | VList l => Ok l
  | VDict d => Ok (map (fun kv => VStr kv.1) d)
  | VStr s => Ok (chars s)
  | _ => Raise TypeError
  end.

(** [v == s] for a str [s]. *)
Definition eq_str (v : value) (s : string) : bool :=
  match v with
  | VStr t => String.eqb t s
  | _ => false
  end.

End Py.
Import Py.

(** ** asyncio.Queue *)

Module Queue.

Record t (A : Type) := Mk { items : list A; unfinished_tasks : nat }.
Arguments Mk {A} items unfinished_tasks.
Arguments items {A} _.
Arguments unfinished_tasks {A} _.

Definition new {A} : t A := Mk [] 0%nat.

Definition put_nowait {A} (q : t A) (x : A) : t A :=
  Mk (items q ++ [x]) (S (unfinished_tasks q)).

Definition qsize {A} (q : t A) : Z := Z.of_nat (length (items q)).

(** [get] on a non-empty queue returns at once, without suspending. *)
Definition get {A} (q : t A) : option (A * t A) :=
  match items q with
  | [] => None
  | x :: rest => Some (x, Mk rest (unfinished_tasks q))
  end.

(** [task_done] raises [ValueError] when called more often than items
    were put. *)
Definition task_done {A} (q : t A) : result (t A) :=
  match unfinished_tasks q with
  | O => Raise ValueError
  | S n => Ok (Mk (items q) n)
  end.

(** [join] returns as soon as no task is unfinished. *)
Definition joined {A} (q : t A) : bool :=
  match unfinished_tasks q with O => true | S _ => false end.

Definition put_all {A} (q : t A) (xs : list A) : t A :=
  fold_left put_nowait xs q.

End Queue.

(** [range(n)]: empty for [n <= 0]. *)
Definition range (n : Z) : list nat := seq 0 (Z.to_nat n).

(** ** pydantic: keyword arguments of a [BaseModel] constructor *)

(** The two report models take integers and one list.  With the default
    configuration ([extra='ignore']) a keyword that names no field is
    dropped and a field that gets no keyword keeps its default. *)
Module BaseModel.

Inductive kwarg (Item : Type) :=
  | KInt (z : Z)
  | KList (l : list Item).
Arguments KInt {Item} z.
Arguments KList {Item} l.

Definition kwargs (Item : Type) := list (string * kwarg Item).

Fixpoint find {Item} (name : string) (kw : kwargs Item)
  : option (kwarg Item) :=
  match kw with
  | [] => None
  | (k, v) :: kw' => if String.eqb k name then Some v else find name kw'
  end.

(** A field [name: int = dflt]. *)
Definition int_field {Item} (name : string) (dflt : Z) (kw : kwargs Item)
  : result Z :=
  match find name kw with
  | None => Ok dflt
  | Some (KInt z) => Ok z
  | Some (KList _) => Raise ValidationError
  end.

(** A field [name: list[Item | None] = dflt]; validation copies the
    list and keeps the items. *)
Definition list_field {Item} (name : string) (dflt : list Item)
           (kw : kwargs Item) : result (list Item) :=
  match find name kw with
  | None => Ok dflt
  | Some (KList l) => Ok l
  | Some (KInt _) => Raise ValidationError
  end.

End BaseModel.

(** ** domain/cities.py *)

Module Cities.

(** [models.CitiesReport] *)
Record CitiesReport := {
  cities_total : Z;
  cities_success : Z;
  cities_fail : Z;
  routes_fail_list : list string;
}.

(** The constructor of [models.CitiesReport], called with keywords. *)
Definition CitiesReport_init (kw : BaseModel.kwargs string)
  : result CitiesReport :=
  total ← BaseModel.int_field "cities_total" 0 kw;
  success ← BaseModel.int_field "cities_success" 0 kw;
  fail ← BaseModel.int_field "cities_fail" 0 kw;
  fail_list ← BaseModel.list_field "routes_fail_list" [] kw;
  mret {| cities_total := total; cities_success := success;
          cities_fail := fail; routes_fail_list := fail_list |}.

(** The attributes of a [CityParser] instance.  [_cached_cities] is the
    dict handed in by the caller and shared with it; [_city_url] is a
    constant of [config] and is left out. *)
Record CityParser := {
  _cached_cities : gmap string value;
  _results : gmap string value;
  _cities_total : Z;
  _cities_success : Z;
  _cities_fail : Z;
  _cities_fail_list : list string;
  _queue : Queue.t string;
  _thread_limit : Z;
}.

(** [CityParser.__init__] *)
Definition __init__ (cached_cities : gmap string value) (thread_limit : Z)
  : CityParser :=
  {| _cached_cities := cached_cities;
     _results := ∅;
     _cities_total := 0;
     _cities_success := 0;
     _cities_fail := 0;
     _cities_fail_list := [];
     _queue := Queue.new;
     _thread_limit := thread_limit |}.

(** The body of the [for item in raw_city_list] loop of
    [_extract_city_dict], with [city_dict] as accumulator. *)
Fixpoint extract_loop (items : list value) (city_name : string)
         (city_dict : list (string * value))
  : result (list (string * value)) :=
  match items with
  | [] => Ok city_dict
  | item :: rest =>
      name ← Py.get item "name";
      if negb (Py.eq_str name city_name) then
        extract_loop rest city_name city_dict
      else
        uuid ← Py.get item "uuid";
        full_name ← Py.get item "fullName";
        extract_loop rest city_name
          (Py.setitem
             (Py.setitem
                (Py.setitem city_dict "name" (VStr city_name))
                "city_uid" uuid)
             "full_name" full_name)
  end.

(** [CityParser._extract_city_dict] *)
Definition _extract_city_dict (city_data : value) (city_name : string)
  : result value :=
  raw_city_list ← Py.get city_data "data";
  if negb (Py.truthy raw_city_list) then
    Raise (Exception "parsing error")
  else
    items ← Py.iter raw_city_list;
    city_dict ← extract_loop items city_name [];
    mret (VDict city_dict).

(** A worker task is either at the top of its [while True] loop, or
    suspended in [await self._parse_city(city_name)], or has ended with
    an exception that escaped its loop. *)
Inductive worker :=
  | Polling
  | AwaitingCity (city_name : string)
  | Crashed (e : exn).

(** The running event loop: the parser object, the worker tasks and the
    HTTP requests issued so far (the city name put in the URL). *)
Record loop := {
  self : CityParser;
  tasks : list worker;
  calls : list string;
}.

(** [self._queue.task_done()] at the end of an iteration of worker [i];
    the parser [p] already carries the outcome of the item. *)
Definition finish (i : nat) (p : CityParser) (s : loop) : loop :=
  match Queue.task_done (_queue p) with
  | Ok q =>
      {| self := {| _cached_cities := _cached_cities p;
                    _results := _results p;
                    _cities_total := _cities_total p;
                    _cities_success := _cities_success p;
                    _cities_fail := _cities_fail p;
                    _cities_fail_list := _cities_fail_list p;
                    _queue := q;
                    _thread_limit := _thread_limit p |};
         tasks := <[i := Polling]> (tasks s);
         calls := calls s |}
  | Raise e =>
      {| self := p; tasks := <[i := Crashed e]> (tasks s);
         calls := calls s |}
  end.

(** The cache-hit branch of [_worker]. *)
Definition on_cached (city_name : string) (q : Queue.t string)
           (p : CityParser) : CityParser :=
  {| _cached_cities := _cached_cities p;
     _results :=
       <[city_name := default VNone (_cached_cities p !! city_name)]>
         (_results p);
     _cities_total := _cities_total p;
     _cities_success := _cities_success p + 1;
     _cities_fail := _cities_fail p;
     _cities_fail_list := _cities_fail_list p;
     _queue := q;
     _thread_limit := _thread_limit p |}.

(** The end of the [try] block of [_worker]. *)
Definition on_success (city_name : string) (city_dict : value)
           (p : CityParser) : CityParser :=
  {| _cached_cities := <[city_name := city_dict]> (_cached_cities p);
     _results := <[city_name := city_dict]> (_results p);
     _cities_total := _cities_total p;
     _cities_success := _cities_success p + 1;
     _cities_fail := _cities_fail p;
     _cities_fail_list := _cities_fail_list p;
     _queue := _queue p;
     _thread_limit := _thread_limit p |}.

(** The [except Exception] block of [_worker]. *)
Definition on_exception (city_name : string) (p : CityParser)
  : CityParser :=
  {| _cached_cities := _cached_cities p;
     _results := _results p;
     _cities_total := _cities_total p;
     _cities_success := _cities_success p;
     _cities_fail := _cities_fail p + 1;
     _cities_fail_list := _cities_fail_list p ++ [city_name];
     _queue := _queue p;
     _thread_limit := _thread_limit p |}.

(** [CityParser._worker]: worker [i] runs from where it stands to its
    next suspension point; [resp] is what [_parse_city] returns (or
    raises) when the worker was suspended in it. *)
Definition worker_step (i : nat) (resp : result value) (s : loop) : loop :=
  match tasks s !! i with
  | None | Some (Crashed _) => s
  | Some Polling =>
      if Queue.qsize (_queue (self s)) <=? 0 then s
      else
        match Queue.get (_queue (self s)) with
        | None => s
        | Some (city_name, q) =>
            if Py.truthy
                 (default VNone (_cached_cities (self s) !! city_name))
            then finish i (on_cached city_name q (self s)) s
            else
              {| self := {| _cached_cities := _cached_cities (self s);
                            _results := _results (self s);
                            _cities_total := _cities_total (self s);
                            _cities_success := _cities_success (self s);
                            _cities_fail := _cities_fail (self s);
                            _cities_fail_list :=
                              _cities_fail_list (self s);
                            _queue := q;
                            _thread_limit := _thread_limit (self s) |};
                 tasks := <[i := AwaitingCity city_name]> (tasks s);
                 calls := calls s ++ [city_name] |}
        end
  | Some (AwaitingCity city_name) =>
      match city_data ← resp; _extract_city_dict city_data city_name with
      | Ok city_dict => finish i (on_success city_name city_dict (self s)) s
      | Raise _ => finish i (on_exception city_name (self s)) s
      end
  end.

(** One entry per resumption: the worker the event loop resumes and the
    outcome of the HTTP call it was waiting for (ignored when the
    worker was only polling). *)
Definition schedule := list (nat * result value).

(** [await self._queue.join()]: the workers run until no task is
    unfinished; [None] when the schedule ends before that. *)
Fixpoint event_loop (sched : schedule) (s : loop) : option loop :=
  if Queue.joined (_queue (self s)) then Some s
  else
    match sched with
    | [] => None
    | (i, resp) :: sched' => event_loop sched' (worker_step i resp s)
    end.

(** The state of [_run_city_parsing] when it reaches [join]. *)
Definition start (cities : list string) (p : CityParser) : loop :=
  {| self := {| _cached_cities := _cached_cities p;
                _results := _results p;
                _cities_total := _cities_total p;
                _cities_success := _cities_success p;
                _cities_fail := _cities_fail p;
                _cities_fail_list := _cities_fail_list p;
                _queue := Queue.put_all Queue.new cities;
                _thread_limit := _thread_limit p |};
     tasks :=
       map (fun idx => Polling)
           (range (Z.min (Z.of_nat (length cities)) (_thread_limit p)));
     calls := [] |}.

(** [CityParser._run_city_parsing]; the tasks are cancelled after the
    join and their outcomes discarded. *)
Definition _run_city_parsing (cities : list string) (sched : schedule)
           (p : CityParser) : option loop :=
  event_loop sched (start cities p).

(** [self._results = {}] *)
Definition reset_results (p : CityParser) : CityParser :=
  {| _cached_cities := _cached_cities p;
     _results := ∅;
     _cities_total := _cities_total p;
     _cities_success := _cities_success p;
     _cities_fail := _cities_fail p;
     _cities_fail_list := _cities_fail_list p;
     _queue := _queue p;
     _thread_limit := _thread_limit p |}.

(** The keyword arguments [_get_cities_info] hands to [CitiesReport]. *)
Definition report_kwargs (cities : list string) (p : CityParser)
  : BaseModel.kwargs string :=
  [ ("routes_total", BaseModel.KInt (Z.of_nat (length cities)));
    ("routes_success", BaseModel.KInt (_cities_success p));
    ("routes_fail", BaseModel.KInt (_cities_fail p));
    ("routes_fail_list", BaseModel.KList (_cities_fail_list p)) ].

(** [CityParser._get_cities_info] (and [get_cities_info], which only
    forwards to it): the returned pair, and the loop as it stood at the
    join. *)
Definition _get_cities_info (cities : list string) (sched : schedule)
           (p : CityParser)
  : option (result (gmap string value * CitiesReport) * loop) :=
  match _run_city_parsing cities sched (reset_results p) with
  | None => None
  | Some s =>
      Some (report ← CitiesReport_init (report_kwargs cities (self s));
            mret (_results (self s), report),
            s)
  end.

End Cities.

(** ** uuid.UUID *)

(** A UUID object is its 128-bit integer. *)
Record UUID := { int : N }.

Definition hex_digit (d : N) : Ascii.ascii :=
  default Ascii.zero
    (String.list_ascii_of_string "0123456789abcdef" !! N.to_nat d).

(** ['%0<digits>x' % n] *)
Fixpoint hex (digits : nat) (n : N) : string :=
  match digits with
  | O => ""
  | S k => hex k (n / 16)%N +:+ String (hex_digit (n mod 16)%N) ""
  end.

(** [str(uid)] *)
Definition UUID_str (uid : UUID) : string :=
  let h := hex 32 (int uid) in
  String.substring 0 8 h +:+ "-" +:+ String.substring 8 4 h +:+ "-" +:+
  String.substring 12 4 h +:+ "-" +:+ String.substring 16 4 h +:+ "-" +:+
  String.substring 20 12 h.

(** ** domain/models.py *)

(** [int | float] *)
Inductive number :=
  | NInt (z : Z)
  | NFloat (f : spec_float).

Definition number_value (n : number) : value :=
  match n with NInt z => VInt z | NFloat f => VFloat f end.

Module ServiceArgument.
Record t := { name : string; value : Z }.
Definition model_dump (a : t) : Py.value :=
  VDict [("name", VStr (name a)); ("value", VInt (value a))].
End ServiceArgument.

Module RequestForService.
Record t := { alias : string; arguments : list ServiceArgument.t }.
Definition model_dump (s : t) : value :=
  VDict [("alias", VStr (alias s));
         ("arguments", VList (map ServiceArgument.model_dump (arguments s)))].
End RequestForService.

Module Package.
Record t := { height : number; length : number; width : number;
              weight : number }.
Definition model_dump (p : t) : value :=
  VDict [("height", number_value (height p));
         ("length", number_value (length p));
         ("width", number_value (width p));
         ("weight", number_value (weight p))].
End Package.

Module RequestForCargo.

(** [duration_min] and [duration_max] are declared [int | float | None],
    but the worker assigns them without validation, so they hold whatever
    the tariff response carried. *)
Record t := {
  without_add_services : Z;
  service_id : option UUID;
  mode : string;
  payer_type : string;
  currency_mark : string;
  sender_city_id : UUID;
  sender_city_name : string;
  receiver_city_id : UUID;
  receiver_city_name : string;
  packages : list Package.t;
  additional_services : list (option RequestForService.t);
  duration_min : value;
  duration_max : value;
  cargo_type_descr : string;
  tariff_description : string;
}.

(** [CustomUid | None] goes through [PlainSerializer(str)]. *)
Definition dump_uid (u : option UUID) : value :=
  match u with
  | Some uid => VStr (UUID_str uid)
  | None => VNone
  end.

(** [model_dump(by_alias=True)]: the fields in declaration order, under
    their serialization alias, without the [exclude=True] ones. *)
Definition model_dump (r : t) : value :=
  VDict [
    ("withoutAdditionalServices", VInt (without_add_services r));
    ("serviceId", dump_uid (service_id r));
    ("mode", VStr (mode r));
    ("payerType", VStr (payer_type r));
    ("currencyMark", VStr (currency_mark r));
    ("senderCityId", VStr (UUID_str (sender_city_id r)));
    ("receiverCityId", VStr (UUID_str (receiver_city_id r)));
    ("packages", VList (map Package.model_dump (packages r)));
    ("additionalServices",
      VList (map (fun s => match s with
                           | Some s' => RequestForService.model_dump s'
                           | None => VNone
                           end) (additional_services r)))
  ].

(** The three assignments of [_worker] after [_parse_service_id]. *)
Definition assign (r : t) (sid : UUID) (dmin dmax : value) : t :=
  {| without_add_services := without_add_services r;
     service_id := Some sid;
     mode := mode r;
     payer_type := payer_type r;
     currency_mark := currency_mark r;
     sender_city_id := sender_city_id r;
     sender_city_name := sender_city_name r;
     receiver_city_id := receiver_city_id r;
     receiver_city_name := receiver_city_name r;
     packages := packages r;
     additional_services := additional_services r;
     duration_min := dmin;
     duration_max := dmax;
     cargo_type_descr := cargo_type_descr r;
     tariff_description := tariff_description r |}.

End RequestForCargo.

Module RequestForServiceId.

Record t := {
  payer_type : string;
  currency_mark : string;
  sender_city_id : UUID;
  receiver_city_id : UUID;
  packages : Package.t;
}.

(** The constructor call of [_parse_service_id].  The field is declared
    [packages: tuple[Package]], a tuple of exactly one item. *)
Definition of_cargo (r : RequestForCargo.t) : result t :=
  match RequestForCargo.packages r with
  | [p] =>
      Ok {| payer_type := RequestForCargo.payer_type r;
            currency_mark := RequestForCargo.currency_mark r;
            sender_city_id := RequestForCargo.sender_city_id r;
            receiver_city_id := RequestForCargo.receiver_city_id r;
            packages := p |}
  | _ => Raise ValidationError
  end.

Definition model_dump (r : t) : value :=
  VDict [
    ("payerType", VStr (payer_type r));
    ("currencyMark", VStr (currency_mark r));
    ("senderCityId", VStr (UUID_str (sender_city_id r)));
    ("receiverCityId", VStr (UUID_str (receiver_city_id r)));
    ("packages", VList [Package.model_dump (packages r)])
  ].

End RequestForServiceId.

(** A [RequestForCargo] object is mutated in place by the worker and the
    same object is put in the fail list and in the route, so the requests
    live in a store and are handled by reference. *)
Definition ref := nat.
Definition store := ref -> RequestForCargo.t.

Record CalculatedService := {
  cs_alias : string;
  cs_original_name : string;
  cs_total_cost : number;
}.

Record Route := {
  city_from : string;
  city_to : string;
  delivery_price : number;
  total_cost : number;
  request : ref;
  services : list CalculatedService;
  route_duration_min : number;
  route_duration_max : number;
  route_weight : number;
}.

Record RequestsReport := {
  routes_total : Z;
  routes_success : Z;
  routes_fail : Z;
  routes_fail_list : list ref;
}.

(** The constructor of [models.RequestsReport], called with keywords. *)
Definition RequestsReport_init (kw : BaseModel.kwargs ref)
  : result RequestsReport :=
  total ← BaseModel.int_field "routes_total" 0 kw;
  success ← BaseModel.int_field "routes_success" 0 kw;
  fail ← BaseModel.int_field "routes_fail" 0 kw;
  fail_list ← BaseModel.list_field "routes_fail_list" [] kw;
  mret {| routes_total := total; routes_success := success;
          routes_fail := fail; routes_fail_list := fail_list |}.

(** ** domain/parsing.py *)

Module Parsing.

(** The attributes of a [CargoParserWithToken] instance.  The URLs, the
    token and the headers only parametrise the HTTP calls and are left
    out. *)
Record CargoParserWithToken := {
  _thread_limit : Z;
  _routes_total : Z;
  _routes_success : Z;
  _routes_fail : Z;
  _routes_fail_list : list ref;
  _result_list : list Route;
  _queue : Queue.t ref;
}.

(** [CargoParserWithToken.__init__] *)
Definition __init__ (thread_limit : Z) : CargoParserWithToken :=
  {| _thread_limit := thread_limit;
     _routes_total := 0;
     _routes_success := 0;
     _routes_fail := 0;
     _routes_fail_list := [];
     _result_list := [];
     _queue := Queue.new |}.

(** A worker task: at the top of its loop, suspended in the HTTP call of
    [_parse_service_id], suspended in the HTTP call of [_parse_cargo], or
    ended with an exception that escaped its loop. *)
Inductive worker :=
  | Polling
  | AwaitingServiceId (cargo_request : ref)
  | AwaitingCargo (cargo_request : ref)
  | Crashed (e : exn).

(** An HTTP request sent, with the item it was sent for. *)
Inductive call :=
  | PostServiceId (cargo_request : ref) (body : value)
  | PostCargo (cargo_request : ref) (body : value).

Record loop := {
  self : CargoParserWithToken;
  heap : store;
  tasks : list worker;
  calls : list call;
}.

Definition set_queue (q : Queue.t ref) (p : CargoParserWithToken)
  : CargoParserWithToken :=
  {| _thread_limit := _thread_limit p;
     _routes_total := _routes_total p;
     _routes_success := _routes_success p;
     _routes_fail := _routes_fail p;
     _routes_fail_list := _routes_fail_list p;
     _result_list := _result_list p;
     _queue := q |}.

(** The end of the [try] block of [_worker]. *)
Definition on_success (route : Route) (p : CargoParserWithToken)
  : CargoParserWithToken :=
  {| _thread_limit := _thread_limit p;
     _routes_total := _routes_total p;
     _routes_success := _routes_success p + 1;
     _routes_fail := _routes_fail p;
     _routes_fail_list := _routes_fail_list p;
     _result_list := _result_list p ++ [route];
     _queue := _queue p |}.

(** The [except Exception] block of [_worker]. *)
Definition on_exception (cargo_request : ref) (p : CargoParserWithToken)
  : CargoParserWithToken :=
  {| _thread_limit := _thread_limit p;
     _routes_total := _routes_total p;
     _routes_success := _routes_success p;
     _routes_fail := _routes_fail p + 1;
     _routes_fail_list := _routes_fail_list p ++ [cargo_request];
     _result_list := _result_list p;
     _queue := _queue p |}.

(** [self._queue.task_done()] at the end of an iteration of worker [i]. *)
Definition finish (i : nat) (p : CargoParserWithToken) (s : loop) : loop :=
  match Queue.task_done (_queue p) with
  | Ok q =>
      {| self := set_queue q p; heap := heap s;
         tasks := <[i := Polling]> (tasks s); calls := calls s |}
  | Raise e =>
      {| self := p; heap := heap s;
         tasks := <[i := Crashed e]> (tasks s); calls := calls s |}
  end.

(** One entry per resumption: the worker the event loop resumes and the
    outcome of the HTTP call it was waiting for (ignored when the worker
    was only polling). *)
Definition schedule := list (nat * result value).

Section Parser.

(** Library code the parser calls: [uuid.UUID(hex)] and pydantic's
    validation of a [str] and of an [int | float] field. *)
Variable UUID_init : value -> result UUID.
Variable validate_str : value -> result string.
Variable validate_number : value -> result number.

(** The [for item in inner_list] loop of [_parse_service_id]: [Some] when
    it returns from the function, [None] when it runs to its end.  Both
    [item.get] of the condition are evaluated up front: the second can
    only raise when the first does. *)
Fixpoint tariffs_loop (items : list value) (cargo_request : RequestForCargo.t)
  : result (option (UUID * value * value)) :=
  match items with
  | [] => Ok None
  | item :: rest =>
      mode ← Py.get item "mode";
      short ← Py.get item "shortDescription";
      if Py.eq_str mode (RequestForCargo.mode cargo_request)
         && Py.eq_str short (RequestForCargo.tariff_description cargo_request)
      then
        raw ← Py.get item "serviceId";
        service_id ← UUID_init raw;
        duration_min ← Py.get item "durationMin";
        duration_max ← Py.get item "durationMax";
        mret (Some (service_id, duration_min, duration_max))
      else tariffs_loop rest cargo_request
  end.

(** The [for outer_list in list_of_services] loop and the final [raise]. *)
Fixpoint services_loop (groups : list value)
         (cargo_request : RequestForCargo.t)
  : result (UUID * value * value) :=
  match groups with
  | [] => Raise (Exception "service_id not found")
  | outer_list :: rest =>
      description ← Py.get outer_list "description";
      if negb (Py.eq_str description
                 (RequestForCargo.cargo_type_descr cargo_request))
      then services_loop rest cargo_request
      else
        inner_list ← Py.get outer_list "tariffs";
        items ← Py.iter inner_list;
        found ← tariffs_loop items cargo_request;
        match found with
        | Some triple => Ok triple
        | None => services_loop rest cargo_request
        end
  end.

(** [CargoParserWithToken._parse_service_id], from [data = await
    resp.json()] on. *)
Definition _parse_service_id (data : value)
           (cargo_request : RequestForCargo.t)
  : result (UUID * value * value) :=
  list_of_services ← Py.get data "data";
  if negb (Py.truthy list_of_services) then
    Raise (Exception "service_id not parsed")
  else
    groups ← Py.iter list_of_services;
    services_loop groups cargo_request.

(** The [for item in service_list] loop of
    [_extract_data_from_resp_dict]. *)
Fixpoint calculated_loop (items : list value)
  : result (list CalculatedService) :=
  match items with
  | [] => Ok []
  | item :: rest =>
      alias ← Py.get item "alias";
      original_name ← Py.get item "original_name";
      payment ← Py.get item "paymentDetail";
      cost ← Py.get payment "totalCost";
      alias' ← validate_str alias;
      original_name' ← validate_str original_name;
      cost' ← validate_number cost;
      tail ← calculated_loop rest;
      mret ({| cs_alias := alias'; cs_original_name := original_name';
               cs_total_cost := cost' |} :: tail)
  end.

(** [CargoParserWithToken._extract_data_from_resp_dict]; [r] is the
    request object and [cargo_request] its present content. *)
Definition _extract_data_from_resp_dict (cargo_data : value) (r : ref)
           (cargo_request : RequestForCargo.t) : result Route :=
  cargo_dict ← Py.get cargo_data "data";
  if negb (Py.truthy cargo_dict) then Raise (Exception "parsing error")
  else
    raw ← Py.get cargo_dict "calculatedAdditionalServices";
    service_list ← Py.iter (if Py.truthy raw then raw else VList []);
    calculated_services ← calculated_loop service_list;
    delivery_price ← Py.get cargo_dict "deliveryPrice";
    total_cost ← Py.get cargo_dict "totalCost";
    first ← match RequestForCargo.packages cargo_request with
            | [] => Raise IndexError
            | p :: _ => Ok p
            end;
    delivery_price' ← validate_number delivery_price;
    total_cost' ← validate_number total_cost;
    duration_min ← validate_number (RequestForCargo.duration_min cargo_request);
    duration_max ← validate_number (RequestForCargo.duration_max cargo_request);
    mret {| city_from := RequestForCargo.sender_city_name cargo_request;
            city_to := RequestForCargo.receiver_city_name cargo_request;
            delivery_price := delivery_price';
            total_cost := total_cost';
            request := r;
            services := calculated_services;
            route_duration_min := duration_min;
            route_duration_max := duration_max;
            route_weight := Package.weight first |}.

(** [CargoParserWithToken._worker]: worker [i] runs from where it stands to
    its next suspension point; [resp] is what the HTTP call it was
    suspended in returns or raises. *)
Definition worker_step (i : nat) (resp : result value) (s : loop) : loop :=
  match tasks s !! i with
  | None | Some (Crashed _) => s
  | Some Polling =>
      if Queue.qsize (_queue (self s)) <=? 0 then s
      else
        match Queue.get (_queue (self s)) with
        | None => s
        | Some (r, q) =>
            match RequestForServiceId.of_cargo (heap s r) with
            | Ok service_id_request =>
                {| self := set_queue q (self s);
                   heap := heap s;
                   tasks := <[i := AwaitingServiceId r]> (tasks s);
                   calls :=
                     calls s ++
                     [PostServiceId r
                        (RequestForServiceId.model_dump service_id_request)]
                |}
            | Raise _ => finish i (on_exception r (set_queue q (self s))) s
            end
        end
  | Some (AwaitingServiceId r) =>
      match data ← resp; _parse_service_id data (heap s r) with
      | Ok (service_id, duration_min, duration_max) =>
          let cargo_request :=
            RequestForCargo.assign (heap s r)
              service_id duration_min duration_max in
          {| self := self s;
             heap := <[r := cargo_request]> (heap s);
             tasks := <[i := AwaitingCargo r]> (tasks s);
             calls :=
               calls s ++
               [PostCargo r (RequestForCargo.model_dump cargo_request)] |}
      | Raise _ => finish i (on_exception r (self s)) s
      end
  | Some (AwaitingCargo r) =>
      match cargo_data ← resp;
            _extract_data_from_resp_dict cargo_data r (heap s r) with
      | Ok route => finish i (on_success route (self s)) s
      | Raise _ => finish i (on_exception r (self s)) s
      end
  end.

(** [await self._queue.join()]: the workers run until no task is
    unfinished; [None] when the schedule ends before that. *)
Fixpoint event_loop (sched : schedule) (s : loop) : option loop :=
  if Queue.joined (_queue (self s)) then Some s
  else
    match sched with
    | [] => None
    | (i, resp) :: sched' => event_loop sched' (worker_step i resp s)
    end.

(** The state of [_run_cargo_parsing] when it reaches [join]. *)
Definition start (cargo_requests : list ref) (p : CargoParserWithToken)
           (h : store) : loop :=
  {| self := set_queue (Queue.put_all Queue.new cargo_requests) p;
     heap := h;
     tasks :=
       map (fun idx => Polling)
           (range (Z.min (Z.of_nat (length cargo_requests))
                         (_thread_limit p)));
     calls := [] |}.

(** [CargoParserWithToken._run_cargo_parsing]; the tasks are cancelled
    after the join and their outcomes discarded. *)
Definition _run_cargo_parsing (cargo_requests : list ref) (sched : schedule)
           (p : CargoParserWithToken) (h : store) : option loop :=
  event_loop sched (start cargo_requests p h).

(** The keyword arguments [_retrieve_data] hands to [RequestsReport]. *)
Definition report_kwargs (cargo_requests : list ref)
           (p : CargoParserWithToken) : BaseModel.kwargs ref :=
  [ ("routes_total", BaseModel.KInt (Z.of_nat (length cargo_requests)));
    ("routes_success", BaseModel.KInt (_routes_success p));
    ("routes_fail", BaseModel.KInt (_routes_fail p));
    ("routes_fail_list", BaseModel.KList (_routes_fail_list p)) ].

(** [CargoParserWithToken._retrieve_data] (and [retrieve_data], which only
    forwards to it): the returned pair, and the loop as it stood at the
    join. *)
Definition _retrieve_data (cargo_requests : list ref) (sched : schedule)
           (p : CargoParserWithToken) (h : store)
  : option (result (list Route * RequestsReport) * loop) :=
  match _run_cargo_parsing cargo_requests sched p h with
  | None => None
  | Some s =>
      Some (report ← RequestsReport_init (report_kwargs cargo_requests (self s));
            mret (_result_list (self s), report),
            s)
  end.

End Parser.

End Parsing.

(** ** Sample instances of the library functions, for running the model *)

Module Sample.

Fixpoint index_of (c : Ascii.ascii) (l : list Ascii.ascii) (i : N) : option N :=
  match l with
  | [] => None
  | c' :: l' => if Ascii.eqb c c' then Some i else index_of c l' (i + 1)%N
  end.

(** The digits of a canonical lower-case UUID string, dashes skipped. *)
Fixpoint digits (s : string) : option (list N) :=
  match s with
  | EmptyString => Some []
  | String c s' =>
      if String.eqb (String c EmptyString) "-" then digits s'
      else
        d ← index_of c (String.list_ascii_of_string "0123456789abcdef") 0%N;
        ds ← digits s';
        Some (d :: ds)
  end.

(** [uuid.UUID(hex)] on the canonical form [8-4-4-4-12]; the real
    constructor accepts more spellings. *)
Definition UUID_init (v : value) : result UUID :=
  match v with
  | VStr s =>
      match digits s with
      | Some ds =>
          if (length ds =? 32)%nat
          then Ok {| int := fold_left (fun acc d => (16 * acc + d)%N) ds 0%N |}
          else Raise ValueError
      | None => Raise ValueError
      end
  | VNone => Raise TypeError
  | _ => Raise AttributeError
  end.

Definition validate_str (v : value) : result string :=
  match v with
  | VStr s => Ok s
  | _ => Raise ValidationError
  end.

Definition validate_number (v : value) : result number :=
  match v with
  | VInt z => Ok (NInt z)
  | VFloat f => Ok (NFloat f)
  | _ => Raise ValidationError
  end.

End Sample.

(** ** Vocabulary of the statements *)

Definition is_dict (v : value) : Prop :=
  match v with VDict _ => True | _ => False end.

(** The value under key [k] of an object of a response ([None] when the
    key is missing). *)
Definition field (v : value) (k : string) : value :=
  match v with
  | VDict d => default VNone (Py.lookup k d)
  | _ => VNone
  end.

Module CitiesSpec.
Import Cities.

(** A candidate of the autocomplete response whose name is the queried
    one. *)
Definition name_matches (city_name : string) (item : value) : bool :=
  Py.eq_str (field item "name") city_name.

(** The candidates of a response whose name is the queried one, in
    response order. *)
Definition matching (city_name : string) (items : list value) : list value :=
  filter (fun item => name_matches city_name item = true) items.

(** The record built from a candidate. *)
Definition city_record (city_name : string) (item : value) : value :=
  VDict [("name", VStr city_name);
         ("city_uid", field item "uuid");
         ("full_name", field item "fullName")].

(** An autocomplete response with the candidates [items]. *)
Definition autocomplete (items : list value) : value :=
  VDict [("data", VList items)].

Definition candidate (name uuid full_name : string) : value :=
  VDict [("name", VStr name); ("uuid", VStr uuid);
         ("fullName", VStr full_name)].

(** A run over the batch [[c]] that started with the non-empty record [d]
    of [c] in the cache: the loop is either untouched or has served the
    name from the cache, without an HTTP request. *)
Definition served_from_cache (cache : gmap string value) (c : string)
           (d : value) (s : loop) : Prop :=
  calls s = [] /\
  _cached_cities (self s) = cache /\
  Forall (fun w => w = Polling) (tasks s) /\
  ((_queue (self s) = Queue.Mk [c] 1 /\ _results (self s) = ∅) \/
   (_queue (self s) = Queue.Mk [] 0 /\ _results (self s) = {[c := d]})).

(** The name a worker is fetching. *)
Definition name_of (w : worker) : list string :=
  match w with
  | AwaitingCity city_name => [city_name]
  | Polling | Crashed _ => []
  end.

Definition busy_names (ws : list worker) : list string := ws ≫= name_of.

(** What a run keeps true when it starts with the non-empty record [d] of
    [c] in the cache and [c] in its batch: the record stays, no request
    is sent for [c], no worker fetches [c], the queued and the fetched
    names are among the unfinished tasks, and [c] is still queued or has
    got [d] as its result. *)
Definition keeps_cached (c : string) (d : value) (s : loop) : Prop :=
  _cached_cities (self s) !! c = Some d /\
  (c ∉ calls s) /\
  (c ∉ busy_names (tasks s)) /\
  (length (Queue.items (_queue (self s))) + length (busy_names (tasks s))
   <= Queue.unfinished_tasks (_queue (self s)))%nat /\
  (c ∈ Queue.items (_queue (self s)) \/ _results (self s) !! c = Some d).

(** Sample responses of the autocomplete endpoint. *)
Definition moscow_response : value :=
  autocomplete [candidate "Moscow" "u-moscow" "Moscow, Russia"].

Definition two_moscows_response : value :=
  autocomplete [candidate "Moscow" "u-first" "Moscow, Idaho";
                candidate "Moscow Mills" "u-mills" "Moscow Mills, Missouri";
                candidate "Moscow" "u-last" "Moscow, Russia"].

(** No candidate at all. *)
Definition empty_response : value := autocomplete [].

(** Candidates, but none with the queried name. *)
Definition no_match_response : value :=
  autocomplete [candidate "Unknown" "u-unknown" "Unknown, Nowhere"].

End CitiesSpec.

Module ParsingSpec.
Import Parsing.

(** *** Tariff selection, in the words of the specification *)

(** A tariff group whose description is the request's cargo-type
    descriptor. *)
Definition group_matches (cargo_request : RequestForCargo.t) (group : value)
  : bool :=
  Py.eq_str (field group "description")
            (RequestForCargo.cargo_type_descr cargo_request).

(** A tariff whose mode is the request's mode and whose short description
    is the request's tariff descriptor. *)
Definition tariff_matches (cargo_request : RequestForCargo.t) (tariff : value)
  : bool :=
  Py.eq_str (field tariff "mode") (RequestForCargo.mode cargo_request)
  && Py.eq_str (field tariff "shortDescription")
               (RequestForCargo.tariff_description cargo_request).

(** The tariffs of a group. *)
Definition tariffs_of (group : value) : list value :=
  match Py.iter (field group "tariffs") with
  | Ok tariffs => tariffs
  | Raise _ => []
  end.

(** The tariffs of the groups that match the descriptor, in response
    order. *)
Definition candidate_tariffs (cargo_request : RequestForCargo.t)
           (groups : list value) : list value :=
  group ← filter (fun g => group_matches cargo_request g = true) groups;
  tariffs_of group.

(** The first tariff, within a matching group, that satisfies both
    conditions. *)
Definition selected_tariff (cargo_request : RequestForCargo.t)
           (groups : list value) : option value :=
  head (filter (fun t => tariff_matches cargo_request t = true)
               (candidate_tariffs cargo_request groups)).

(** A response of the shape the tariff endpoint documents: a list of
    objects, each with a list of objects under [tariffs]. *)
Definition well_formed_group (group : value) : Prop :=
  is_dict group /\
  exists tariffs,
    field group "tariffs" = VList tariffs /\ Forall is_dict tariffs.

(** *** Workers and items *)

(** The item a worker holds. *)
Definition item_of (w : worker) : list ref :=
  match w with
  | AwaitingServiceId r | AwaitingCargo r => [r]
  | Polling | Crashed _ => []
  end.

Definition busy_items (ws : list worker) : list ref := ws ≫= item_of.

Definition alive (w : worker) : Prop :=
  match w with Crashed _ => False | _ => True end.

(** The number of resumptions a worker still needs for its item. *)
Definition remaining (w : worker) : nat :=
  match w with
  | AwaitingServiceId _ => 2
  | AwaitingCargo _ => 1
  | Polling | Crashed _ => 0
  end.

(** An upper bound of the resumptions the batch still needs. *)
Definition pending (s : loop) : nat :=
  (3 * length (Queue.items (_queue (self s)))
   + sum_list_with remaining (tasks s))%nat.

(** Resuming worker [i] does something: it is suspended in a call, or it
    polls a queue that is not empty. *)
Definition enabled (i : nat) (s : loop) : bool :=
  match tasks s !! i with
  | Some Polling => negb (Queue.qsize (_queue (self s)) <=? 0)
  | Some (AwaitingServiceId _) | Some (AwaitingCargo _) => true
  | Some (Crashed _) | None => false
  end.

(** What a run keeps true, for a call of [_retrieve_data] on the parser
    [p0] with the items [batch]: no worker has crashed; the unfinished
    tasks are the queued items and those held by workers; the results
    and counters are those of [p0] extended by one outcome for each item
    that is neither queued nor held. *)
Record inv (p0 : CargoParserWithToken) (batch : list ref) (s : loop)
  : Prop := {
  inv_alive : Forall alive (tasks s);
  inv_unfinished :
    Queue.unfinished_tasks (_queue (self s))
    = (length (Queue.items (_queue (self s)))
       + length (busy_items (tasks s)))%nat;
  inv_limit : _thread_limit (self s) = _thread_limit p0;
  inv_outcomes :
    exists routes fails,
      _result_list (self s) = _result_list p0 ++ routes /\
      _routes_fail_list (self s) = _routes_fail_list p0 ++ fails /\
      _routes_success (self s)
      = _routes_success p0 + Z.of_nat (length routes) /\
      _routes_fail (self s) = _routes_fail p0 + Z.of_nat (length fails) /\
      batch ≡ₚ (request <$> routes) ++ fails
                ++ Queue.items (_queue (self s)) ++ busy_items (tasks s);
}.

(** Every price call in the log carries the string of a UUID under
    [serviceId] and comes after a service-id call for the same item. *)
Definition price_calls_follow_resolution (log : list call) : Prop :=
  forall (k : nat) (r : ref) (body : value),
    log !! k = Some (PostCargo r body) ->
    (exists sid, Py.get body "serviceId" = Ok (VStr (UUID_str sid))) /\
    (exists j b, (j < k)%nat /\ log !! j = Some (PostServiceId r b)).

(** What a run keeps true of its log: price calls follow a service-id
    call for their item, and so does every worker that waits for the
    tariffs. *)
Definition log_inv (s : loop) : Prop :=
  price_calls_follow_resolution (calls s) /\
  forall i r,
    tasks s !! i = Some (AwaitingServiceId r) ->
    exists j b, calls s !! j = Some (PostServiceId r b).

Section Spec.

Variable UUID_init : value -> result UUID.
Variable validate_str : value -> result string.
Variable validate_number : value -> result number.

(** What [_parse_service_id] returns for the tariff [t]: its service
    id, as a UUID, and its duration bounds. *)
Definition resolution (t : value) : result (UUID * value * value) :=
  service_id ← UUID_init (field t "serviceId");
  mret (service_id, field t "durationMin", field t "durationMax").

(** The state of the loop after the resumptions of [sched]. *)
Definition run (sched : schedule) (s : loop) : loop :=
  fold_left
    (fun s step =>
       worker_step UUID_init validate_str validate_number step.1 step.2 s)
    sched s.

(** The step of worker [i] ends in the [except] block with item [r]:
    building the service-id request, the service-id call or its parsing,
    or the price call or its extraction raised. *)
Definition raises_on (s : loop) (i : nat) (resp : result value) (r : ref)
  : Prop :=
  (tasks s !! i = Some Polling /\
   head (Queue.items (_queue (self s))) = Some r /\
   is_Ok (RequestForServiceId.of_cargo (heap s r)) = false) \/
  (tasks s !! i = Some (AwaitingServiceId r) /\
   is_Ok (data ← resp; _parse_service_id UUID_init data (heap s r)) = false) \/
  (tasks s !! i = Some (AwaitingCargo r) /\
   is_Ok (cargo_data ← resp;
          _extract_data_from_resp_dict validate_str validate_number
            cargo_data r (heap s r)) = false).

End Spec.

(** *** Sample data *)

Definition a_package : Package.t :=
  {| Package.height := NInt 10; Package.length := NInt 23;
     Package.width := NInt 19; Package.weight := NInt 2 |}.

Definition a_request : RequestForCargo.t :=
  {| RequestForCargo.without_add_services := 0;
     RequestForCargo.service_id := None;
     RequestForCargo.mode := "HOME-HOME";
     RequestForCargo.payer_type := "sender";
     RequestForCargo.currency_mark := "RUB";
     RequestForCargo.sender_city_id := {| int := 1 |};
     RequestForCargo.sender_city_name := "Moscow";
     RequestForCargo.receiver_city_id := {| int := 2 |};
     RequestForCargo.receiver_city_name := "Kazan";
     RequestForCargo.packages := [a_package];
     RequestForCargo.additional_services := [];
     RequestForCargo.duration_min := VNone;
     RequestForCargo.duration_max := VNone;
     RequestForCargo.cargo_type_descr := "Express";
     RequestForCargo.tariff_description := "16:00" |}.

(** A store in which every reference holds [a_request]. *)
Definition a_store : store := fun _ => a_request.

Definition tariff (mode short service_id : string) (dmin dmax : Z) : value :=
  VDict [("mode", VStr mode); ("shortDescription", VStr short);
         ("serviceId", VStr service_id);
         ("durationMin", VInt dmin); ("durationMax", VInt dmax)].

Definition group (description : string) (tariffs : list value) : value :=
  VDict [("description", VStr description); ("tariffs", VList tariffs)].

Definition tariff_groups : list value :=
  [ group "Economy"
      [tariff "HOME-HOME" "16:00" "00000000-0000-0000-0000-000000000001" 3 5];
    group "Express"
      [tariff "HOME-HOME" "12:00" "00000000-0000-0000-0000-000000000002" 1 2;
       tariff "HOME-HOME" "16:00" "00000000-0000-0000-0000-00000000000a" 1 3;
       tariff "HOME-HOME" "16:00" "00000000-0000-0000-0000-00000000000b" 2 4] ].

Definition tariff_response : value := VDict [("data", VList tariff_groups)].

Definition price_response : value :=
  VDict [("data",
          VDict [("deliveryPrice", VInt 500); ("totalCost", VInt 650);
                 ("calculatedAdditionalServices",
                  VList [VDict [("alias", VStr "insurance");
                                ("original_name", VStr "Insurance");
                                ("paymentDetail",
                                 VDict [("totalCost", VInt 150)])]])])].

(** Two workers take one item each; the service-id call of the first
    item fails, the second item is priced. *)
Definition two_items_schedule : schedule :=
  [(0%nat, Ok VNone); (1%nat, Ok VNone); (1%nat, Ok tariff_response);
   (0%nat, Raise ClientError); (1%nat, Ok price_response)].

(** One worker takes the item, resolves its service id and prices it. *)
Definition one_item_schedule : schedule :=
  [(0%nat, Ok VNone); (0%nat, Ok tariff_response);
   (0%nat, Ok price_response)].

(** [_retrieve_data] and [worker_step] with the sample library
    functions. *)
Definition sample_retrieve_data :=
  _retrieve_data Sample.UUID_init Sample.validate_str Sample.validate_number.

Definition sample_worker_step :=
  worker_step Sample.UUID_init Sample.validate_str Sample.validate_number.

Definition sample_run :=
  run Sample.UUID_init Sample.validate_str Sample.validate_number.

End ParsingSpec.

(** ** More vocabulary on the runs of the cargo parser *)

Module ParsingRuns.
Import Parsing ParsingSpec.

(** A request as it is submitted: without what the worker assigns. *)
Definition unresolved (r : RequestForCargo.t) : RequestForCargo.t :=
  {| RequestForCargo.without_add_services :=
       RequestForCargo.without_add_services r;
     RequestForCargo.service_id := None;
     RequestForCargo.mode := RequestForCargo.mode r;
     RequestForCargo.payer_type := RequestForCargo.payer_type r;
     RequestForCargo.currency_mark := RequestForCargo.currency_mark r;
     RequestForCargo.sender_city_id := RequestForCargo.sender_city_id r;
     RequestForCargo.sender_city_name := RequestForCargo.sender_city_name r;
     RequestForCargo.receiver_city_id := RequestForCargo.receiver_city_id r;
     RequestForCargo.receiver_city_name :=
       RequestForCargo.receiver_city_name r;
     RequestForCargo.packages := RequestForCargo.packages r;
     RequestForCargo.additional_services :=
       RequestForCargo.additional_services r;
     RequestForCargo.duration_min := VNone;
     RequestForCargo.duration_max := VNone;
     RequestForCargo.cargo_type_descr := RequestForCargo.cargo_type_descr r;
     RequestForCargo.tariff_description :=
       RequestForCargo.tariff_description r |}.

(** The items of the service-id calls of a log, in order. *)
Definition sid_refs (log : list call) : list ref :=
  omap (fun c => match c with
                 | PostServiceId r _ => Some r
                 | PostCargo _ _ => None
                 end) log.

(** The items of the price calls of a log, in order. *)
Definition price_refs (log : list call) : list ref :=
  omap (fun c => match c with
                 | PostCargo r _ => Some r
                 | PostServiceId _ _ => None
                 end) log.

Definition awaiting_tariffs (w : worker) : nat :=
  match w with AwaitingServiceId _ => 1 | _ => 0 end.

Definition awaiting_price (w : worker) : nat :=
  match w with AwaitingCargo _ => 1 | _ => 0 end.

(** What a run started on the store [h] keeps true of the store: a
    request differs from the submitted one at most in what the worker
    assigns, it is the submitted one as long as no price call was sent
    for it, and it has a service id once one was. *)
Definition heap_inv (h : store) (s : loop) : Prop :=
  (forall r, unresolved (heap s r) = unresolved (h r)) /\
  (forall r, r ∉ price_refs (calls s) -> heap s r = h r) /\
  (forall r, r ∈ price_refs (calls s) ->
             is_Some (RequestForCargo.service_id (heap s r))).

(** What a run on [batch] of the parser [p] keeps true of its calls: the
    service-id calls follow the items taken from the queue, in order;
    each price call, and each worker waiting for tariffs, has its
    service-id call; each new route, and each worker waiting for a price,
    has its price call. *)
Definition budget_inv (batch : list ref) (p : CargoParserWithToken)
           (s : loop) : Prop :=
  (exists taken,
      batch = taken ++ Queue.items (_queue (self s)) /\
      sid_refs (calls s) `sublist_of` taken) /\
  (length (price_refs (calls s)) + sum_list_with awaiting_tariffs (tasks s)
   <= length (sid_refs (calls s)))%nat /\
  (length (_result_list (self s)) + sum_list_with awaiting_price (tasks s)
   <= length (_result_list p) + length (price_refs (calls s)))%nat.

(** The body of the service-id call for the request [r]. *)
Definition service_id_body (r : RequestForCargo.t) : result value :=
  sreq ← RequestForServiceId.of_cargo r;
  mret (RequestForServiceId.model_dump sreq).

(** What a run started on the store [h] keeps true of the bodies it
    sends: they are built from the requests as submitted, the price body
    with a service id and nothing else added. *)
Definition bodies_inv (h : store) (s : loop) : Prop :=
  forall k c,
    calls s !! k = Some c ->
    match c with
    | PostServiceId r body => service_id_body (h r) = Ok body
    | PostCargo r body =>
        exists sid dmin dmax,
          body = RequestForCargo.model_dump
                   (RequestForCargo.assign (h r) sid dmin dmax)
    end.

(** A route that echoes the request [req]: its cities are the names in
    the request and its weight is that of the first package. *)
Definition echoes (req : RequestForCargo.t) (route : Route) : Prop :=
  city_from route = RequestForCargo.sender_city_name req /\
  city_to route = RequestForCargo.receiver_city_name req /\
  Package.weight <$> head (RequestForCargo.packages req)
  = Some (route_weight route).

(** What a run started on the store [h] keeps true of its routes: the
    workers that wait for a price, and the new routes, have their price
    call, and each new route echoes its request as submitted. *)
Definition routes_inv (h : store) (p : CargoParserWithToken) (s : loop)
  : Prop :=
  (forall i r, tasks s !! i = Some (AwaitingCargo r) ->
               r ∈ price_refs (calls s)) /\
  exists routes,
    _result_list (self s) = _result_list p ++ routes /\
    Forall (fun route => echoes (h (request route)) route /\
                         request route ∈ price_refs (calls s)) routes.

(** The keys on which the two bodies sent for an item agree. *)
Definition shared_keys : list string :=
  ["payerType"; "currencyMark"; "senderCityId"; "receiverCityId";
   "packages"].

(** Every response of the schedule is an exception. *)
Definition all_raise (sched : schedule) : Prop :=
  Forall (fun step : nat * result value => is_Ok step.2 = false) sched.

(** What a run keeps true when every call raises: nothing is added to the
    results, no price call is sent, no worker waits for a price and the
    store is untouched. *)
Definition nothing_priced (p : CargoParserWithToken) (h : store) (s : loop)
  : Prop :=
  _result_list (self s) = _result_list p /\
  _routes_success (self s) = _routes_success p /\
  price_refs (calls s) = [] /\
  sum_list_with awaiting_price (tasks s) = 0%nat /\
  (forall r, heap s r = h r).

(** The request has exactly one package, which is what the constructor
    of [RequestForServiceId] accepts. *)
Definition one_package (r : RequestForCargo.t) : bool :=
  match RequestForCargo.packages r with [_] => true | _ => false end.

(** What a run on [batch] started on the store [h] keeps true of its
    service-id calls: they are for the items taken from the queue that
    were submitted with exactly one package, in order. *)
Definition sent_inv (batch : list ref) (h : store) (s : loop) : Prop :=
  exists taken,
    batch = taken ++ Queue.items (_queue (self s)) /\
    sid_refs (calls s) = filter (fun r => one_package (h r) = true) taken.

(** What a run keeps true of its price calls: each of them, and each
    worker waiting for tariffs, has a service-id call for its item. *)
Definition priced_inv (s : loop) : Prop :=
  (forall i r, tasks s !! i = Some (AwaitingServiceId r) ->
               r ∈ sid_refs (calls s)) /\
  (forall r, r ∈ price_refs (calls s) -> r ∈ sid_refs (calls s)).

(** A request with two packages, and a store that holds it at every
    address but the first. *)
Definition bulk_request : RequestForCargo.t :=
  {| RequestForCargo.without_add_services := 0;
     RequestForCargo.service_id := None;
     RequestForCargo.mode := "HOME-HOME";
     RequestForCargo.payer_type := "sender";
     RequestForCargo.currency_mark := "RUB";
     RequestForCargo.sender_city_id := {| int := 1 |};
     RequestForCargo.sender_city_name := "Moscow";
     RequestForCargo.receiver_city_id := {| int := 2 |};
     RequestForCargo.receiver_city_name := "Kazan";
     RequestForCargo.packages := [a_package; a_package];
     RequestForCargo.additional_services := [];
     RequestForCargo.duration_min := VNone;
     RequestForCargo.duration_max := VNone;
     RequestForCargo.cargo_type_descr := "Express";
     RequestForCargo.tariff_description := "16:00" |}.

Definition mixed_store : store :=
  fun r => match r with O => a_request | S _ => bulk_request end.

(** Two workers take one item each; the second item is failed at once,
    the first is priced. *)
Definition mixed_schedule : schedule :=
  [(0%nat, Ok VNone); (1%nat, Ok VNone); (0%nat, Ok tariff_response);
   (0%nat, Ok price_response)].

(** Every call of the single worker fails. *)
Definition failing_schedule : schedule :=
  [(0%nat, Raise ClientError); (0%nat, Raise ClientError)].

End ParsingRuns.

(** ** More vocabulary on the runs of the city parser *)

Module CitiesRuns.
Import Cities CitiesSpec.

(** The state of the loop after the resumptions of [sched]. *)
Definition run (sched : schedule) (s : loop) : loop :=
  fold_left (fun s step => worker_step step.1 step.2 s) sched s.

Definition alive (w : worker) : Prop :=
  match w with Crashed _ => False | _ => True end.

(** The cache has no record, or an empty one, for the name [c]: the test
    of [_worker], negated. *)
Definition miss (cache : gmap string value) (c : string) : bool :=
  negb (Py.truthy (default VNone (cache !! c))).

(** What a run keeps true, for a call of [_get_cities_info] on the parser
    [p0] with the names [batch]: no worker has crashed; the unfinished
    tasks are the queued names and those being fetched; the counters and
    the fail list are those of [p0] extended by one outcome for each name
    that is neither queued nor being fetched; the result has a record
    exactly for the resolved names. *)
Record inv (p0 : CityParser) (batch : list string) (s : loop) : Prop := {
  inv_alive : Forall alive (tasks s);
  inv_unfinished :
    Queue.unfinished_tasks (_queue (self s))
    = (length (Queue.items (_queue (self s)))
       + length (busy_names (tasks s)))%nat;
  inv_limit : _thread_limit (self s) = _thread_limit p0;
  inv_outcomes :
    exists resolved fails,
      _cities_success (self s)
      = _cities_success p0 + Z.of_nat (length resolved) /\
      _cities_fail (self s) = _cities_fail p0 + Z.of_nat (length fails) /\
      _cities_fail_list (self s) = _cities_fail_list p0 ++ fails /\
      batch ≡ₚ resolved ++ fails
                ++ Queue.items (_queue (self s)) ++ busy_names (tasks s) /\
      (forall c, c ∈ resolved <-> is_Some (_results (self s) !! c));
}.

(** What a run started with the cache [cache0] keeps true of the cache:
    it is written only under names that were requested; no entry is
    deleted; a non-empty record stays as it is and its name is neither
    requested nor being fetched; and every name being fetched was
    requested. *)
Definition cache_inv (cache0 : gmap string value) (s : loop) : Prop :=
  (forall c, c ∉ calls s -> _cached_cities (self s) !! c = cache0 !! c) /\
  (forall c, is_Some (cache0 !! c) ->
             is_Some (_cached_cities (self s) !! c)) /\
  (forall c d, cache0 !! c = Some d -> Py.truthy d = true ->
               _cached_cities (self s) !! c = Some d /\
               (c ∉ calls s) /\ (c ∉ busy_names (tasks s))) /\
  (forall c, c ∈ busy_names (tasks s) -> c ∈ calls s).

(** What a run on [batch] started with the cache [cache0] keeps true of
    its requests: they are for names taken from the queue, in order, and
    when no name is submitted twice they are exactly the taken names that
    had no non-empty record at the start. *)
Definition calls_inv (batch : list string) (cache0 : gmap string value)
           (s : loop) : Prop :=
  exists taken,
    batch = taken ++ Queue.items (_queue (self s)) /\
    calls s `sublist_of` taken /\
    (NoDup batch ->
     calls s = filter (fun c => miss cache0 c = true) taken).

(** The number of resumptions a worker still needs for its name. *)
Definition remaining (w : worker) : nat :=
  match w with AwaitingCity _ => 1 | Polling | Crashed _ => 0 end.

(** An upper bound of the resumptions the batch still needs. *)
Definition pending (s : loop) : nat :=
  (2 * length (Queue.items (_queue (self s)))
   + sum_list_with remaining (tasks s))%nat.

(** Resuming worker [i] does something. *)
Definition enabled (i : nat) (s : loop) : bool :=
  match tasks s !! i with
  | Some Polling => negb (Queue.qsize (_queue (self s)) <=? 0)
  | Some (AwaitingCity _) => true
  | Some (Crashed _) | None => false
  end.

(** Two workers take one name each; the first request is answered, the
    second fails. *)
Definition two_cities_schedule : schedule :=
  [(0%nat, Ok VNone); (1%nat, Ok VNone); (0%nat, Ok moscow_response);
   (1%nat, Raise ClientError)].

End CitiesRuns.

(** ** interface/interface.py *)

(** [v[k]] for a str [k]: the binding of a dict, [KeyError] (written
    [Exception "KeyError"]) when the dict has no such key, [TypeError]
    when [v] is not a dict. *)
Definition getitem (v : value) (k : string) : result value :=
  match v with
  | VDict d =>
      match Py.lookup k d with
      | Some x => Ok x
      | None => Raise (Exception "KeyError")
      end
  | _ => Raise TypeError
  end.

Module Interface.

Section Interface.

(** The keys of the two dicts of [interface/dictionaries.py] (numbers,
    in the defaults). *)
Context {K : Type} `{Countable K}.

(** Library code: [uuid.UUID(hex)]. *)
Variable UUID_init : value -> result UUID.

(** The attributes of a [MainTokenCargoInterFace] instance that
    [_prepare_cargo_requests] reads or writes.  [routes_to_parse] holds
    pairs of names, as [main.get_routes_from_file] builds them;
    [packages] is a dict read in insertion order. *)
Record MainTokenCargoInterFace := {
  routes_to_parse : list (string * string);
  payer : string;
  mode : string;
  currency_mark : string;
  packages : list (K * Package.t);
  additional_services : gmap K (list RequestForService.t);
  cargo_type_descr : string;
  tariff_description : string;
  _cached_cities : gmap string value;
  _cargo_requests : list RequestForCargo.t;
  _route_errors : list (string * string);
}.

(** [UUID(self._cached_cities[city]['city_uid'])] *)
Definition city_uuid (self : MainTokenCargoInterFace) (city : string)
  : result UUID :=
  record ← match _cached_cities self !! city with
           | Some record => Ok record
           | None => Raise (Exception "KeyError")
           end;
  raw ← getitem record "city_uid";
  UUID_init raw.

(** The constructor call of [_prepare_cargo_requests]; the fields that
    get no keyword take their defaults. *)
Definition new_request (self : MainTokenCargoInterFace)
           (sender_uuid : UUID) (sender_city : string)
           (receiver_uuid : UUID) (receiver_city : string)
           (package : Package.t) (add_service : list RequestForService.t)
  : RequestForCargo.t :=
  {| RequestForCargo.without_add_services := 0;
     RequestForCargo.service_id := None;
     RequestForCargo.mode := mode self;
     RequestForCargo.payer_type := payer self;
     RequestForCargo.currency_mark := currency_mark self;
     RequestForCargo.sender_city_id := sender_uuid;
     RequestForCargo.sender_city_name := sender_city;
     RequestForCargo.receiver_city_id := receiver_uuid;
     RequestForCargo.receiver_city_name := receiver_city;
     RequestForCargo.packages := [package];
     RequestForCargo.additional_services := Some <$> add_service;
     RequestForCargo.duration_min := VNone;
     RequestForCargo.duration_max := VNone;
     RequestForCargo.cargo_type_descr := cargo_type_descr self;
     RequestForCargo.tariff_description := tariff_description self |}.

(** The [for key, package in self.packages.items()] loop, with
    [self._cargo_requests] as accumulator: the list as the loop leaves
    it, and whether the loop ran to its end or raised. *)
Fixpoint packages_loop (self : MainTokenCargoInterFace)
         (sender_uuid : UUID) (sender_city : string)
         (receiver_uuid : UUID) (receiver_city : string)
         (items : list (K * Package.t))
         (requests : list RequestForCargo.t)
  : list RequestForCargo.t * result unit :=
  match items with
  | [] => (requests, Ok tt)
  | (key, package) :: rest =>
      match additional_services self !! key with
      | None => (requests, Raise (Exception "KeyError"))
      | Some add_service =>
          packages_loop self sender_uuid sender_city
            receiver_uuid receiver_city rest
            (requests ++ [new_request self sender_uuid sender_city
                            receiver_uuid receiver_city package add_service])
      end
  end.

Definition set_requests (requests : list RequestForCargo.t)
           (self : MainTokenCargoInterFace) : MainTokenCargoInterFace :=
  {| routes_to_parse := routes_to_parse self;
     payer := payer self;
     mode := mode self;
     currency_mark := currency_mark self;
     packages := packages self;
     additional_services := additional_services self;
     cargo_type_descr := cargo_type_descr self;
     tariff_description := tariff_description self;
     _cached_cities := _cached_cities self;
     _cargo_requests := requests;
     _route_errors := _route_errors self |}.

(** The [except Exception] block of [_prepare_cargo_requests]. *)
Definition on_exception (route : string * string)
           (self : MainTokenCargoInterFace) : MainTokenCargoInterFace :=
  {| routes_to_parse := routes_to_parse self;
     payer := payer self;
     mode := mode self;
     currency_mark := currency_mark self;
     packages := packages self;
     additional_services := additional_services self;
     cargo_type_descr := cargo_type_descr self;
     tariff_description := tariff_description self;
     _cached_cities := _cached_cities self;
     _cargo_requests := _cargo_requests self;
     _route_errors := _route_errors self ++ [route] |}.

(** One iteration of the [for sender_city, receiver_city in
    self.routes_to_parse] loop. *)
Definition route_step (self : MainTokenCargoInterFace)
           (route : string * string) : MainTokenCargoInterFace :=
  let '(sender_city, receiver_city) := route in
  match
    sender_uuid ← city_uuid self sender_city;
    receiver_uuid ← city_uuid self receiver_city;
    mret (sender_uuid, receiver_uuid)
  with
  | Raise _ => on_exception route self
  | Ok (sender_uuid, receiver_uuid) =>
      match packages_loop self sender_uuid sender_city
              receiver_uuid receiver_city (packages self)
              (_cargo_requests self)
      with
      | (requests, Ok _) => set_requests requests self
      | (requests, Raise _) =>
          on_exception route (set_requests requests self)
      end
  end.

(** [MainTokenCargoInterFace._prepare_cargo_requests] *)
Definition _prepare_cargo_requests (self : MainTokenCargoInterFace)
  : MainTokenCargoInterFace :=
  fold_left route_step (routes_to_parse self) self.

(** *** Vocabulary for the statements *)

(** The ids of the two cities of a route, when the cache has a record
    with a valid [city_uid] for both. *)
Definition endpoints (self : MainTokenCargoInterFace)
           (route : string * string) : option (UUID * UUID) :=
  match city_uuid self route.1, city_uuid self route.2 with
  | Ok sender_uuid, Ok receiver_uuid => Some (sender_uuid, receiver_uuid)
  | _, _ => None
  end.

(** The requests of a route for the packages [items] whose key has
    additional services. *)
Definition requests_of (self : MainTokenCargoInterFace)
           (items : list (K * Package.t)) (route : string * string)
  : list RequestForCargo.t :=
  match endpoints self route with
  | Some (sender_uuid, receiver_uuid) =>
      omap (fun item : K * Package.t =>
              new_request self sender_uuid route.1 receiver_uuid route.2
                          item.2
              <$> additional_services self !! item.1)
           items
  | None => []
  end.

(** The key has additional services. *)
Definition served (self : MainTokenCargoInterFace) (item : K * Package.t)
  : Prop :=
  is_Some (additional_services self !! item.1).

(** The instance with its two lists replaced. *)
Definition with_lists (requests : list RequestForCargo.t)
           (errors : list (string * string))
           (self : MainTokenCargoInterFace) : MainTokenCargoInterFace :=
  {| routes_to_parse := routes_to_parse self;
     payer := payer self;
     mode := mode self;
     currency_mark := currency_mark self;
     packages := packages self;
     additional_services := additional_services self;
     cargo_type_descr := cargo_type_descr self;
     tariff_description := tariff_description self;
     _cached_cities := _cached_cities self;
     _cargo_requests := requests;
     _route_errors := errors |}.

End Interface.

(** A sample interface, keyed by integers: two routes, the second to a
    city the cache holds an empty record for, and two packages. *)
Definition sample_cache : gmap string value :=
  {[ "Moscow" := VDict [("name", VStr "Moscow");
                        ("city_uid",
                         VStr "00000000-0000-0000-0000-000000000001");
                        ("full_name", VStr "Moscow, Russia")];
     "Kazan" := VDict [("name", VStr "Kazan");
                       ("city_uid",
                        VStr "00000000-0000-0000-0000-000000000002");
                       ("full_name", VStr "Kazan, Russia")];
     "Atlantis" := VDict [] ]}.

Definition small_package : Package.t :=
  {| Package.height := NInt 10; Package.length := NInt 23;
     Package.width := NInt 19; Package.weight := NInt 2 |}.

Definition large_package : Package.t :=
  {| Package.height := NInt 15; Package.length := NInt 33;
     Package.width := NInt 25; Package.weight := NInt 3 |}.

Definition insurance_service : RequestForService.t :=
  {| RequestForService.alias := "insurance";
     RequestForService.arguments :=
       [{| ServiceArgument.name := "insurance_declaredCost";
           ServiceArgument.value := 999 |}] |}.

Definition sample_interface
           (services : gmap Z (list RequestForService.t))
  : MainTokenCargoInterFace :=
  {| routes_to_parse := [("Moscow", "Kazan"); ("Moscow", "Atlantis")];
     payer := "sender";
     mode := "HOME-HOME";
     currency_mark := "RUB";
     packages := [(2, small_package); (3, large_package)];
     additional_services := services;
     cargo_type_descr := "Express";
     tariff_description := "16:00";
     _cached_cities := sample_cache;
     _cargo_requests := [];
     _route_errors := [] |}.

(** Services for both package keys, and for the first key only. *)
Definition all_services : gmap Z (list RequestForService.t) :=
  {[ 2 := [insurance_service]; 3 := [insurance_service] ]}.

Definition some_services : gmap Z (list RequestForService.t) :=
  {[ 2 := [insurance_service] ]}.

(** The requests the sample interface prepares, as a store. *)
Definition sample_requests : list RequestForCargo.t :=
  _cargo_requests
    (_prepare_cargo_requests Sample.UUID_init
       (sample_interface all_services)).

Definition sample_store : store :=
  fun r => default ParsingSpec.a_request (sample_requests !! r).

End Interface.

(** ** repository/routes.py *)

(** [z == f] for an int and a float: Python compares the two numbers
    exactly. *)
Definition float_eq_int (f : spec_float) (z : Z) : bool :=
  match f with
  | S754_zero _ => z =? 0
  | S754_finite s m e =>
      let v := if s then Z.neg m else Z.pos m in
      if 0 <=? e then z =? v * 2 ^ e else z * 2 ^ (- e) =? v
  | S754_infinity _ | S754_nan => false
  end.

(** [a == b] on [int | float] values. *)
Definition num_eq (a b : number) : bool :=
  match a, b with
  | NInt x, NInt y => x =? y
  | NFloat f, NFloat g => SFeqb f g
  | NInt x, NFloat f | NFloat f, NInt x => float_eq_int f x
  end.

(** [a == b] on pairs of str. *)
Definition pair_eq (a b : string * string) : bool :=
  String.eqb a.1 b.1 && String.eqb a.2 b.2.

(** [l.index(x)]: the position of the first item equal to [x],
    [ValueError] when there is none. *)
Fixpoint index {A} (eqb : A -> A -> bool) (x : A) (l : list A)
  : result nat :=
  match l with
  | [] => Raise ValueError
  | y :: l' =>
      if eqb y x then Ok 0%nat
      else n ← index eqb x l'; mret (S n)
  end.

Module Routes.

(** The attributes of an [ExcelRouteRepository] that [_fill_data] reads;
    [last_column] is 0 until [_make_headers] sets it. *)
Record ExcelRouteRepository := {
  weight_list : list number;
  last_column : Z;
}.

(** An openpyxl worksheet: the values of its cells, by row and column,
    both counted from 1. *)
Abbreviation worksheet := (gmap (Z * Z) value).

(** [worksheet.cell(row, column).value = v]; openpyxl raises
    [ValueError] for a row or a column below 1. *)
Definition set_value (ws : worksheet) (row column : Z) (v : value)
  : result worksheet :=
  if (row <? 1) || (column <? 1) then Raise ValueError
  else Ok (<[(row, column) := v]> ws).

(** The body of the [for item in routes] loop of [_fill_data]. *)
Definition fill_item (self : ExcelRouteRepository)
           (row_titles : list (string * string)) (ws : worksheet)
           (item : Route) : result worksheet :=
  i ← index pair_eq (city_from item, city_to item) row_titles;
  let row := 4 + Z.of_nat i in
  j ← index num_eq (route_weight item) (weight_list self);
  let column := 3 + Z.of_nat j in
  ws ← set_value ws row column (number_value (total_cost item));
  ws ← set_value ws row (last_column self - 1)
         (number_value (route_duration_min item));
  set_value ws row (last_column self)
    (number_value (route_duration_max item)).

(** [ExcelRouteRepository._fill_data].  An exception leaves the method
    and [_add_all], which then never saves the workbook, so the sheet
    of a failed call is not kept. *)
Fixpoint _fill_data (self : ExcelRouteRepository) (routes : list Route)
         (row_titles : list (string * string)) (ws : worksheet)
  : result worksheet :=
  match routes with
  | [] => Ok ws
  | item :: rest =>
      ws' ← fill_item self row_titles ws item;
      _fill_data self rest row_titles ws'
  end.

(** *** Vocabulary for the statements *)

(** What [item] leaves in the cell, if it writes there: the last of
    its three assignments that hits the cell. *)
Definition written (self : ExcelRouteRepository)
           (row_titles : list (string * string)) (item : Route)
           (cell : Z * Z) : option value :=
  match index pair_eq (city_from item, city_to item) row_titles,
        index num_eq (route_weight item) (weight_list self)
  with
  | Ok i, Ok j =>
      if decide (cell.1 = 4 + Z.of_nat i) then
        if decide (cell.2 = last_column self)
        then Some (number_value (route_duration_max item))
        else if decide (cell.2 = last_column self - 1)
        then Some (number_value (route_duration_min item))
        else if decide (cell.2 = 3 + Z.of_nat j)
        then Some (number_value (total_cost item))
        else None
      else None
  | _, _ => None
  end.

(** A sheet for two weights, as [_make_headers] leaves [last_column],
    and two routes of one pair of cities. *)
Definition sample_repository : ExcelRouteRepository :=
  {| weight_list := [NInt 2; NInt 3]; last_column := 6 |}.

Definition sample_route (weight total dmin dmax : Z) : Route :=
  {| city_from := "Moscow"; city_to := "Kazan";
     delivery_price := NInt total; total_cost := NInt total;
     request := 0%nat; services := [];
     route_duration_min := NInt dmin; route_duration_max := NInt dmax;
     route_weight := NInt weight |}.

Definition sample_routes : list Route :=
  [sample_route 2 650 1 3; sample_route 3 800 2 4].

End Routes.

(** * Theorems *)

(** ** Lists *)

(** Replacing one element of a list changes the concatenation of the
    images only by the image of that element. *)
Lemma bind_insert_perm {A B} (f : A -> list B) (l : list A) (i : nat)
      (x y : A) :
  l !! i = Some x ->
  exists rest,
    l ≫= f ≡ₚ f x ++ rest /\
    <[i := y]> l ≫= f ≡ₚ f y ++ rest.
Proof.
  intros Hx.
  exists ((take i l ≫= f) ++ (drop (S i) l ≫= f)).
  assert (i < length l)%nat as Hi by (eapply lookup_lt_Some; exact Hx).
  rewrite insert_take_drop by assumption.
  rewrite <- (take_drop_middle l i x Hx) at 1.
  rewrite !bind_app, !bind_cons.
  split; solve_Permutation.
Qed.

(** ** The city parser *)

Module CitiesFacts.
Import Cities CitiesSpec.

Lemma get_dict (v : value) (k : string) :
  is_dict v -> Py.get v k = Ok (field v k).
Proof. destruct v; simpl; intros H; try contradiction; reflexivity. Qed.

(** Assigning the three keys to a dict that already has them, in that
    order, overwrites the values in place. *)
Lemma setitem_record (city_name : string) (old item : value) :
  Py.setitem
    (Py.setitem
       (Py.setitem
          [("name", VStr city_name); ("city_uid", field old "uuid");
           ("full_name", field old "fullName")]
          "name" (VStr city_name))
       "city_uid" (field item "uuid"))
    "full_name" (field item "fullName")
  = [("name", VStr city_name); ("city_uid", field item "uuid");
     ("full_name", field item "fullName")].
Proof. reflexivity. Qed.

(** The loop started on a record: the last matching candidate, if any,
    replaces the record. *)
Lemma extract_loop_record (items : list value) (city_name : string)
      (old : value) :
  Forall is_dict items ->
  extract_loop items city_name
    [("name", VStr city_name); ("city_uid", field old "uuid");
     ("full_name", field old "fullName")]
  = Ok [("name", VStr city_name);
        ("city_uid",
          field (default old (list.last (matching city_name items))) "uuid");
        ("full_name",
          field (default old (list.last (matching city_name items)))
                "fullName")].
Proof.
  intros Hd. revert old. induction Hd as [|item rest Hitem _ IH]; intros old.
  - reflexivity.
  - cbn [extract_loop]. rewrite !get_dict by assumption.
    cbn [mbind result_bind]. unfold matching.
    destruct (decide (name_matches city_name item = true)) as [E|E].
    + rewrite filter_cons_True by assumption.
      unfold name_matches in E. rewrite E. cbn [negb].
      rewrite setitem_record, IH. unfold matching.
      rewrite last_cons. destruct (list.last (filter _ rest)); reflexivity.
    + rewrite filter_cons_False by assumption.
      unfold name_matches in E. apply not_true_is_false in E. rewrite E.
      apply IH.
Qed.

Lemma extract_loop_spec (items : list value) (city_name : string) :
  Forall is_dict items ->
  extract_loop items city_name []
  = Ok match list.last (matching city_name items) with
       | Some item =>
           [("name", VStr city_name); ("city_uid", field item "uuid");
            ("full_name", field item "fullName")]
       | None => []
       end.
Proof.
  induction 1 as [|item rest Hitem Hrest IH].
  - reflexivity.
  - cbn [extract_loop]. rewrite !get_dict by assumption.
    cbn [mbind result_bind]. unfold matching.
    destruct (decide (name_matches city_name item = true)) as [E|E].
    + rewrite filter_cons_True by assumption.
      unfold name_matches in E. rewrite E. cbn [negb].
      change (Py.setitem (Py.setitem (Py.setitem [] "name" (VStr city_name))
                "city_uid" (field item "uuid"))
                "full_name" (field item "fullName"))
        with [("name", VStr city_name); ("city_uid", field item "uuid");
              ("full_name", field item "fullName")].
      rewrite extract_loop_record by assumption.
      unfold matching. rewrite last_cons.
      destruct (list.last (filter _ rest)); reflexivity.
    + rewrite filter_cons_False by assumption.
      unfold name_matches in E. apply not_true_is_false in E. rewrite E.
      apply IH.
Qed.

(** [_extract_city_dict] on a well-formed response with at least one
    candidate. *)
Lemma extract_city_dict_spec (city_data : value) (items : list value)
      (city_name : string) :
  Py.get city_data "data" = Ok (VList items) ->
  items <> [] ->
  Forall is_dict items ->
  _extract_city_dict city_data city_name
  = Ok match list.last (matching city_name items) with
       | Some item => city_record city_name item
       | None => VDict []
       end.
Proof.
  intros Hdata Hne Hd. unfold _extract_city_dict. rewrite Hdata.
  cbn [mbind result_bind Py.truthy Py.iter].
  destruct items as [|x l]; [contradiction|]. cbn [negb].
  rewrite extract_loop_spec by assumption. cbn [mbind result_bind mret result_ret].
  destruct (list.last _); reflexivity.
Qed.

(** *** The report *)

Lemma CitiesReport_init_kwargs (cities : list string) (p : CityParser) :
  CitiesReport_init (report_kwargs cities p)
  = Ok {| cities_total := 0; cities_success := 0; cities_fail := 0;
          routes_fail_list := _cities_fail_list p |}.
Proof. reflexivity. Qed.

Lemma get_cities_info_returns (cities : list string) (sched : schedule)
      (p : CityParser) out (s : loop) :
  _get_cities_info cities sched p = Some (out, s) ->
  event_loop sched (start cities (reset_results p)) = Some s /\
  out = Ok (_results (self s),
            {| cities_total := 0; cities_success := 0; cities_fail := 0;
               routes_fail_list := _cities_fail_list (self s) |}).
Proof.
  unfold _get_cities_info, _run_city_parsing.
  destruct (event_loop sched _) as [s'|]; [|discriminate].
  rewrite CitiesReport_init_kwargs. cbn [mbind result_bind mret result_ret].
  intros [= <- <-]. split; reflexivity.
Qed.

(** *** The event loop *)

(** Whatever every step preserves holds when [join] returns. *)
Lemma city_loop_invariant (I : loop -> Prop) :
  (forall i resp s, I s -> I (worker_step i resp s)) ->
  forall sched s s',
    I s -> event_loop sched s = Some s' ->
    I s' /\ Queue.joined (_queue (self s')) = true.
Proof.
  intros Hstep sched. induction sched as [|[i resp] sched IH]; intros s s' HI;
    cbn [event_loop]; destruct (Queue.joined (_queue (self s))) eqn:J.
  - intros [= <-]. auto.
  - discriminate.
  - intros [= <-]. auto.
  - intros H. eapply IH; [|exact H]. auto.
Qed.

Lemma truthy_default_Some (o : option value) :
  Py.truthy (default VNone o) = true -> o = Some (default VNone o).
Proof. destruct o; [reflexivity|discriminate]. Qed.

(** Every record a run puts in the result is also in the cache. *)
Lemma worker_step_results_cached (i : nat) (resp : result value) (s : loop) :
  _results (self s) ⊆ _cached_cities (self s) ->
  _results (self (worker_step i resp s))
    ⊆ _cached_cities (self (worker_step i resp s)).
Proof.
  intros Hsub. unfold worker_step.
  destruct (tasks s !! i) as [[|city_name|e]|]; try assumption.
  - destruct (Queue.qsize _ <=? 0); [assumption|].
    destruct (Queue.get _) as [[city_name q]|]; [|assumption].
    destruct (Py.truthy _) eqn:T; [|assumption].
    apply truthy_default_Some in T.
    unfold finish. destruct (Queue.task_done _); cbn;
      apply insert_subseteq_l; assumption.
  - destruct (resp ≫= _) as [city_dict|e]; unfold finish;
      destruct (Queue.task_done _); cbn; try assumption;
      apply insert_mono; assumption.
Qed.

Lemma Forall_Polling_insert (ws : list worker) (i : nat) :
  Forall (fun w => w = Polling) ws ->
  Forall (fun w => w = Polling) (<[i := Polling]> ws).
Proof. intros H. apply Forall_insert; [assumption|reflexivity]. Qed.

Lemma worker_step_served_from_cache cache c d i resp s :
  cache !! c = Some d -> Py.truthy d = true ->
  served_from_cache cache c d s ->
  served_from_cache cache c d (worker_step i resp s).
Proof.
  intros Hc Ht (Hcalls & Hcache & Hpoll & Hq). unfold worker_step.
  destruct (tasks s !! i) as [w|] eqn:Hw; [|repeat split; assumption].
  assert (w = Polling) as ->.
  { eapply (proj1 (Forall_lookup _ _) Hpoll). exact Hw. }
  destruct Hq as [[Hq Hr]|[Hq Hr]]; rewrite Hq.
  - rewrite Hcache.
    change (Queue.qsize (Queue.Mk [c] 1) <=? 0) with false.
    change (Queue.get (Queue.Mk [c] 1))
      with (Some (c, Queue.Mk (A:=string) [] 1)).
    cbv beta iota. rewrite Hc.
    change (default VNone (Some d)) with d. rewrite Ht.
    unfold finish, on_cached.
    cbn [_queue Queue.task_done Queue.unfinished_tasks Queue.items].
    repeat split; cbn [calls self tasks _cached_cities _results _queue];
      try assumption.
    + apply Forall_Polling_insert; assumption.
    + right. split; [reflexivity|]. rewrite Hr, Hcache, Hc. reflexivity.
  - change (Queue.qsize (Queue.Mk [] 0) <=? 0) with true.
    repeat split; try assumption. right. auto.
Qed.

Lemma event_loop_joined (sched : schedule) (s : loop) :
  Queue.joined (_queue (self s)) = true -> event_loop sched s = Some s.
Proof. intros J. destruct sched as [|[i resp] sched]; cbn; rewrite J; reflexivity. Qed.

Lemma start_results_cached (cities : list string) (p : CityParser) :
  _results (self (start cities (reset_results p)))
    ⊆ _cached_cities (self (start cities (reset_results p))).
Proof. cbn. apply map_empty_subseteq. Qed.

Lemma start_served_from_cache (p : CityParser) (c : string) (d : value) :
  served_from_cache (_cached_cities p) c d (start [c] (reset_results p)).
Proof.
  repeat split; cbn [start calls self _cached_cities reset_results tasks].
  - apply Forall_forall. intros w Hw.
    apply list_elem_of_fmap in Hw as (idx & -> & _). reflexivity.
  - left. split; reflexivity.
Qed.

Lemma city_put_all_spec {A} (xs : list A) (q : Queue.t A) :
  Queue.put_all q xs
  = Queue.Mk (Queue.items q ++ xs)
             (Queue.unfinished_tasks q + length xs)%nat.
Proof.
  unfold Queue.put_all. revert q.
  induction xs as [|x xs IH]; intros q; cbn [fold_left].
  - destruct q. cbn. rewrite app_nil_r, Nat.add_0_r. reflexivity.
  - rewrite IH. unfold Queue.put_nowait.
    cbn [Queue.items Queue.unfinished_tasks].
    rewrite <- app_assoc. cbn [app length]. f_equal. lia.
Qed.

Lemma busy_names_insert (ws : list worker) (i : nat) (w w' : worker) :
  ws !! i = Some w ->
  exists rest,
    busy_names ws ≡ₚ name_of w ++ rest /\
    busy_names (<[i := w']> ws) ≡ₚ name_of w' ++ rest.
Proof. apply bind_insert_perm. Qed.

(** The end of an iteration of worker [i], which held the name of [w]. *)
Lemma finish_keeps_cached (c : string) (d : value) (i : nat) (w : worker)
      (rest : list string) (p : CityParser) (s : loop) :
  tasks s !! i = Some w ->
  busy_names (tasks s) ≡ₚ name_of w ++ rest ->
  c ∉ rest ->
  c ∉ calls s ->
  _cached_cities p !! c = Some d ->
  (S (length (Queue.items (_queue p)) + length rest)
   <= Queue.unfinished_tasks (_queue p))%nat ->
  (c ∈ Queue.items (_queue p) \/ _results p !! c = Some d) ->
  keeps_cached c d (finish i p s).
Proof.
  intros Hw Hbusy Hrest Hcalls Hcache Hunf Hdone.
  destruct (busy_names_insert _ _ _ Polling Hw) as (rest' & Hb & Hb').
  assert (rest' ≡ₚ rest) as Hperm.
  { rewrite Hbusy in Hb. eapply Permutation_app_inv_l. symmetry. exact Hb. }
  cbn [name_of app] in Hb'. rewrite Hperm in Hb'.
  unfold finish, Queue.task_done.
  destruct (Queue.unfinished_tasks (_queue p)) as [|n] eqn:Hn; [lia|].
  repeat split;
    cbn [self tasks calls _cached_cities _results _queue Queue.items
         Queue.unfinished_tasks];
    try assumption.
  - rewrite Hb'. assumption.
  - rewrite Hb'. lia.
Qed.

Lemma worker_step_keeps_cached (c : string) (d : value) (i : nat)
      (resp : result value) (s : loop) :
  Py.truthy d = true ->
  keeps_cached c d s -> keeps_cached c d (worker_step i resp s).
Proof.
  intros Ht Hinv. pose proof Hinv as (Hcache & Hcalls & Hbusy & Hunf & Hdone).
  unfold worker_step.
  destruct (tasks s !! i) as [[|x|e]|] eqn:Hw; try assumption.
  - destruct (Queue.qsize _ <=? 0); [assumption|].
    destruct (Queue.get _) as [[x q]|] eqn:Hget; [|assumption].
    unfold Queue.get in Hget.
    destruct (Queue.items (_queue (self s))) as [|x' items] eqn:Hitems;
      [discriminate Hget|]. injection Hget as -> <-.
    destruct (busy_names_insert _ _ _ (AwaitingCity x) Hw)
      as (rest & Hb & Hb').
    cbn [name_of app] in Hb, Hb'.
    destruct (Py.truthy (default VNone (_cached_cities (self s) !! x)))
      eqn:Hx.
    + eapply (finish_keeps_cached c d i Polling rest); try eassumption;
        cbn [on_cached _cached_cities _results _queue Queue.items
             Queue.unfinished_tasks].
      * rewrite <- Hb. assumption.
      * rewrite Hb in Hunf. cbn [length] in Hunf. lia.
      * destruct (decide (x = c)) as [->|Hne].
        -- right. rewrite Hcache. apply lookup_insert_eq.
        -- destruct Hdone as [Hin|Hres].
           ++ left. apply elem_of_cons in Hin as [->|Hin];
                [contradiction Hne; reflexivity|assumption].
           ++ right. rewrite lookup_insert_ne by assumption. assumption.
    + assert (x <> c) as Hne.
      { intros ->. rewrite Hcache in Hx.
        change (default VNone (Some d)) with d in Hx.
        rewrite Ht in Hx. discriminate Hx. }
      repeat split;
        cbn [self tasks calls _cached_cities _results _queue Queue.items
             Queue.unfinished_tasks].
      * assumption.
      * intros Hin. apply elem_of_app in Hin as [Hin|Hin];
          [contradiction|].
        apply list_elem_of_singleton in Hin. congruence.
      * rewrite Hb'. rewrite Hb in Hbusy.
        intros Hin. apply elem_of_cons in Hin as [Hin|Hin];
          [congruence|contradiction].
      * rewrite Hb'. rewrite Hb in Hunf. cbn [length] in *. lia.
      * destruct Hdone as [Hin|Hres]; [|right; assumption].
        left. apply elem_of_cons in Hin as [->|Hin];
          [contradiction Hne; reflexivity|assumption].
  - destruct (busy_names_insert _ _ _ Polling Hw) as (rest & Hb & _).
    cbn [name_of] in Hb.
    assert (x <> c /\ c ∉ rest) as [Hne Hrest].
    { rewrite Hb in Hbusy. split.
      - intros ->. apply Hbusy. left.
      - intros Hin. apply Hbusy. right. assumption. }
    destruct (resp ≫= _) as [city_dict|];
      eapply (finish_keeps_cached c d i _ rest); try eassumption;
      cbn [on_success on_exception _cached_cities _results _queue];
      rewrite ?lookup_insert_ne by assumption; try assumption;
      rewrite Hb in Hunf; cbn [length app] in Hunf; lia.
Qed.

Lemma start_keeps_cached (c : string) (d : value) (cities : list string)
      (p : CityParser) :
  _cached_cities p !! c = Some d ->
  c ∈ cities ->
  keeps_cached c d (start cities (reset_results p)).
Proof.
  intros Hcache Hin.
  assert (forall l : list nat, busy_names (map (fun _ => Polling) l) = [])
    as Hidle.
  { induction l; [reflexivity|assumption]. }
  repeat split;
    cbn [start self tasks calls _cached_cities _results _queue reset_results];
    rewrite ?Hidle, ?city_put_all_spec;
    cbn [Queue.items Queue.unfinished_tasks Queue.new app length].
  - assumption.
  - apply not_elem_of_nil.
  - apply not_elem_of_nil.
  - lia.
  - left. assumption.
Qed.

(** With one worker or more, the first resumption of worker [0] serves a
    one-name batch whose name has a non-empty cached record. *)
Lemma first_step_serves (p : CityParser) (c : string) (d : value)
      (resp : result value) :
  1 <= _thread_limit p ->
  _cached_cities p !! c = Some d ->
  Py.truthy d = true ->
  Queue.joined
    (_queue (self (worker_step 0 resp (start [c] (reset_results p))))) = true.
Proof.
  intros Hlimit Hc Ht. unfold worker_step, start.
  cbn [tasks self _queue _cached_cities _thread_limit reset_results length].
  rewrite Z.min_l by (change (Z.of_nat 1) with 1; lia).
  change (map (fun _ : nat => Polling) (range (Z.of_nat 1)) !! 0%nat)
    with (Some Polling).
  change (Queue.qsize (Queue.put_all Queue.new [c]) <=? 0) with false.
  change (Queue.get (Queue.put_all Queue.new [c]))
    with (Some (c, Queue.Mk (A:=string) [] 1)).
  cbv beta iota. rewrite Hc. change (default VNone (Some d)) with d.
  rewrite Ht. reflexivity.
Qed.

(** C9: when two or more candidates of the autocomplete response carry
    exactly the queried name, [_extract_city_dict] returns the record
    whose [city_uid] and [full_name] are the [uuid] and [fullName] of the
    last of them in response order. *)
Theorem C9_last_match_wins (city_data : value) (items : list value)
        (city_name : string) (first : value) (between : list value)
        (final : value) :
  Py.get city_data "data" = Ok (VList items) ->
  Forall is_dict items ->
  matching city_name items = first :: between ++ [final] ->
  _extract_city_dict city_data city_name
  = Ok (VDict [("name", VStr city_name);
               ("city_uid", field final "uuid");
               ("full_name", field final "fullName")]).
Proof.
  intros Hdata Hd Hm.
  assert (items <> []) as Hne.
  { intros ->. discriminate Hm. }
  rewrite (extract_city_dict_spec _ _ _ Hdata Hne Hd), Hm.
  rewrite app_comm_cons, last_snoc. reflexivity.
Qed.

(** C9 on a response with two candidates named "Moscow" and one other
    in between. *)
Lemma C9_last_match_wins_witness :
  _extract_city_dict two_moscows_response "Moscow"
  = Ok (VDict [("name", VStr "Moscow"); ("city_uid", VStr "u-last");
               ("full_name", VStr "Moscow, Russia")]).
Proof.
  apply (C9_last_match_wins two_moscows_response
           [candidate "Moscow" "u-first" "Moscow, Idaho";
            candidate "Moscow Mills" "u-mills" "Moscow Mills, Missouri";
            candidate "Moscow" "u-last" "Moscow, Russia"]
           "Moscow"
           (candidate "Moscow" "u-first" "Moscow, Idaho") []
           (candidate "Moscow" "u-last" "Moscow, Russia")).
  - reflexivity.
  - repeat constructor.
  - reflexivity.
Defined.

(** C4, as amended: a worker that takes a name whose cached record is
    non-empty (truthy) stores that record in the result without an HTTP
    request; so after a resolution that returned a non-empty record for
    a name, any later call on the same cache, by the same parser or by
    any other parser that holds that cache, whose batch has that name
    sends no request for it and returns the same record for it; and a
    later call for that name alone sends no request at all and returns
    as soon as its one worker is resumed. *)
Theorem C4_cached_record_is_served :
  (forall (s : loop) (i : nat) (resp : result value) (c : string)
          (q : Queue.t string) (d : value),
      tasks s !! i = Some Polling ->
      Queue.get (_queue (self s)) = Some (c, q) ->
      _cached_cities (self s) !! c = Some d ->
      Py.truthy d = true ->
      calls (worker_step i resp s) = calls s /\
      _results (self (worker_step i resp s)) !! c = Some d /\
      _cached_cities (self (worker_step i resp s)) = _cached_cities (self s))
  /\
  (forall (cities : list string) (sched : schedule) (p : CityParser)
          (res : gmap string value) (rep : CitiesReport) (s1 : loop)
          (c : string) (d : value),
      _get_cities_info cities sched p = Some (Ok (res, rep), s1) ->
      res !! c = Some d ->
      Py.truthy d = true ->
      forall p2 : CityParser,
        _cached_cities p2 = _cached_cities (self s1) ->
        (forall cities2 sched2 out2 s2,
            c ∈ cities2 ->
            _get_cities_info cities2 sched2 p2 = Some (out2, s2) ->
            (c ∉ calls s2) /\
            exists res2 rep2, out2 = Ok (res2, rep2) /\ res2 !! c = Some d)
        /\
        (forall sched2 out2 s2,
            _get_cities_info [c] sched2 p2 = Some (out2, s2) ->
            calls s2 = [] /\ exists rep2, out2 = Ok ({[c := d]}, rep2)) /\
        (1 <= _thread_limit p2 ->
         forall resp sched2,
           is_Some (_get_cities_info [c] ((0%nat, resp) :: sched2) p2))).
Proof.
  split.
  - intros s i resp c q d Hw Hget Hc Ht. unfold worker_step. rewrite Hw.
    assert ((Queue.qsize (_queue (self s)) <=? 0) = false) as ->.
    { unfold Queue.get in Hget. unfold Queue.qsize.
      destruct (Queue.items _); [discriminate|]. cbn. reflexivity. }
    rewrite Hget, Hc. change (default VNone (Some d)) with d. rewrite Ht.
    unfold finish, on_cached. destruct (Queue.task_done _);
      cbn [calls self _results _cached_cities]; rewrite ?Hc;
      (split; [reflexivity|split; [apply lookup_insert_eq|reflexivity]]).
  - intros cities sched p res rep s1 c d H1 Hres Ht p2 Hshared.
    apply get_cities_info_returns in H1 as [Hloop [= -> _]].
    assert (_cached_cities p2 !! c = Some d) as Hc.
    { rewrite Hshared. eapply lookup_weaken; [exact Hres|].
      eapply (city_loop_invariant
                (fun s => _results (self s) ⊆ _cached_cities (self s)));
        [ intros; apply worker_step_results_cached; assumption
        | apply start_results_cached | exact Hloop ]. }
    split; [|split].
    + intros cities2 sched2 out2 s2 Hin H2.
      apply get_cities_info_returns in H2 as [Hloop2 ->].
      destruct (city_loop_invariant (keeps_cached c d)
                  (fun i resp s => worker_step_keeps_cached c d i resp s Ht)
                  _ _ _ (start_keeps_cached c d cities2 p2 Hc Hin)
                  Hloop2)
        as [(_ & Hcalls & _ & Hunf & Hdone) J].
      split; [assumption|]. eexists _, _. split; [reflexivity|].
      destruct Hdone as [Hqueued|Hdone]; [|assumption]. exfalso.
      unfold Queue.joined in J.
      destruct (Queue.unfinished_tasks _); [|discriminate J].
      destruct (Queue.items _); [|cbn [length] in Hunf; lia].
      apply not_elem_of_nil in Hqueued. exact Hqueued.
    + intros sched2 out2 s2 H2.
      apply get_cities_info_returns in H2 as [Hloop2 ->].
      destruct (city_loop_invariant
                  (served_from_cache (_cached_cities p2) c d)
                  (fun i resp s => worker_step_served_from_cache _ c d i resp s Hc Ht)
                  _ _ _ (start_served_from_cache p2 c d) Hloop2)
        as [(Hcalls & _ & _ & Hq) J].
      destruct Hq as [[Hq _]|[_ Hr]].
      * rewrite Hq in J. discriminate J.
      * rewrite Hr. split; [assumption|]. eexists. reflexivity.
    + intros Hlimit resp sched2.
      unfold _get_cities_info, _run_city_parsing.
      cbn [event_loop start self _queue reset_results Queue.put_all fold_left].
      change (Queue.joined (Queue.put_nowait Queue.new c)) with false.
      cbv beta iota.
      rewrite event_loop_joined; [eexists; reflexivity|].
      apply (first_step_serves p2 c d); assumption.
Qed.

(** C4, as amended, on a fresh parser: the first call fetches "Moscow",
    and a call of a second parser built on the cache the first one left
    serves it from the cache. *)
Lemma C4_cached_record_is_served_witness :
  match _get_cities_info ["Moscow"]
          [(0%nat, Ok VNone); (0%nat, Ok moscow_response)] (__init__ ∅ 10)
  with
  | Some (Ok (res, _), s1) =>
      calls s1 = ["Moscow"] /\
      match _get_cities_info ["Moscow"] [(0%nat, Ok VNone)]
              (__init__ (_cached_cities (self s1)) 3)
      with
      | Some (out2, s2) =>
          calls s2 = [] /\
          exists rep2,
            out2 = Ok ({["Moscow" :=
                          city_record "Moscow"
                            (candidate "Moscow" "u-moscow" "Moscow, Russia")]},
                       rep2)
      | None => False
      end
  | _ => False
  end.
Proof.
  destruct (_get_cities_info ["Moscow"] _ (__init__ ∅ 10))
    as [[[[res rep]|e] s1]|] eqn:H1;
    [|vm_compute in H1; discriminate H1..].
  pose proof H1 as H1'. vm_compute in H1'. injection H1' as Hres _ Hs1.
  split; [rewrite <- Hs1; reflexivity|].
  assert (res !! "Moscow"
          = Some (city_record "Moscow"
                    (candidate "Moscow" "u-moscow" "Moscow, Russia"))) as Hr.
  { rewrite <- Hres. reflexivity. }
  destruct (proj2 C4_cached_record_is_served _ _ _ _ _ _ _ _ H1 Hr eq_refl
              (__init__ (_cached_cities (self s1)) 3) eq_refl)
    as (_ & Hsecond & Hreturns).
  destruct (Hreturns ltac:(cbn; lia) (Ok VNone) []) as [[out2 s2] H2].
  rewrite H2. exact (Hsecond _ _ _ H2).
Defined.

(** C4 does not hold as stated: a name that is in the cache with an empty
    record is looked up on the network again, and a resolution that
    found candidates but no match is counted as a success and leaves
    such an empty record behind. *)
Lemma C4_counterexample :
  (let s := start ["X"] (__init__ {["X" := VDict []]} 10) in
   tasks s !! 0%nat = Some Polling /\
   Queue.get (_queue (self s)) = Some ("X", Queue.Mk [] 1) /\
   _cached_cities (self s) !! "X" = Some (VDict []) /\
   calls s = [] /\
   calls (worker_step 0 (Ok VNone) s) = ["X"]) /\
  match _get_cities_info ["X"]
          [(0%nat, Ok VNone); (0%nat, Ok no_match_response)] (__init__ ∅ 10)
  with
  | Some (Ok (res, _), s1) =>
      res !! "X" = Some (VDict []) /\
      _cities_success (self s1) = 1 /\
      _cities_fail (self s1) = 0 /\
      calls s1 = ["X"] /\
      match _get_cities_info ["X"]
              [(0%nat, Ok VNone); (0%nat, Ok moscow_response)] (self s1)
      with
      | Some (_, s2) => calls s2 = ["X"]
      | None => False
      end
  | _ => False
  end.
Proof. vm_compute. repeat split. Qed.

(** C2 at the batch [["Moscow"]]: the name is resolved and counted by the
    parser, but every count of the returned [CitiesReport] is zero,
    because [_get_cities_info] passes the counts under the keywords
    [routes_total], [routes_success] and [routes_fail], which are not
    fields of [CitiesReport]. *)
Theorem C2_report_counts_are_zero :
  match _get_cities_info ["Moscow"]
          [(0%nat, Ok VNone); (0%nat, Ok moscow_response)] (__init__ ∅ 10)
  with
  | Some (Ok (res, report), s) =>
      is_Some (res !! "Moscow") /\
      _cities_success (self s) = 1 /\
      cities_total report = 0 /\
      cities_success report = 0 /\
      cities_fail report = 0
  | _ => False
  end.
Proof. vm_compute. repeat split. eexists. reflexivity. Qed.

(** C3 at the batch [["Moscow"; "Unknownville"]].  When the site answers
    the second name with candidates none of which has that name,
    [_extract_city_dict] returns an empty dict instead of raising, so the
    name is counted as a success, gets the empty dict as its record and
    is not put in the fail list.  When the site answers it with no
    candidate at all, the name does go to the fail list and gets no
    record, but the report still shows no success and no failure (the
    defect of C2). *)
Theorem C3_no_match_is_counted_as_success :
  _extract_city_dict no_match_response "Unknownville" = Ok (VDict []) /\
  match _get_cities_info ["Moscow"; "Unknownville"]
          [(0%nat, Ok VNone); (1%nat, Ok VNone);
           (0%nat, Ok moscow_response); (1%nat, Ok no_match_response)]
          (__init__ ∅ 10)
  with
  | Some (Ok (res, report), s) =>
      res !! "Unknownville" = Some (VDict []) /\
      _cities_success (self s) = 2 /\
      _cities_fail (self s) = 0 /\
      routes_fail_list report = [] /\
      cities_success report = 0 /\
      cities_fail report = 0
  | _ => False
  end /\
  match _get_cities_info ["Moscow"; "Unknownville"]
          [(0%nat, Ok VNone); (1%nat, Ok VNone);
           (0%nat, Ok moscow_response); (1%nat, Ok empty_response)]
          (__init__ ∅ 10)
  with
  | Some (Ok (res, report), s) =>
      res !! "Unknownville" = None /\
      is_Some (res !! "Moscow") /\
      _cities_success (self s) = 1 /\
      _cities_fail (self s) = 1 /\
      routes_fail_list report = ["Unknownville"] /\
      cities_success report = 0 /\
      cities_fail report = 0
  | _ => False
  end.
Proof. vm_compute. repeat split. eexists. reflexivity. Qed.

End CitiesFacts.

(** ** The cargo parser *)

Module ParsingFacts.
Import Parsing ParsingSpec.

Section Facts.

Variable UUID_init : value -> result UUID.
Variable validate_str : value -> result string.
Variable validate_number : value -> result number.

Local Abbreviation tariffs_loop := (Parsing.tariffs_loop UUID_init).
Local Abbreviation services_loop := (Parsing.services_loop UUID_init).
Local Abbreviation _parse_service_id := (Parsing._parse_service_id UUID_init).
Local Abbreviation _extract_data_from_resp_dict :=
  (Parsing._extract_data_from_resp_dict validate_str validate_number).
Local Abbreviation worker_step :=
  (Parsing.worker_step UUID_init validate_str validate_number).
Local Abbreviation event_loop :=
  (Parsing.event_loop UUID_init validate_str validate_number).
Local Abbreviation _run_cargo_parsing :=
  (Parsing._run_cargo_parsing UUID_init validate_str validate_number).
Local Abbreviation _retrieve_data :=
  (Parsing._retrieve_data UUID_init validate_str validate_number).
Local Abbreviation run := (ParsingSpec.run UUID_init validate_str validate_number).
Local Abbreviation resolution := (ParsingSpec.resolution UUID_init).
Local Abbreviation raises_on :=
  (ParsingSpec.raises_on UUID_init validate_str validate_number).

(** *** [_parse_service_id] *)

Lemma get_Ok (v : value) (k : string) (x : value) :
  Py.get v k = Ok x -> is_dict v /\ x = field v k.
Proof. destruct v; cbn; intros [= <-]; split; constructor. Qed.

Lemma get_field (v : value) (k : string) :
  is_dict v -> Py.get v k = Ok (field v k).
Proof. destruct v; cbn; intros H; try contradiction; reflexivity. Qed.

Lemma head_filter_app {A} (P : A -> Prop) `{!forall x, Decision (P x)}
      (l1 l2 : list A) :
  head (filter P (l1 ++ l2))
  = match head (filter P l1) with
    | Some x => Some x
    | None => head (filter P l2)
    end.
Proof.
  rewrite filter_app. destruct (filter P l1); reflexivity.
Qed.

(** The inner loop on a list of objects. *)
Lemma tariffs_loop_dicts (items : list value) (req : RequestForCargo.t) :
  Forall is_dict items ->
  tariffs_loop items req
  = match head (filter (fun t => tariff_matches req t = true) items) with
    | Some t => triple ← resolution t; mret (Some triple)
    | None => Ok None
    end.
Proof.
  induction 1 as [|item rest Hitem _ IH]; [reflexivity|].
  cbn [Parsing.tariffs_loop]. rewrite !get_field by assumption.
  cbn [mbind result_bind].
  destruct (decide (tariff_matches req item = true)) as [E|E].
  - rewrite filter_cons_True by assumption. unfold tariff_matches in E.
    rewrite E. cbn [head]. unfold ParsingSpec.resolution.
    destruct (UUID_init _); reflexivity.
  - rewrite filter_cons_False by assumption. unfold tariff_matches in E.
    apply not_true_is_false in E. rewrite E. apply IH.
Qed.

(** The inner loop on any list: it returns a tariff only if that is the
    first matching one, and runs to its end only if none matches. *)
Lemma tariffs_loop_sound (items : list value) (req : RequestForCargo.t)
      (found : option (UUID * value * value)) :
  tariffs_loop items req = Ok found ->
  match found with
  | Some triple =>
      exists t, head (filter (fun t => tariff_matches req t = true) items)
                = Some t /\ resolution t = Ok triple
  | None => filter (fun t => tariff_matches req t = true) items = []
  end.
Proof.
  revert found. induction items as [|item rest IH]; intros found.
  - intros [= <-]. reflexivity.
  - cbn [Parsing.tariffs_loop].
    destruct (Py.get item "mode") as [m|] eqn:Hm; [|discriminate].
    apply get_Ok in Hm as [Hd ->]. rewrite !get_field by assumption.
    cbn [mbind result_bind].
    destruct (decide (tariff_matches req item = true)) as [E|E].
    + rewrite filter_cons_True by assumption. unfold tariff_matches in E.
      rewrite E.
      destruct (UUID_init _) as [sid|] eqn:Hu; [|discriminate].
      cbn [mbind result_bind mret result_ret]. intros [= <-].
      exists item. split; [reflexivity|].
      unfold ParsingSpec.resolution. rewrite Hu. reflexivity.
    + rewrite filter_cons_False by assumption. unfold tariff_matches in E.
      apply not_true_is_false in E. rewrite E. apply IH.
Qed.

(** The outer loop on any list of groups. *)
Lemma services_loop_sound (groups : list value) (req : RequestForCargo.t)
      (triple : UUID * value * value) :
  services_loop groups req = Ok triple ->
  exists t, selected_tariff req groups = Some t /\ resolution t = Ok triple.
Proof.
  unfold selected_tariff, candidate_tariffs.
  induction groups as [|g rest IH]; [discriminate|].
  cbn [Parsing.services_loop].
  destruct (Py.get g "description") as [descr|] eqn:Hg; [|discriminate].
  apply get_Ok in Hg as [Hd ->]. cbn [mbind result_bind].
  destruct (decide (group_matches req g = true)) as [E|E].
  - rewrite filter_cons_True by assumption. unfold group_matches in E.
    rewrite E. cbn [negb]. rewrite get_field by assumption.
    cbn [mbind result_bind]. rewrite bind_cons, head_filter_app.
    unfold tariffs_of at 1.
    destruct (Py.iter (field g "tariffs")) as [items|]; [|discriminate].
    cbn [mbind result_bind].
    destruct (tariffs_loop items req) as [found|] eqn:Hloop; [|discriminate].
    apply tariffs_loop_sound in Hloop. destruct found as [triple'|].
    + intros [= <-]. destruct Hloop as (t & -> & Ht). eauto.
    + rewrite Hloop. cbn [head]. apply IH.
  - rewrite filter_cons_False by assumption. unfold group_matches in E.
    apply not_true_is_false in E. rewrite E. apply IH.
Qed.

(** The outer loop on a well-formed list of groups. *)
Lemma services_loop_well_formed (groups : list value)
      (req : RequestForCargo.t) :
  Forall well_formed_group groups ->
  services_loop groups req
  = match selected_tariff req groups with
    | Some t => resolution t
    | None => Raise (Exception "service_id not found")
    end.
Proof.
  unfold selected_tariff, candidate_tariffs.
  induction 1 as [|g rest (Hd & tariffs & Htariffs & Hdicts) _ IH];
    [reflexivity|].
  cbn [Parsing.services_loop]. rewrite !get_field by assumption.
  cbn [mbind result_bind].
  destruct (decide (group_matches req g = true)) as [E|E].
  - rewrite filter_cons_True by assumption. unfold group_matches in E.
    rewrite E. cbn [negb]. rewrite bind_cons, head_filter_app.
    unfold tariffs_of. rewrite Htariffs. cbn [Py.iter mbind result_bind].
    rewrite tariffs_loop_dicts by assumption.
    destruct (head (filter _ tariffs)) as [t|].
    + destruct (resolution t); reflexivity.
    + apply IH.
  - rewrite filter_cons_False by assumption. unfold group_matches in E.
    apply not_true_is_false in E. rewrite E. apply IH.
Qed.

(** No tariff is selected when no tariff of a matching group satisfies
    both conditions (in particular when no group matches). *)
Lemma selected_tariff_None (groups : list value) (req : RequestForCargo.t) :
  (forall g t, g ∈ groups -> group_matches req g = true ->
               t ∈ tariffs_of g -> tariff_matches req t = false) ->
  selected_tariff req groups = None.
Proof.
  intros Hnone. unfold selected_tariff.
  destruct (head _) as [t|] eqn:Hh; [|reflexivity]. exfalso.
  apply head_Some_elem_of in Hh.
  apply list_elem_of_filter in Hh as [Hm Hin].
  apply list_elem_of_bind in Hin as (g & Ht & Hg).
  apply list_elem_of_filter in Hg as [Hgm Hg].
  rewrite (Hnone g t Hg Hgm Ht) in Hm. discriminate.
Qed.

Lemma resolution_Ok (t : value) (sid : UUID) (dmin dmax : value) :
  resolution t = Ok (sid, dmin, dmax) ->
  UUID_init (field t "serviceId") = Ok sid /\
  dmin = field t "durationMin" /\ dmax = field t "durationMax".
Proof.
  unfold ParsingSpec.resolution. destruct (UUID_init _); [|discriminate].
  cbn. intros [= <- <- <-]. auto.
Qed.

Lemma parse_service_id_sound (data : value) (req : RequestForCargo.t)
      (triple : UUID * value * value) :
  _parse_service_id data req = Ok triple ->
  exists list_of_services groups t,
    Py.get data "data" = Ok list_of_services /\
    Py.truthy list_of_services = true /\
    Py.iter list_of_services = Ok groups /\
    selected_tariff req groups = Some t /\
    resolution t = Ok triple.
Proof.
  unfold Parsing._parse_service_id.
  destruct (Py.get data "data") as [los|] eqn:G; [|discriminate].
  cbn [mbind result_bind].
  destruct (Py.truthy los) eqn:T; [|discriminate]. cbn [negb].
  destruct (Py.iter los) as [groups|] eqn:I; [|discriminate].
  cbn [mbind result_bind]. intros H.
  apply services_loop_sound in H as (t & Hsel & Hres).
  exists los, groups, t. repeat split; assumption || reflexivity.
Qed.

(** C7: whenever [_parse_service_id] returns, its result is the service
    id (as a UUID) and the duration bounds of the first tariff, among
    those of the groups whose description is the request's
    [cargo_type_descr], whose mode is the request's mode and whose
    [shortDescription] is the request's [tariff_description]; it raises
    when the [data] list is missing or empty and when no tariff of a
    matching group satisfies both conditions (in particular when no group
    matches); and on a response of the documented shape it returns what
    the selected tariff gives. *)
Theorem C7_service_id_resolution (data : value)
        (cargo_request : RequestForCargo.t) :
  (forall sid dmin dmax,
      _parse_service_id data cargo_request = Ok (sid, dmin, dmax) ->
      exists list_of_services groups t,
        Py.get data "data" = Ok list_of_services /\
        Py.iter list_of_services = Ok groups /\
        selected_tariff cargo_request groups = Some t /\
        UUID_init (field t "serviceId") = Ok sid /\
        dmin = field t "durationMin" /\
        dmax = field t "durationMax") /\
  (Py.truthy (field data "data") = false ->
   is_Ok (_parse_service_id data cargo_request) = false) /\
  (forall list_of_services groups,
      Py.get data "data" = Ok list_of_services ->
      Py.iter list_of_services = Ok groups ->
      (forall g t, g ∈ groups -> group_matches cargo_request g = true ->
                   t ∈ tariffs_of g ->
                   tariff_matches cargo_request t = false) ->
      is_Ok (_parse_service_id data cargo_request) = false) /\
  (forall groups t,
      Py.get data "data" = Ok (VList groups) ->
      Forall well_formed_group groups ->
      selected_tariff cargo_request groups = Some t ->
      _parse_service_id data cargo_request
      = (service_id ← UUID_init (field t "serviceId");
         mret (service_id, field t "durationMin", field t "durationMax"))).
Proof.
  repeat split.
  - intros sid dmin dmax H.
    apply parse_service_id_sound in H as (los & groups & t & ? & _ & ? & ? & H).
    apply resolution_Ok in H as (? & ? & ?).
    exists los, groups, t. repeat split; assumption.
  - intros T. unfold Parsing._parse_service_id.
    destruct data; try reflexivity. cbn in T |- *. rewrite T. reflexivity.
  - intros los groups Hget Hiter Hnone.
    destruct (_parse_service_id data cargo_request) as [triple|] eqn:H;
      [|reflexivity].
    apply parse_service_id_sound in H
      as (los' & groups' & t & Hget' & _ & Hiter' & Hsel & _).
    rewrite Hget in Hget'. injection Hget' as <-.
    rewrite Hiter in Hiter'. injection Hiter' as <-.
    rewrite (selected_tariff_None _ _ Hnone) in Hsel. discriminate.
  - intros groups t Hget Hwf Hsel. unfold Parsing._parse_service_id.
    rewrite Hget. cbn [mbind result_bind Py.truthy Py.iter].
    destruct groups as [|g groups].
    + discriminate Hsel.
    + cbn [negb]. rewrite (services_loop_well_formed _ _ Hwf), Hsel.
      reflexivity.
Qed.

(** *** The event loop *)

Lemma busy_items_insert (ws : list worker) (i : nat) (w w' : worker) :
  ws !! i = Some w ->
  exists rest,
    busy_items ws ≡ₚ item_of w ++ rest /\
    busy_items (<[i := w']> ws) ≡ₚ item_of w' ++ rest.
Proof. apply bind_insert_perm. Qed.

Lemma remaining_insert (ws : list worker) (i : nat) (w w' : worker) :
  ws !! i = Some w ->
  exists n,
    sum_list_with remaining ws = (remaining w + n)%nat /\
    sum_list_with remaining (<[i := w']> ws) = (remaining w' + n)%nat.
Proof.
  intros Hw.
  exists (sum_list_with remaining (take i ws)
          + sum_list_with remaining (drop (S i) ws))%nat.
  assert (i < length ws)%nat as Hi by (eapply lookup_lt_Some; exact Hw).
  rewrite insert_take_drop by assumption.
  rewrite <- (take_drop_middle ws i w Hw) at 1.
  rewrite !sum_list_with_app. cbn [sum_list_with]. lia.
Qed.

Lemma get_Some {A} (q : Queue.t A) (x : A) (q' : Queue.t A) :
  Queue.get q = Some (x, q') ->
  Queue.items q = x :: Queue.items q' /\
  Queue.unfinished_tasks q' = Queue.unfinished_tasks q.
Proof.
  unfold Queue.get. destruct (Queue.items q); [discriminate|].
  intros [= <- <-]. split; reflexivity.
Qed.

(** The end of an iteration: worker [i] held the item of [w], the parser
    [p] records its outcome. *)
Lemma finish_inv (p0 : CargoParserWithToken) (batch : list ref) (i : nat)
      (w : worker) (rest : list ref) (p : CargoParserWithToken) (s : loop) :
  tasks s !! i = Some w ->
  Forall alive (tasks s) ->
  busy_items (tasks s) ≡ₚ item_of w ++ rest ->
  _thread_limit p = _thread_limit p0 ->
  Queue.unfinished_tasks (_queue p)
  = S (length (Queue.items (_queue p)) + length rest) ->
  (exists routes fails,
      _result_list p = _result_list p0 ++ routes /\
      _routes_fail_list p = _routes_fail_list p0 ++ fails /\
      _routes_success p = _routes_success p0 + Z.of_nat (length routes) /\
      _routes_fail p = _routes_fail p0 + Z.of_nat (length fails) /\
      batch ≡ₚ (request <$> routes) ++ fails
                ++ Queue.items (_queue p) ++ rest) ->
  inv p0 batch (finish i p s).
Proof.
  intros Hw Halive Hbusy Hlimit Hunf (routes & fails & H1 & H2 & H3 & H4 & H5).
  destruct (busy_items_insert _ _ _ Polling Hw) as (rest' & Hb & Hb').
  assert (rest' ≡ₚ rest) as Hrest.
  { rewrite Hbusy in Hb. eapply Permutation_app_inv_l.
    symmetry. exact Hb. }
  unfold finish, Queue.task_done. rewrite Hunf.
  split; cbn [self tasks set_queue _queue _thread_limit _result_list
              _routes_fail_list _routes_success _routes_fail
              Queue.items Queue.unfinished_tasks].
  - apply Forall_insert; [assumption|exact I].
  - rewrite Hb'. cbn [item_of app]. rewrite Hrest. reflexivity.
  - assumption.
  - exists routes, fails. repeat split; try assumption.
    rewrite Hb'. cbn [item_of app]. rewrite Hrest. exact H5.
Qed.

Lemma extract_request (cargo_data : value) (r : ref)
      (req : RequestForCargo.t) (route : Route) :
  _extract_data_from_resp_dict cargo_data r req = Ok route ->
  request route = r.
Proof.
  unfold Parsing._extract_data_from_resp_dict.
  repeat (match goal with
          | |- context [mbind _ ?m] =>
              destruct m; cbn [mbind result_bind]; [|discriminate]
          | |- context [if ?b then _ else _] => destruct b; [discriminate|]
          end).
  cbn. intros [= <-]. reflexivity.
Qed.

Lemma worker_step_inv (p0 : CargoParserWithToken) (batch : list ref)
      (i : nat) (resp : result value) (s : loop) :
  inv p0 batch s -> inv p0 batch (worker_step i resp s).
Proof.
  intros Hinv. pose proof Hinv as [Halive Hunf Hlimit Hout].
  destruct Hout as (routes & fails & H1 & H2 & H3 & H4 & H5).
  unfold Parsing.worker_step.
  destruct (tasks s !! i) as [[|r|r|e]|] eqn:Hw; try assumption.
  - (* polling *)
    destruct (Queue.qsize _ <=? 0); [assumption|].
    destruct (Queue.get _) as [[r q]|] eqn:Hget; [|assumption].
    apply get_Some in Hget as [Hitems Hq].
    destruct (busy_items_insert _ _ _ (AwaitingServiceId r) Hw)
      as (rest & Hb & Hb').
    cbn [item_of app] in Hb, Hb'.
    destruct (RequestForServiceId.of_cargo _).
    + split; cbn [self tasks set_queue _queue _thread_limit _result_list
                  _routes_fail_list _routes_success _routes_fail].
      * apply Forall_insert; [assumption|exact I].
      * rewrite Hq, Hunf, Hitems, Hb', Hb. cbn [length]. lia.
      * assumption.
      * exists routes, fails. repeat split; try assumption.
        rewrite H5, Hitems, Hb', Hb. solve_Permutation.
    + eapply (finish_inv p0 batch i Polling rest); try eassumption;
        cbn [on_exception set_queue _queue _thread_limit _result_list
             _routes_fail_list _routes_success _routes_fail].
      * rewrite Hq, Hunf, Hitems, Hb. cbn [length]. lia.
      * exists routes, (fails ++ [r]). repeat split; try assumption.
        -- rewrite H2, app_assoc. reflexivity.
        -- rewrite H4, length_app. cbn [length]. lia.
        -- rewrite H5, Hitems, Hb. solve_Permutation.
  - (* resumed with the tariffs *)
    destruct (busy_items_insert _ _ _ (AwaitingCargo r) Hw)
      as (rest & Hb & Hb').
    cbn [item_of] in Hb, Hb'.
    destruct (resp ≫= _) as [[[sid dmin] dmax]|].
    + split; cbn [self tasks]; try assumption.
      * apply Forall_insert; [assumption|exact I].
      * rewrite Hunf, Hb', Hb. reflexivity.
      * exists routes, fails. repeat split; try assumption.
        rewrite H5, Hb', Hb. reflexivity.
    + eapply (finish_inv p0 batch i _ rest); try eassumption;
        cbn [on_exception set_queue _queue _thread_limit _result_list
             _routes_fail_list _routes_success _routes_fail].
      * rewrite Hunf, Hb. cbn [item_of length app]. lia.
      * exists routes, (fails ++ [r]). repeat split; try assumption.
        -- rewrite H2, app_assoc. reflexivity.
        -- rewrite H4, length_app. cbn [length]. lia.
        -- rewrite H5, Hb. solve_Permutation.
  - (* resumed with the price *)
    destruct (busy_items_insert _ _ _ Polling Hw) as (rest & Hb & _).
    cbn [item_of] in Hb.
    destruct (resp ≫= _) as [route|] eqn:Hroute.
    + assert (request route = r) as Hreq.
      { destruct resp as [cargo_data|]; [|discriminate].
        eapply extract_request. exact Hroute. }
      eapply (finish_inv p0 batch i _ rest); try eassumption;
        cbn [on_success set_queue _queue _thread_limit _result_list
             _routes_fail_list _routes_success _routes_fail].
      * rewrite Hunf, Hb. cbn [item_of length app]. lia.
      * exists (routes ++ [route]), fails. repeat split; try assumption.
        -- rewrite H1, app_assoc. reflexivity.
        -- rewrite H3, length_app. cbn [length]. lia.
        -- rewrite H5, Hb, fmap_app. cbn [fmap list_fmap]. rewrite Hreq.
           solve_Permutation.
    + eapply (finish_inv p0 batch i _ rest); try eassumption;
        cbn [on_exception set_queue _queue _thread_limit _result_list
             _routes_fail_list _routes_success _routes_fail].
      * rewrite Hunf, Hb. cbn [item_of length app]. lia.
      * exists routes, (fails ++ [r]). repeat split; try assumption.
        -- rewrite H2, app_assoc. reflexivity.
        -- rewrite H4, length_app. cbn [length]. lia.
        -- rewrite H5, Hb. solve_Permutation.
Qed.

Lemma put_all_spec {A} (xs : list A) (q : Queue.t A) :
  Queue.put_all q xs
  = Queue.Mk (Queue.items q ++ xs)
             (Queue.unfinished_tasks q + length xs)%nat.
Proof.
  unfold Queue.put_all. revert q.
  induction xs as [|x xs IH]; intros q; cbn [fold_left].
  - destruct q. cbn. rewrite app_nil_r, Nat.add_0_r. reflexivity.
  - rewrite IH. unfold Queue.put_nowait. cbn [Queue.items Queue.unfinished_tasks].
    rewrite <- app_assoc. cbn [app length]. f_equal. lia.
Qed.

Lemma busy_items_polling {A} (l : list A) :
  busy_items (map (fun _ => Polling) l) = [].
Proof. induction l; [reflexivity|assumption]. Qed.

Lemma start_inv (batch : list ref) (p : CargoParserWithToken) (h : store) :
  inv p batch (start batch p h).
Proof.
  unfold start. split;
    cbn [self tasks set_queue _queue _thread_limit _result_list
         _routes_fail_list _routes_success _routes_fail];
    rewrite ?put_all_spec, ?busy_items_polling;
    cbn [Queue.items Queue.unfinished_tasks Queue.new app length].
  - apply Forall_forall. intros w Hw.
    apply list_elem_of_fmap in Hw as (idx & -> & _). exact I.
  - lia.
  - reflexivity.
  - exists [], []. rewrite !app_nil_r. cbn [length fmap list_fmap app].
    repeat split; try lia. reflexivity.
Qed.

(** Whatever every step preserves holds when [join] returns. *)
Lemma event_loop_invariant (P : loop -> Prop) :
  (forall i resp s, P s -> P (worker_step i resp s)) ->
  forall sched s s',
    P s -> event_loop sched s = Some s' ->
    P s' /\ Queue.joined (_queue (self s')) = true.
Proof.
  intros Hstep sched. induction sched as [|[i resp] sched IH]; intros s s' HP;
    cbn [Parsing.event_loop];
    destruct (Queue.joined (_queue (self s))) eqn:J.
  - intros [= <-]. auto.
  - discriminate.
  - intros [= <-]. auto.
  - intros H. eapply IH; [|exact H]. auto.
Qed.

Lemma run_invariant (P : loop -> Prop) :
  (forall i resp s, P s -> P (worker_step i resp s)) ->
  forall sched s, P s -> P (run sched s).
Proof.
  intros Hstep sched. unfold ParsingSpec.run.
  induction sched as [|[i resp] sched IH]; intros s HP; cbn [fold_left].
  - assumption.
  - apply IH. apply Hstep. assumption.
Qed.

Lemma joined_idle (p0 : CargoParserWithToken) (batch : list ref) (s : loop) :
  inv p0 batch s ->
  Queue.joined (_queue (self s)) = true ->
  Queue.items (_queue (self s)) = [] /\ busy_items (tasks s) = [].
Proof.
  intros [_ Hunf _ _]. unfold Queue.joined.
  destruct (Queue.unfinished_tasks _); [|discriminate]. intros _.
  destruct (Queue.items _); [|discriminate].
  destruct (busy_items _); [|discriminate]. auto.
Qed.

(** What a call of [_retrieve_data] returns, when it returns: the lists
    and counters of the parser extended by one outcome per item of the
    batch. *)
Lemma retrieve_data_returns (batch : list ref) (sched : schedule)
      (p : CargoParserWithToken) (h : store) out (s : loop) :
  _retrieve_data batch sched p h = Some (out, s) ->
  exists routes fails,
    out = Ok (_result_list p ++ routes,
              {| routes_total := Z.of_nat (length batch);
                 routes_success :=
                   _routes_success p + Z.of_nat (length routes);
                 routes_fail := _routes_fail p + Z.of_nat (length fails);
                 routes_fail_list := _routes_fail_list p ++ fails |}) /\
    batch ≡ₚ (request <$> routes) ++ fails /\
    _result_list (self s) = _result_list p ++ routes /\
    _routes_fail_list (self s) = _routes_fail_list p ++ fails /\
    _routes_success (self s) = _routes_success p + Z.of_nat (length routes) /\
    _routes_fail (self s) = _routes_fail p + Z.of_nat (length fails) /\
    _thread_limit (self s) = _thread_limit p.
Proof.
  unfold Parsing._retrieve_data, Parsing._run_cargo_parsing.
  destruct (event_loop sched _) as [s'|] eqn:Hloop; [|discriminate].
  intros [= <- <-].
  destruct (event_loop_invariant (inv p batch)
              (worker_step_inv p batch) _ _ _ (start_inv batch p h) Hloop)
    as [Hinv J].
  destruct (joined_idle _ _ _ Hinv J) as [Hitems Hbusy].
  destruct Hinv as [_ _ Hlimit (routes & fails & H1 & H2 & H3 & H4 & H5)].
  exists routes, fails.
  rewrite Hitems, Hbusy, !app_nil_r in H5.
  unfold RequestsReport_init, report_kwargs.
  cbn. rewrite H1, H2, H3, H4. repeat split; assumption.
Qed.

(** *** Progress *)

Lemma worker_step_stutter (i : nat) (resp : result value) (s : loop) :
  enabled i s = false -> worker_step i resp s = s.
Proof.
  unfold enabled, Parsing.worker_step.
  destruct (tasks s !! i) as [[|r|r|e]|]; try discriminate; try reflexivity.
  destruct (Queue.qsize _ <=? 0); [reflexivity|discriminate].
Qed.

Lemma finish_pending (i : nat) (w : worker) (p : CargoParserWithToken)
      (s : loop) :
  tasks s !! i = Some w ->
  (pending (finish i p s) + remaining w
   = 3 * length (Queue.items (_queue p))
     + sum_list_with remaining (tasks s))%nat.
Proof.
  intros Hw. unfold pending, finish, Queue.task_done.
  destruct (Queue.unfinished_tasks (_queue p)) as [|m];
    cbn [self tasks set_queue _queue Queue.items];
    [ destruct (remaining_insert _ _ _ (Crashed ValueError) Hw) as (n & -> & ->)
    | destruct (remaining_insert _ _ _ Polling Hw) as (n & -> & ->) ];
    cbn [remaining]; lia.
Qed.

(** A resumption that does something brings the end of the batch
    nearer. *)
Lemma worker_step_pending (i : nat) (resp : result value) (s : loop) :
  enabled i s = true ->
  (pending (worker_step i resp s) < pending s)%nat.
Proof.
  unfold enabled, Parsing.worker_step.
  destruct (tasks s !! i) as [[|r|r|e]|] eqn:Hw; try discriminate.
  - destruct (Queue.qsize _ <=? 0) eqn:Hsize; [discriminate|]. intros _.
    destruct (Queue.get _) as [[r q]|] eqn:Hget.
    + apply get_Some in Hget as [Hitems _].
      destruct (RequestForServiceId.of_cargo _).
      * unfold pending at 1. cbn [self tasks set_queue _queue].
        destruct (remaining_insert _ _ _ (AwaitingServiceId r) Hw)
          as (n & Hn & ->).
        unfold pending. rewrite Hitems, Hn. cbn [remaining length]. lia.
      * pose proof (finish_pending i _ (on_exception r
                      (set_queue q (self s))) s Hw) as H.
        cbn [on_exception set_queue _queue remaining] in H.
        unfold pending at 2. rewrite Hitems. cbn [length]. lia.
    + unfold Queue.get in Hget. unfold Queue.qsize in Hsize.
      destruct (Queue.items _); [discriminate Hsize|discriminate Hget].
  - intros _. destruct (resp ≫= _) as [[[sid dmin] dmax]|].
    + unfold pending. cbn [self tasks].
      destruct (remaining_insert _ _ _ (AwaitingCargo r) Hw)
        as (n & -> & ->).
      cbn [remaining]. lia.
    + pose proof (finish_pending i _ (on_exception r (self s)) s Hw) as H.
      cbn [on_exception _queue remaining] in H. unfold pending at 2. lia.
  - intros _. destruct (resp ≫= _) as [route|].
    + pose proof (finish_pending i _ (on_success route (self s)) s Hw) as H.
      cbn [on_success _queue remaining] in H. unfold pending at 2. lia.
    + pose proof (finish_pending i _ (on_exception r (self s)) s Hw) as H.
      cbn [on_exception _queue remaining] in H. unfold pending at 2. lia.
Qed.

Lemma busy_items_nil (ws : list worker) :
  sum_list_with remaining ws = 0%nat -> busy_items ws = [].
Proof.
  induction ws as [|w ws IH]; [reflexivity|].
  cbn [sum_list_with]. unfold busy_items. rewrite bind_cons.
  destruct w; cbn [remaining item_of]; intros H; try lia;
    apply IH; lia.
Qed.

Lemma pending_zero_joined (p0 : CargoParserWithToken) (batch : list ref)
      (s : loop) :
  inv p0 batch s -> pending s = 0%nat ->
  Queue.joined (_queue (self s)) = true.
Proof.
  intros [_ Hunf _ _]. unfold pending. intros H.
  unfold Queue.joined. rewrite Hunf, busy_items_nil by lia.
  destruct (Queue.items _); [reflexivity|cbn [length] in H; lia].
Qed.

Lemma busy_worker (ws : list worker) :
  busy_items ws <> [] ->
  exists i r, ws !! i = Some (AwaitingServiceId r)
              \/ ws !! i = Some (AwaitingCargo r).
Proof.
  induction ws as [|w ws IH]; [intros H; contradiction H; reflexivity|].
  unfold busy_items. rewrite bind_cons.
  destruct w as [|r|r|e]; cbn [item_of app].
  - intros H. destruct (IH H) as (i & r & Hi). exists (S i), r. exact Hi.
  - intros _. exists 0%nat, r. left. reflexivity.
  - intros _. exists 0%nat, r. right. reflexivity.
  - intros H. destruct (IH H) as (i & r & Hi). exists (S i), r. exact Hi.
Qed.

(** Before the join, with at least one worker, some worker can go on. *)
Lemma exists_enabled (p0 : CargoParserWithToken) (batch : list ref)
      (s : loop) :
  inv p0 batch s ->
  tasks s <> [] ->
  Queue.joined (_queue (self s)) = false ->
  exists i, enabled i s = true.
Proof.
  intros [Halive Hunf _ _] Hne J. unfold enabled.
  destruct (busy_items (tasks s)) as [|r busy] eqn:Hbusy.
  - destruct (tasks s) as [|w ws] eqn:Hws; [contradiction Hne; reflexivity|].
    exists 0%nat. cbn [lookup list_lookup].
    apply Forall_cons in Halive as [Hw _].
    unfold busy_items in Hbusy. rewrite bind_cons in Hbusy.
    apply app_eq_nil in Hbusy as [Hitem _].
    destruct w; try discriminate Hitem; try contradiction Hw.
    unfold Queue.joined in J. rewrite Hunf in J. unfold Queue.qsize.
    destruct (Queue.items _); [discriminate J|reflexivity].
  - destruct (busy_worker (tasks s)) as (i & r' & [Hi|Hi]).
    { rewrite Hbusy. discriminate. }
    + exists i. rewrite Hi. reflexivity.
    + exists i. rewrite Hi. reflexivity.
Qed.

Lemma worker_step_tasks_length (i : nat) (resp : result value) (s : loop) :
  length (tasks (worker_step i resp s)) = length (tasks s).
Proof.
  unfold Parsing.worker_step, finish.
  repeat match goal with
         | |- context [match ?x with _ => _ end] => destruct x
         end;
    cbn [tasks]; rewrite ?length_insert; reflexivity.
Qed.

(** With at least one worker, whatever the site answers to the
    successive calls, some order of resumption reaches the join. *)
Lemma some_schedule_returns (p0 : CargoParserWithToken) (batch : list ref)
      (n : nat) :
  forall (s : loop) (net : nat -> result value),
    inv p0 batch s ->
    tasks s <> [] ->
    (pending s <= n)%nat ->
    exists sched : schedule,
      (forall k step, sched !! k = Some step -> step.2 = net k) /\
      is_Some (event_loop sched s).
Proof.
  induction n as [|n IH]; intros s net Hinv Hne Hle.
  - exists []. split; [intros k step H; discriminate H|].
    cbn [Parsing.event_loop].
    rewrite (pending_zero_joined p0 batch s Hinv) by lia.
    eexists. reflexivity.
  - destruct (Queue.joined (_queue (self s))) eqn:J.
    + exists []. split; [intros k step H; discriminate H|].
      cbn [Parsing.event_loop]. rewrite J. eexists. reflexivity.
    + destruct (exists_enabled p0 batch s Hinv Hne J) as [i Hi].
      destruct (IH (worker_step i (net 0%nat) s) (fun k => net (S k)))
        as (sched & Hnet & Hret).
      * apply worker_step_inv. assumption.
      * intros H. apply Hne. apply length_zero_iff_nil.
        rewrite <- (worker_step_tasks_length i (net 0%nat) s), H.
        reflexivity.
      * pose proof (worker_step_pending i (net 0%nat) s Hi). lia.
      * exists ((i, net 0%nat) :: sched). split.
        -- intros [|k] step H; [injection H as <-; reflexivity|].
           apply Hnet. exact H.
        -- cbn [Parsing.event_loop]. rewrite J. exact Hret.
Qed.

(** *** The report and the instance state *)

Lemma outcomes_length (batch : list ref) (routes : list Route)
      (fails : list ref) :
  batch ≡ₚ (request <$> routes) ++ fails ->
  Z.of_nat (length batch)
  = Z.of_nat (length routes) + Z.of_nat (length fails).
Proof.
  intros H. apply Permutation_length in H.
  rewrite length_app, length_fmap in H. lia.
Qed.

(** C1, as amended: when [retrieve_data] returns, [routes_total] of the
    report is the number of submitted requests, and [routes_success +
    routes_fail] is that number plus what the instance had counted
    before the call; so the two agree on an instance that had counted
    nothing before, as a freshly constructed one. *)
Theorem C1_report_counts (cargo_requests : list ref) (sched : schedule)
        (p : CargoParserWithToken) (h : store) out (s : loop) :
  _retrieve_data cargo_requests sched p h = Some (out, s) ->
  exists result_list report,
    out = Ok (result_list, report) /\
    routes_total report = Z.of_nat (length cargo_requests) /\
    routes_success report + routes_fail report
    = _routes_success p + _routes_fail p
      + Z.of_nat (length cargo_requests) /\
    (_routes_success p + _routes_fail p = 0 ->
     routes_total report = routes_success report + routes_fail report).
Proof.
  intros H.
  apply retrieve_data_returns in H as (routes & fails & -> & Hperm & _).
  apply outcomes_length in Hperm.
  eexists _, _. split; [reflexivity|].
  cbn [routes_total routes_success routes_fail]. repeat split; lia.
Qed.

(** C10: the lists and counters of a [CargoParserWithToken] are carried
    from one call of [retrieve_data] to the next: the result list of the
    second call starts with that of the first, its fail list starts with
    that of the first, its success and fail counts are those of the first
    report plus the outcomes of the second batch, and its [routes_total]
    is the length of the second batch alone. *)
Theorem C10_state_is_never_reset
        (batch1 batch2 : list ref) (sched1 sched2 : schedule)
        (p : CargoParserWithToken) (h : store)
        (result1 result2 : list Route) (report1 report2 : RequestsReport)
        (s1 s2 : loop) :
  _retrieve_data batch1 sched1 p h = Some (Ok (result1, report1), s1) ->
  _retrieve_data batch2 sched2 (self s1) (heap s1)
  = Some (Ok (result2, report2), s2) ->
  exists routes2 fails2,
    result2 = result1 ++ routes2 /\
    routes_fail_list report2 = routes_fail_list report1 ++ fails2 /\
    routes_success report2
    = routes_success report1 + Z.of_nat (length routes2) /\
    routes_fail report2 = routes_fail report1 + Z.of_nat (length fails2) /\
    batch2 ≡ₚ (request <$> routes2) ++ fails2 /\
    routes_total report2 = Z.of_nat (length batch2).
Proof.
  intros H1 H2.
  apply retrieve_data_returns in H1
    as (routes1 & fails1 & [= -> ->] & _ & Hr & Hf & Hs & Hc & _).
  apply retrieve_data_returns in H2
    as (routes2 & fails2 & [= -> ->] & Hperm & _).
  exists routes2, fails2.
  cbn [routes_total routes_success routes_fail routes_fail_list].
  rewrite Hr, Hf, Hs, Hc. repeat split; try reflexivity. exact Hperm.
Qed.

(** C8, as amended: the number of workers created is [min(thread_limit,
    number of items)], or zero when [thread_limit] is negative; three
    items under a limit of ten get three workers; a batch of zero items
    creates no worker and returns at once, the city parser with an empty
    result and a report whose counts are zero, the cargo parser with the
    result list and the counts its instance already had, which are an
    empty result and zero counts on a freshly constructed instance. *)
Theorem C8_worker_count :
  (forall (cargo_requests : list ref) (p : CargoParserWithToken) (h : store),
      Z.of_nat (length (tasks (start cargo_requests p h)))
      = Z.max 0 (Z.min (_thread_limit p)
                       (Z.of_nat (length cargo_requests)))) /\
  (forall (cities : list string) (p : Cities.CityParser),
      Z.of_nat (length (Cities.tasks (Cities.start cities p)))
      = Z.max 0 (Z.min (Cities._thread_limit p)
                       (Z.of_nat (length cities)))) /\
  (forall (a b c : ref) (h : store),
      length (tasks (start [a; b; c] (__init__ 10) h)) = 3%nat) /\
  (forall (a b c : string) (cache : gmap string value),
      length (Cities.tasks (Cities.start [a; b; c] (Cities.__init__ cache 10)))
      = 3%nat) /\
  (forall (sched : schedule) (p : CargoParserWithToken) (h : store),
      tasks (start [] p h) = [] /\
      exists s,
        _retrieve_data [] sched p h
        = Some (Ok (_result_list p,
                    {| routes_total := 0;
                       routes_success := _routes_success p;
                       routes_fail := _routes_fail p;
                       routes_fail_list := _routes_fail_list p |}), s)) /\
  (forall (sched : schedule) (thread_limit : Z) (h : store),
      exists s,
        _retrieve_data [] sched (__init__ thread_limit) h
        = Some (Ok ([], {| routes_total := 0; routes_success := 0;
                           routes_fail := 0; routes_fail_list := [] |}),
                s)) /\
  (forall (sched : Cities.schedule) (p : Cities.CityParser),
      Cities.tasks (Cities.start [] (Cities.reset_results p)) = [] /\
      exists s,
        Cities._get_cities_info [] sched p
        = Some (Ok (∅, {| Cities.cities_total := 0;
                          Cities.cities_success := 0;
                          Cities.cities_fail := 0;
                          Cities.routes_fail_list :=
                            Cities._cities_fail_list p |}), s)).
Proof.
  assert (forall limit : Z, range (Z.min (Z.of_nat 0) limit) = []) as Hnone.
  { intros limit. unfold range.
    replace (Z.to_nat (Z.min (Z.of_nat 0) limit)) with 0%nat by lia.
    reflexivity. }
  split; [|split; [|split; [|split; [|split; [|split]]]]].
  - intros batch p h. cbn [start tasks]. unfold range.
    rewrite length_map, length_seq. lia.
  - intros cities p. cbn [Cities.start Cities.tasks]. unfold range.
    rewrite length_map, length_seq. lia.
  - reflexivity.
  - reflexivity.
  - intros sched p h. split.
    + cbn [start tasks length]. rewrite Hnone. reflexivity.
    + destruct sched as [|[i resp] sched]; eexists; reflexivity.
  - intros sched limit h.
    destruct sched as [|[i resp] sched]; eexists; reflexivity.
  - intros sched p. split.
    + cbn [Cities.start Cities.tasks length]. rewrite Hnone. reflexivity.
    + destruct sched as [|[i resp] sched]; eexists; reflexivity.
Qed.

(** *** Failure isolation *)

Lemma finish_Ok (i : nat) (p : CargoParserWithToken) (s : loop) (n : nat) :
  Queue.unfinished_tasks (_queue p) = S n ->
  finish i p s
  = {| self := set_queue (Queue.Mk (Queue.items (_queue p)) n) p;
       heap := heap s;
       tasks := <[i := Polling]> (tasks s);
       calls := calls s |}.
Proof. intros H. unfold finish, Queue.task_done. rewrite H. reflexivity. Qed.

Lemma idle_workers (ws : list worker) :
  Forall alive ws -> busy_items ws = [] -> Forall (fun w => w = Polling) ws.
Proof.
  induction 1 as [|w ws Hw _ IH]; [constructor|].
  unfold busy_items. rewrite bind_cons. intros H.
  apply app_eq_nil in H as [Hitem Hrest].
  constructor; [|apply IH; exact Hrest].
  destruct w; try discriminate Hitem; [reflexivity|contradiction Hw].
Qed.

(** The [except] block, on a state of a run. *)
Lemma raises_on_effect (p0 : CargoParserWithToken) (batch : list ref)
      (s : loop) (i : nat) (resp : result value) (r : ref) :
  inv p0 batch s ->
  raises_on s i resp r ->
  _routes_fail (self (worker_step i resp s)) = _routes_fail (self s) + 1 /\
  _routes_fail_list (self (worker_step i resp s))
  = _routes_fail_list (self s) ++ [r] /\
  _routes_success (self (worker_step i resp s)) = _routes_success (self s) /\
  _result_list (self (worker_step i resp s)) = _result_list (self s) /\
  heap (worker_step i resp s) = heap s /\
  calls (worker_step i resp s) = calls s /\
  tasks (worker_step i resp s) = <[i := Polling]> (tasks s) /\
  Queue.items (_queue (self (worker_step i resp s)))
    ++ busy_items (tasks (worker_step i resp s)) ++ [r]
  ≡ₚ Queue.items (_queue (self s)) ++ busy_items (tasks s).
Proof.
  intros [_ Hunf _ _] [(Hw & Hhead & Hraise)|[(Hw & Hraise)|(Hw & Hraise)]];
    unfold Parsing.worker_step; rewrite Hw.
  - destruct (Queue.items (_queue (self s))) as [|r' items] eqn:Hitems;
      [discriminate Hhead|]. injection Hhead as ->.
    unfold Queue.qsize, Queue.get. rewrite Hitems.
    change (Z.of_nat (length (r :: items)) <=? 0) with false. cbv beta iota.
    destruct (RequestForServiceId.of_cargo (heap s r)); [discriminate Hraise|].
    rewrite (finish_Ok _ _ _ (length items + length (busy_items (tasks s))))
      by (cbn [on_exception set_queue _queue Queue.unfinished_tasks];
          rewrite Hunf; reflexivity).
    cbn [self heap tasks calls set_queue on_exception _routes_fail
         _routes_fail_list _routes_success _result_list _queue Queue.items].
    rewrite (list_insert_id _ _ _ Hw).
    repeat split; try reflexivity. solve_Permutation.
  - destruct (resp ≫= _) as [triple|]; [discriminate Hraise|].
    destruct (busy_items_insert _ _ _ Polling Hw) as (rest & Hb & Hb').
    cbn [item_of app] in Hb, Hb'.
    rewrite (finish_Ok _ _ _
               (length (Queue.items (_queue (self s))) + length rest))
      by (cbn [on_exception _queue]; rewrite Hunf, Hb; cbn [length]; lia).
    cbn [self heap tasks calls set_queue on_exception _routes_fail
         _routes_fail_list _routes_success _result_list _queue Queue.items].
    repeat split; try reflexivity. rewrite Hb, Hb'. solve_Permutation.
  - destruct (resp ≫= _) as [route|]; [discriminate Hraise|].
    destruct (busy_items_insert _ _ _ Polling Hw) as (rest & Hb & Hb').
    cbn [item_of app] in Hb, Hb'.
    rewrite (finish_Ok _ _ _
               (length (Queue.items (_queue (self s))) + length rest))
      by (cbn [on_exception _queue]; rewrite Hunf, Hb; cbn [length]; lia).
    cbn [self heap tasks calls set_queue on_exception _routes_fail
         _routes_fail_list _routes_success _result_list _queue Queue.items].
    repeat split; try reflexivity. rewrite Hb, Hb'. solve_Permutation.
Qed.

Lemma joined_stutter (p0 : CargoParserWithToken) (batch : list ref)
      (i : nat) (resp : result value) (s : loop) :
  inv p0 batch s ->
  Queue.joined (_queue (self s)) = true ->
  worker_step i resp s = s.
Proof.
  intros Hinv J. apply worker_step_stutter.
  destruct (joined_idle _ _ _ Hinv J) as [Hitems Hbusy].
  pose proof (idle_workers _ (inv_alive _ _ _ Hinv) Hbusy) as Hidle.
  unfold enabled. destruct (tasks s !! i) as [w|] eqn:Hw; [|reflexivity].
  rewrite (proj1 (Forall_lookup _ _) Hidle i w Hw).
  unfold Queue.qsize. rewrite Hitems. reflexivity.
Qed.

Lemma run_joined (p0 : CargoParserWithToken) (batch : list ref)
      (sched : schedule) (s : loop) :
  inv p0 batch s ->
  Queue.joined (_queue (self s)) = true ->
  run sched s = s.
Proof.
  intros Hinv J. unfold ParsingSpec.run.
  induction sched as [|[i resp] sched IH]; [reflexivity|].
  cbn [fold_left fst snd].
  rewrite (joined_stutter p0 batch i resp s Hinv J). exact IH.
Qed.

(** The join returns the state in which the run ends, if that state is
    joined. *)
Lemma event_loop_run (p0 : CargoParserWithToken) (batch : list ref)
      (sched : schedule) (s : loop) :
  inv p0 batch s ->
  Queue.joined (_queue (self (run sched s))) = true ->
  event_loop sched s = Some (run sched s).
Proof.
  revert s.
  induction sched as [|[i resp] sched IH]; intros s Hinv J.
  - cbn [Parsing.event_loop]. cbn in J. rewrite J. reflexivity.
  - cbn [Parsing.event_loop].
    destruct (Queue.joined (_queue (self s))) eqn:Js.
    + rewrite (run_joined p0 batch _ s Hinv Js). reflexivity.
    + apply IH; [apply worker_step_inv; assumption|exact J].
Qed.

Lemma run_tasks_length (sched : schedule) (s : loop) :
  length (tasks (run sched s)) = length (tasks s).
Proof.
  apply (run_invariant (fun s' => length (tasks s') = length (tasks s))).
  - intros i resp s' H. rewrite worker_step_tasks_length. exact H.
  - reflexivity.
Qed.

Lemma start_tasks (r : ref) (batch : list ref) (p : CargoParserWithToken)
      (h : store) :
  1 <= _thread_limit p -> tasks (start (r :: batch) p h) <> [].
Proof.
  intros Hlimit. cbn [start tasks]. unfold range.
  destruct (Z.to_nat _) eqn:E; [|discriminate].
  cbn [length] in E. lia.
Qed.

(** C6: in any state of a run, a step of a worker in which the
    processing of an item raises (when the service-id request is built,
    in the service-id call or the parsing of its answer, in the price
    call or the extraction of its answer) adds one to the fail counter,
    appends the reference of that very request object to the fail list,
    sends the worker back to polling and leaves the results, the success
    counter, the other workers and the other items as they were; with a
    thread limit of one or more, every run that goes on until no worker
    can do anything more has reached the join, with every worker idle
    and each item of the batch either in a new route or in the fail list;
    and such a run exists whatever the remote site answers. *)
Theorem C6_failure_isolation (cargo_requests : list ref)
        (p : CargoParserWithToken) (h : store) :
  (forall (sched : schedule) (i : nat) (resp : result value) (r : ref),
      raises_on (run sched (start cargo_requests p h)) i resp r ->
      let s := run sched (start cargo_requests p h) in
      let s' := worker_step i resp s in
      _routes_fail (self s') = _routes_fail (self s) + 1 /\
      _routes_fail_list (self s') = _routes_fail_list (self s) ++ [r] /\
      _routes_success (self s') = _routes_success (self s) /\
      _result_list (self s') = _result_list (self s) /\
      heap s' = heap s /\
      calls s' = calls s /\
      tasks s' = <[i := Polling]> (tasks s) /\
      Queue.items (_queue (self s')) ++ busy_items (tasks s') ++ [r]
      ≡ₚ Queue.items (_queue (self s)) ++ busy_items (tasks s)) /\
  (1 <= _thread_limit p ->
   forall sched : schedule,
     (forall i, enabled i (run sched (start cargo_requests p h)) = false) ->
     exists s routes fails,
       _run_cargo_parsing cargo_requests sched p h = Some s /\
       Forall (fun w => w = Polling) (tasks s) /\
       _result_list (self s) = _result_list p ++ routes /\
       _routes_fail_list (self s) = _routes_fail_list p ++ fails /\
       _routes_fail (self s) = _routes_fail p + Z.of_nat (length fails) /\
       cargo_requests ≡ₚ (request <$> routes) ++ fails) /\
  (1 <= _thread_limit p ->
   forall net : nat -> result value,
   exists sched : schedule,
     (forall k step, sched !! k = Some step -> step.2 = net k) /\
     is_Some (_run_cargo_parsing cargo_requests sched p h)).
Proof.
  split; [|split].
  - intros sched i resp r Hraise. cbv zeta.
    eapply raises_on_effect; [|exact Hraise].
    apply (run_invariant (inv p cargo_requests)).
    + apply worker_step_inv.
    + apply start_inv.
  - intros Hlimit sched Hquiet. unfold Parsing._run_cargo_parsing.
    pose proof (start_inv cargo_requests p h) as Hstart.
    pose proof (run_invariant (inv p cargo_requests)
                  (worker_step_inv p cargo_requests) sched _ Hstart) as Hinv.
    assert (Queue.joined
              (_queue (self (run sched (start cargo_requests p h)))) = true)
      as J.
    { destruct (Queue.joined _) eqn:J; [reflexivity|]. exfalso.
      destruct cargo_requests as [|r batch].
      - rewrite (run_joined p [] sched _ Hstart) in J by reflexivity.
        discriminate J.
      - destruct (exists_enabled p (r :: batch) _ Hinv) as [i Hi].
        + intros H. apply (start_tasks r batch p h Hlimit).
          apply length_zero_iff_nil. rewrite <- (run_tasks_length sched), H.
          reflexivity.
        + exact J.
        + rewrite Hquiet in Hi. discriminate Hi. }
    destruct (joined_idle _ _ _ Hinv J) as [Hitems Hbusy].
    exists (run sched (start cargo_requests p h)).
    destruct Hinv as [Halive _ _ (routes & fails & H1 & H2 & _ & H4 & H5)].
    rewrite Hitems, Hbusy, !app_nil_r in H5.
    exists routes, fails. repeat split; try assumption.
    + apply (event_loop_run p cargo_requests); assumption.
    + apply idle_workers; assumption.
  - intros Hlimit net. unfold Parsing._run_cargo_parsing.
    destruct cargo_requests as [|r batch].
    + exists []. split; [intros k step H; discriminate H|].
      eexists. reflexivity.
    + eapply (some_schedule_returns p (r :: batch));
        [apply start_inv|apply start_tasks; assumption|reflexivity].
Qed.

(** *** The price call *)

Lemma service_id_dumped (req : RequestForCargo.t) (sid : UUID)
      (dmin dmax : value) :
  Py.get (RequestForCargo.model_dump (RequestForCargo.assign req sid dmin dmax))
         "serviceId"
  = Ok (VStr (UUID_str sid)).
Proof. reflexivity. Qed.

Lemma insert_awaiting (ws : list worker) (i i' : nat) (w : worker) (r : ref) :
  <[i := w]> ws !! i' = Some (AwaitingServiceId r) ->
  w = AwaitingServiceId r \/ ws !! i' = Some (AwaitingServiceId r).
Proof.
  intros H. apply list_lookup_insert_Some in H as [(_ & <- & _)|[_ H]]; auto.
Qed.

Lemma finish_log_inv (i : nat) (p : CargoParserWithToken) (s : loop) :
  log_inv s -> log_inv (finish i p s).
Proof.
  intros [Hlog Hwait]. unfold finish.
  destruct (Queue.task_done _); split; cbn [calls tasks]; try assumption;
    intros i' r H; apply insert_awaiting in H as [H|H];
    try discriminate H; apply (Hwait i' r H).
Qed.

Lemma worker_step_log_inv (i : nat) (resp : result value) (s : loop) :
  log_inv s -> log_inv (worker_step i resp s).
Proof.
  intros Hinv. pose proof Hinv as [Hlog Hwait].
  unfold Parsing.worker_step.
  destruct (tasks s !! i) as [[|r|r|e]|] eqn:Hw; try assumption.
  - destruct (Queue.qsize _ <=? 0); [assumption|].
    destruct (Queue.get _) as [[r q]|]; [|assumption].
    destruct (RequestForServiceId.of_cargo _) as [sreq|];
      [|apply finish_log_inv; assumption].
    split; cbn [calls tasks].
    + intros k r' body Hk.
      apply lookup_app_Some in Hk as [Hk|[_ Hk]].
      * destruct (Hlog k r' body Hk) as [Hsid (j & b & Hj & Hb)].
        split; [assumption|]. exists j, b. split; [assumption|].
        apply lookup_app_l_Some. assumption.
      * apply list_lookup_singleton_Some in Hk as [_ Hk]. discriminate Hk.
    + intros i' r' H. apply insert_awaiting in H as [[= <-]|H].
      * exists (length (calls s)), (RequestForServiceId.model_dump sreq).
        rewrite lookup_app_r, Nat.sub_diag by lia. reflexivity.
      * destruct (Hwait i' r' H) as (j & b & Hb). exists j, b.
        apply lookup_app_l_Some. assumption.
  - destruct (resp ≫= _) as [[[sid dmin] dmax]|];
      [|apply finish_log_inv; assumption].
    split; cbn [calls tasks].
    + intros k r' body Hk.
      apply lookup_app_Some in Hk as [Hk|[Hlen Hk]].
      * destruct (Hlog k r' body Hk) as [Hsid (j & b & Hj & Hb)].
        split; [assumption|]. exists j, b. split; [assumption|].
        apply lookup_app_l_Some. assumption.
      * apply list_lookup_singleton_Some in Hk as [Hk [= <- <-]].
        split.
        -- exists sid. apply service_id_dumped.
        -- destruct (Hwait i r Hw) as (j & b & Hb). exists j, b. split.
           ++ apply lookup_lt_Some in Hb. lia.
           ++ apply lookup_app_l_Some. assumption.
    + intros i' r' H. apply insert_awaiting in H as [H|H];
        [discriminate H|].
      destruct (Hwait i' r' H) as (j & b & Hb). exists j, b.
      apply lookup_app_l_Some. assumption.
  - destruct (resp ≫= _); apply finish_log_inv; assumption.
Qed.

Lemma start_log_inv (batch : list ref) (p : CargoParserWithToken) (h : store) :
  log_inv (start batch p h).
Proof.
  split; cbn [start calls tasks].
  - intros k r body H. rewrite lookup_nil in H. discriminate H.
  - intros i r H. apply list_lookup_fmap_Some in H as (idx & H & _).
    discriminate H.
Qed.

(** C5: a step of a worker sends a price call for an item only when it
    has just parsed the answer of the service-id call of that item
    successfully, and the body it sends is the dump of the request after
    the assignment of the resolved id, whose [serviceId] is the string of
    that UUID (not [None]); and in the log of any run every price call
    carries such a [serviceId] and comes after a service-id call for the
    same item. *)
Theorem C5_service_id_precedes_price_call :
  (forall (s : loop) (i : nat) (resp : result value) (r : ref) (body : value),
      calls (worker_step i resp s) = calls s ++ [PostCargo r body] ->
      exists data sid dmin dmax,
        tasks s !! i = Some (AwaitingServiceId r) /\
        resp = Ok data /\
        _parse_service_id data (heap s r) = Ok (sid, dmin, dmax) /\
        RequestForCargo.service_id (heap (worker_step i resp s) r)
        = Some sid /\
        body = RequestForCargo.model_dump (heap (worker_step i resp s) r) /\
        Py.get body "serviceId" = Ok (VStr (UUID_str sid))) /\
  (forall (cargo_requests : list ref) (p : CargoParserWithToken) (h : store)
          (sched : schedule),
      price_calls_follow_resolution
        (calls (run sched (start cargo_requests p h)))).
Proof.
  split.
  - intros s i resp r body. unfold Parsing.worker_step, finish.
    assert (forall x : call, calls s = calls s ++ [x] -> False) as Hsame.
    { intros x H. apply (f_equal length) in H. rewrite length_app in H.
      cbn [length] in H. lia. }
    destruct (tasks s !! i) as [[|r'|r'|e]|] eqn:Hw;
      try (intros H; destruct (Hsame _ H)).
    + destruct (Queue.qsize _ <=? 0);
        try (intros H; destruct (Hsame _ H)).
      destruct (Queue.get _) as [[r' q]|];
        try (intros H; destruct (Hsame _ H)).
      destruct (RequestForServiceId.of_cargo _).
      * cbn [calls]. intros H. apply app_inv_head in H. discriminate H.
      * destruct (Queue.task_done _); cbn [calls];
          intros H; destruct (Hsame _ H).
    + destruct resp as [data|e]; cbn [mbind result_bind].
      * destruct (_parse_service_id data (heap s r'))
          as [[[sid dmin] dmax]|] eqn:Hparse.
        -- cbn [calls heap]. intros H. apply app_inv_head in H.
           injection H as <- <-.
           exists data, sid, dmin, dmax.
           change (<[r' := RequestForCargo.assign (heap s r') sid dmin dmax]>
                     (heap s) r')
             with (if decide (r' = r')
                   then RequestForCargo.assign (heap s r') sid dmin dmax
                   else heap s r').
           rewrite decide_True by reflexivity.
           repeat split; reflexivity || assumption.
        -- destruct (Queue.task_done _); cbn [calls];
             intros H; destruct (Hsame _ H).
      * destruct (Queue.task_done _); cbn [calls];
          intros H; destruct (Hsame _ H).
    + destruct (resp ≫= _); destruct (Queue.task_done _); cbn [calls];
        intros H; destruct (Hsame _ H).
  - intros batch p h sched.
    apply (run_invariant log_inv worker_step_log_inv sched
             (start batch p h) (start_log_inv batch p h)).
Qed.

End Facts.

(** C7 on the sample tariff response, on an empty [data] list and on a
    response without a matching group. *)
Lemma C7_service_id_resolution_witness :
  Parsing._parse_service_id Sample.UUID_init tariff_response a_request
  = Ok ({| int := 10 |}, VInt 1, VInt 3) /\
  is_Ok (Parsing._parse_service_id Sample.UUID_init
           (VDict [("data", VList [])]) a_request) = false /\
  is_Ok (Parsing._parse_service_id Sample.UUID_init
           (VDict [("data", VList [group "Economy" []])]) a_request) = false.
Proof.
  split; [|split].
  - rewrite (proj2 (proj2 (proj2 (C7_service_id_resolution
               Sample.UUID_init tariff_response a_request)))
               tariff_groups
               (tariff "HOME-HOME" "16:00"
                  "00000000-0000-0000-0000-00000000000a" 1 3)).
    + reflexivity.
    + reflexivity.
    + repeat constructor; eexists; (split; [reflexivity|repeat constructor]).
    + reflexivity.
  - apply (proj1 (proj2 (C7_service_id_resolution Sample.UUID_init
                           (VDict [("data", VList [])]) a_request))).
    reflexivity.
  - apply (proj1 (proj2 (proj2 (C7_service_id_resolution Sample.UUID_init
             (VDict [("data", VList [group "Economy" []])]) a_request)))
             (VList [group "Economy" []]) [group "Economy" []]).
    + reflexivity.
    + reflexivity.
    + intros g t Hg Hm. apply list_elem_of_singleton in Hg. subst g.
      discriminate Hm.
Defined.

(** C1, as amended, on a fresh parser and a batch of two items, one of
    which fails. *)
Lemma C1_report_counts_witness :
  match sample_retrieve_data [0%nat; 1%nat] two_items_schedule
          (__init__ 10) a_store
  with
  | Some (Ok (_, report), _) =>
      routes_total report = 2 /\
      routes_total report = routes_success report + routes_fail report
  | _ => False
  end.
Proof.
  destruct (sample_retrieve_data _ _ _ _) as [[out s]|] eqn:H;
    [|vm_compute in H; discriminate H].
  destruct (C1_report_counts _ _ _ _ _ _ _ _ _ H)
    as (result_list & report & -> & Htotal & _ & Hfresh).
  split; [exact Htotal|apply Hfresh; reflexivity].
Defined.

(** C1 does not hold as stated: the second call on one instance reports
    one submitted request and two outcomes. *)
Lemma C1_counterexample :
  match sample_retrieve_data [0%nat] one_item_schedule (__init__ 10) a_store
  with
  | Some (Ok (_, report1), s1) =>
      routes_total report1 = 1 /\
      routes_success report1 + routes_fail report1 = 1 /\
      match sample_retrieve_data [1%nat] one_item_schedule
              (self s1) (heap s1)
      with
      | Some (Ok (_, report2), _) =>
          routes_total report2 = 1 /\
          routes_success report2 = 2 /\
          routes_fail report2 = 0 /\
          routes_total report2
          <> routes_success report2 + routes_fail report2
      | _ => False
      end
  | _ => False
  end.
Proof. vm_compute. repeat split; discriminate. Qed.

(** C10 on two successive calls, of one and of two items. *)
Lemma C10_state_is_never_reset_witness :
  match sample_retrieve_data [0%nat] one_item_schedule (__init__ 10) a_store
  with
  | Some (Ok (result1, report1), s1) =>
      match sample_retrieve_data [1%nat; 2%nat] two_items_schedule
              (self s1) (heap s1)
      with
      | Some (Ok (result2, report2), _) =>
          length result1 = 1%nat /\
          routes_total report2 = 2 /\
          exists routes2 fails2,
            result2 = result1 ++ routes2 /\
            routes_fail_list report2 = routes_fail_list report1 ++ fails2 /\
            routes_success report2
            = routes_success report1 + Z.of_nat (length routes2) /\
            routes_fail report2
            = routes_fail report1 + Z.of_nat (length fails2)
      | _ => False
      end
  | _ => False
  end.
Proof.
  destruct (sample_retrieve_data [0%nat] _ _ _)
    as [[[[result1 report1]|e1] s1]|] eqn:H1;
    [|vm_compute in H1; discriminate H1..].
  destruct (sample_retrieve_data [1%nat; 2%nat] _ _ _)
    as [[[[result2 report2]|e2] s2]|] eqn:H2.
  - destruct (C10_state_is_never_reset _ _ _ _ _ _ _ _ _ _ _ _ _ _ _ H1 H2)
      as (routes2 & fails2 & Hr & Hf & Hs & Hc & _ & Ht).
    pose proof H1 as H1'. vm_compute in H1'. injection H1' as <- _ _.
    split; [reflexivity|]. split; [exact Ht|].
    exists routes2, fails2. repeat split; assumption.
  - pose proof H1 as H1'. vm_compute in H1'. injection H1' as _ _ <-.
    vm_compute in H2. discriminate H2.
  - pose proof H1 as H1'. vm_compute in H1'. injection H1' as _ _ <-.
    vm_compute in H2. discriminate H2.
Defined.

(** C6 on a batch of two items: a failed service-id call, a run that
    goes on until the workers are idle, and a site that never answers. *)
Lemma C6_failure_isolation_witness :
  (let s := sample_run [(0%nat, Ok VNone); (1%nat, Ok VNone)]
              (start [0%nat; 1%nat] (__init__ 10) a_store) in
   let s' := sample_worker_step 0 (Raise ClientError) s in
   _routes_fail (self s') = _routes_fail (self s) + 1 /\
   _routes_fail_list (self s') = _routes_fail_list (self s) ++ [0%nat] /\
   tasks s = [AwaitingServiceId 0%nat; AwaitingServiceId 1%nat] /\
   tasks s' = [Polling; AwaitingServiceId 1%nat]) /\
  (exists s routes fails,
      Parsing._run_cargo_parsing Sample.UUID_init Sample.validate_str
        Sample.validate_number [0%nat; 1%nat] two_items_schedule
        (__init__ 10) a_store = Some s /\
      _routes_fail_list (self s) = fails /\
      [0%nat; 1%nat] ≡ₚ (request <$> routes) ++ fails) /\
  (exists sched : schedule,
      (forall k step, sched !! k = Some step -> step.2 = Raise ClientError) /\
      is_Some (Parsing._run_cargo_parsing Sample.UUID_init Sample.validate_str
                 Sample.validate_number [0%nat; 1%nat] sched
                 (__init__ 10) a_store)).
Proof.
  pose proof (C6_failure_isolation Sample.UUID_init Sample.validate_str
                Sample.validate_number [0%nat; 1%nat] (__init__ 10) a_store)
    as (Hraise & Hdrain & Hexists).
  split; [|split].
  - destruct (Hraise [(0%nat, Ok VNone); (1%nat, Ok VNone)] 0%nat
                (Raise ClientError) 0%nat)
      as (Hfail & Hlist & _ & _ & _ & _ & Htasks & _).
    { right. left. split; reflexivity. }
    cbv zeta.
    split; [exact Hfail|split; [exact Hlist|split; [reflexivity|exact Htasks]]].
  - destruct (Hdrain ltac:(cbn; lia) two_items_schedule)
      as (s & routes & fails & Hs & _ & _ & Hfails & _ & Hperm).
    { intros [|[|i]]; reflexivity. }
    exists s, routes, fails.
    split; [exact Hs|split; [|exact Hperm]].
    rewrite Hfails. reflexivity.
  - apply (Hexists ltac:(cbn; lia) (fun _ => Raise ClientError)).
Defined.

(** C5 on the sample request and tariff response. *)
Lemma C5_service_id_precedes_price_call_witness :
  (exists sid,
      Py.get (RequestForCargo.model_dump
                (RequestForCargo.assign a_request {| int := 10 |}
                   (VInt 1) (VInt 3)))
             "serviceId"
      = Ok (VStr (UUID_str sid)) /\
      Parsing._parse_service_id Sample.UUID_init tariff_response a_request
      = Ok (sid, VInt 1, VInt 3)) /\
  price_calls_follow_resolution
    (calls (sample_run two_items_schedule
              (start [0%nat; 1%nat] (__init__ 10) a_store))).
Proof.
  pose proof (C5_service_id_precedes_price_call Sample.UUID_init
                Sample.validate_str Sample.validate_number)
    as [Hstep Hlog].
  split.
  - destruct (Hstep (sample_run [(0%nat, Ok VNone)]
                       (start [0%nat] (__init__ 10) a_store))
                0%nat (Ok tariff_response) 0%nat
                (RequestForCargo.model_dump
                   (RequestForCargo.assign a_request {| int := 10 |}
                      (VInt 1) (VInt 3))))
      as (data & sid & dmin & dmax & _ & Hresp & Hparse & _ & _ & Hbody).
    { reflexivity. }
    injection Hresp as <-.
    assert (Parsing._parse_service_id Sample.UUID_init tariff_response
              a_request = Ok ({| int := 10 |}, VInt 1, VInt 3)) as Hval
      by reflexivity.
    change (heap _ 0%nat) with a_request in Hparse.
    rewrite Hval in Hparse. injection Hparse as <- <- <-.
    exists {| int := 10 |}. split; [exact Hbody|exact Hval].
  - apply Hlog.
Defined.

(** C8 does not hold as stated: with a negative thread limit the number
    of workers is zero, not the minimum; and on an instance that has
    processed a batch before, a batch of zero items returns the routes
    and counts of that earlier batch. *)
Lemma C8_counterexample :
  Z.of_nat (length (tasks (start [0%nat] (__init__ (-1)) a_store)))
  <> Z.min (-1) (Z.of_nat (length [0%nat])) /\
  match sample_retrieve_data [0%nat] one_item_schedule (__init__ 10) a_store
  with
  | Some (Ok (_, _), s1) =>
      match sample_retrieve_data [] [] (self s1) (heap s1) with
      | Some (Ok (result_list, report), s2) =>
          tasks s2 = [] /\
          length result_list = 1%nat /\
          routes_total report = 0 /\
          routes_success report = 1
      | _ => False
      end
  | _ => False
  end.
Proof. vm_compute. repeat split; discriminate. Qed.

End ParsingFacts.

(** ** More on lists *)

Lemma sum_list_with_insert {A} (f : A -> nat) (l : list A) (i : nat)
      (x y : A) :
  l !! i = Some x ->
  (sum_list_with f (<[i := y]> l) + f x = sum_list_with f l + f y)%nat.
Proof.
  intros Hx.
  assert (i < length l)%nat as Hi by (eapply lookup_lt_Some; exact Hx).
  assert (sum_list_with f l
          = (sum_list_with f (take i l) + f x
             + sum_list_with f (drop (S i) l))%nat) as ->.
  { rewrite <- (take_drop_middle l i x Hx) at 1.
    rewrite sum_list_with_app. cbn [sum_list_with]. lia. }
  rewrite insert_take_drop by assumption.
  rewrite sum_list_with_app. cbn [sum_list_with]. lia.
Qed.

(** ** More on the runs of the cargo parser *)

Module ParsingRunsFacts.
Import Parsing ParsingSpec ParsingRuns.

Section Facts.

Variable UUID_init : value -> result UUID.
Variable validate_str : value -> result string.
Variable validate_number : value -> result number.

Local Abbreviation _parse_service_id := (Parsing._parse_service_id UUID_init).
Local Abbreviation _extract_data_from_resp_dict :=
  (Parsing._extract_data_from_resp_dict validate_str validate_number).
Local Abbreviation worker_step :=
  (Parsing.worker_step UUID_init validate_str validate_number).
Local Abbreviation event_loop :=
  (Parsing.event_loop UUID_init validate_str validate_number).
Local Abbreviation _run_cargo_parsing :=
  (Parsing._run_cargo_parsing UUID_init validate_str validate_number).
Local Abbreviation _retrieve_data :=
  (Parsing._retrieve_data UUID_init validate_str validate_number).
Local Abbreviation run := (ParsingSpec.run UUID_init validate_str validate_number).
Local Abbreviation run_invariant :=
  (ParsingFacts.run_invariant UUID_init validate_str validate_number).
Local Abbreviation worker_step_inv :=
  (ParsingFacts.worker_step_inv UUID_init validate_str validate_number).

(** *** What [finish] leaves alone *)

Lemma finish_heap (i : nat) (p : CargoParserWithToken) (s : loop) :
  heap (finish i p s) = heap s.
Proof. unfold finish. destruct (Queue.task_done _); reflexivity. Qed.

Lemma finish_calls (i : nat) (p : CargoParserWithToken) (s : loop) :
  calls (finish i p s) = calls s.
Proof. unfold finish. destruct (Queue.task_done _); reflexivity. Qed.

Lemma finish_result_list (i : nat) (p : CargoParserWithToken) (s : loop) :
  _result_list (self (finish i p s)) = _result_list p.
Proof. unfold finish. destruct (Queue.task_done _); reflexivity. Qed.

Lemma finish_routes_success (i : nat) (p : CargoParserWithToken) (s : loop) :
  _routes_success (self (finish i p s)) = _routes_success p.
Proof. unfold finish. destruct (Queue.task_done _); reflexivity. Qed.

Lemma finish_items (i : nat) (p : CargoParserWithToken) (s : loop) :
  Queue.items (_queue (self (finish i p s))) = Queue.items (_queue p).
Proof.
  unfold finish, Queue.task_done.
  destruct (Queue.unfinished_tasks _); reflexivity.
Qed.

Lemma sum_insert (f : worker -> nat) (ws : list worker) (i : nat)
      (w w' : worker) :
  ws !! i = Some w ->
  (sum_list_with f (<[i := w']> ws) + f w
   = sum_list_with f ws + f w')%nat.
Proof. apply sum_list_with_insert. Qed.

Lemma finish_sum (f : worker -> nat) (i : nat) (w : worker)
      (p : CargoParserWithToken) (s : loop) :
  f Polling = 0%nat -> (forall e, f (Crashed e) = 0%nat) ->
  tasks s !! i = Some w ->
  (sum_list_with f (tasks (finish i p s)) + f w
   = sum_list_with f (tasks s))%nat.
Proof.
  intros Hp Hc Hw. unfold finish.
  destruct (Queue.task_done _); cbn [tasks].
  - rewrite (sum_insert f _ _ _ Polling Hw), Hp. lia.
  - rewrite (sum_insert f _ _ _ (Crashed e) Hw), Hc. lia.
Qed.

Lemma heap_insert (h : store) (r r' : ref) (x : RequestForCargo.t) :
  <[r := x]> h r' = if decide (r = r') then x else h r'.
Proof. reflexivity. Qed.

Lemma price_refs_snoc_sid (log : list call) (r : ref) (b : value) :
  price_refs (log ++ [PostServiceId r b]) = price_refs log.
Proof. unfold price_refs. rewrite omap_app. cbn. apply app_nil_r. Qed.

Lemma price_refs_snoc (log : list call) (r : ref) (b : value) :
  price_refs (log ++ [PostCargo r b]) = price_refs log ++ [r].
Proof. unfold price_refs. rewrite omap_app. reflexivity. Qed.

Lemma sid_refs_snoc (log : list call) (r : ref) (b : value) :
  sid_refs (log ++ [PostServiceId r b]) = sid_refs log ++ [r].
Proof. unfold sid_refs. rewrite omap_app. reflexivity. Qed.

Lemma sid_refs_snoc_price (log : list call) (r : ref) (b : value) :
  sid_refs (log ++ [PostCargo r b]) = sid_refs log.
Proof. unfold sid_refs. rewrite omap_app. cbn. apply app_nil_r. Qed.

(** *** The store *)

Lemma unresolved_assign (req : RequestForCargo.t) (sid : UUID)
      (dmin dmax : value) :
  unresolved (RequestForCargo.assign req sid dmin dmax) = unresolved req.
Proof. reflexivity. Qed.

Lemma worker_step_heap_inv (h : store) (i : nat) (resp : result value)
      (s : loop) :
  heap_inv h s -> heap_inv h (worker_step i resp s).
Proof.
  intros Hinv. pose proof Hinv as (Hun & Hsame & Hsid).
  unfold Parsing.worker_step.
  destruct (tasks s !! i) as [[|r|r|e]|] eqn:Hw; try assumption.
  - destruct (Queue.qsize _ <=? 0); [assumption|].
    destruct (Queue.get _) as [[r q]|]; [|assumption].
    destruct (RequestForServiceId.of_cargo _).
    + unfold heap_inv. cbn [heap calls]. rewrite price_refs_snoc_sid.
      assumption.
    + unfold heap_inv. rewrite finish_heap, finish_calls. assumption.
  - destruct (resp ≫= _) as [[[sid dmin] dmax]|].
    + unfold heap_inv. cbn [heap calls]. rewrite price_refs_snoc.
      repeat split.
      * intros r'. rewrite heap_insert. destruct (decide (r = r')) as [<-|];
          [rewrite unresolved_assign|]; apply Hun.
      * intros r' Hr'. rewrite heap_insert.
        destruct (decide (r = r')) as [<-|Hne].
        -- contradiction Hr'. apply elem_of_app. right. left.
        -- apply Hsame. intros Hin. apply Hr'. apply elem_of_app. left.
           assumption.
      * intros r' Hr'. rewrite heap_insert.
        destruct (decide (r = r')) as [<-|Hne]; [eexists; reflexivity|].
        apply Hsid. apply elem_of_app in Hr' as [Hr'|Hr']; [assumption|].
        apply list_elem_of_singleton in Hr'. congruence.
    + unfold heap_inv. rewrite finish_heap, finish_calls. assumption.
  - destruct (resp ≫= _); unfold heap_inv;
      rewrite finish_heap, finish_calls; assumption.
Qed.

Lemma start_heap_inv (batch : list ref) (p : CargoParserWithToken)
      (h : store) :
  heap_inv h (start batch p h).
Proof.
  repeat split; cbn [start heap calls]; try reflexivity.
  intros r Hr. apply elem_of_nil in Hr. contradiction.
Qed.

(** Every item a worker holds, and every item of a price call, is an item
    of the batch. *)
Lemma busy_in_batch (p : CargoParserWithToken) (batch : list ref)
      (s : loop) (i : nat) (w : worker) (r : ref) :
  inv p batch s -> tasks s !! i = Some w -> r ∈ item_of w -> r ∈ batch.
Proof.
  intros [_ _ _ (routes & fails & _ & _ & _ & _ & Hperm)] Hw Hr.
  rewrite Hperm. rewrite !elem_of_app. right. right. right.
  unfold busy_items. apply list_elem_of_bind. exists w. split; [assumption|].
  apply list_elem_of_lookup. exists i. assumption.
Qed.

Lemma worker_step_price_in_batch (p : CargoParserWithToken)
      (batch : list ref) (i : nat) (resp : result value) (s : loop) :
  inv p batch s ->
  (forall r, r ∈ price_refs (calls s) -> r ∈ batch) ->
  forall r, r ∈ price_refs (calls (worker_step i resp s)) -> r ∈ batch.
Proof.
  intros Hinv Hin. unfold Parsing.worker_step.
  destruct (tasks s !! i) as [[|r|r|e]|] eqn:Hw; try assumption.
  - destruct (Queue.qsize _ <=? 0); [assumption|].
    destruct (Queue.get _) as [[r q]|]; [|assumption].
    destruct (RequestForServiceId.of_cargo _).
    + cbn [calls]. rewrite price_refs_snoc_sid. assumption.
    + rewrite finish_calls. assumption.
  - destruct (resp ≫= _) as [[[sid dmin] dmax]|].
    + cbn [calls]. rewrite price_refs_snoc. intros r' Hr'.
      apply elem_of_app in Hr' as [Hr'|Hr']; [auto|].
      apply list_elem_of_singleton in Hr' as ->.
      apply (busy_in_batch p batch s i (AwaitingServiceId r) r Hinv Hw).
      left.
    + rewrite finish_calls. assumption.
  - destruct (resp ≫= _); rewrite finish_calls; assumption.
Qed.

(** X1: in every state of a run, a request object differs from the
    submitted one at most in [service_id], [duration_min] and
    [duration_max]; it is exactly the submitted one as long as no price
    call was sent for it, in particular when it is not in the batch; and
    a request for which a price call was sent is in the batch and has a
    service id. *)
Theorem X1_requests_change_only_by_assignment
        (cargo_requests : list ref) (p : CargoParserWithToken) (h : store)
        (sched : schedule) (r : ref) :
  unresolved (heap (run sched (start cargo_requests p h)) r)
  = unresolved (h r) /\
  (r ∉ price_refs (calls (run sched (start cargo_requests p h))) ->
   heap (run sched (start cargo_requests p h)) r = h r) /\
  (r ∉ cargo_requests ->
   heap (run sched (start cargo_requests p h)) r = h r) /\
  (r ∈ price_refs (calls (run sched (start cargo_requests p h))) ->
   r ∈ cargo_requests /\
   is_Some (RequestForCargo.service_id
              (heap (run sched (start cargo_requests p h)) r))).
Proof.
  pose proof (run_invariant (heap_inv h) (worker_step_heap_inv h) sched _
                (start_heap_inv cargo_requests p h)) as (Hun & Hsame & Hsid).
  assert (inv p cargo_requests (run sched (start cargo_requests p h)) /\
          forall r, r ∈ price_refs (calls (run sched (start cargo_requests p h)))
                    -> r ∈ cargo_requests) as [_ Hin].
  { apply (run_invariant
             (fun s => inv p cargo_requests s /\
                       forall r, r ∈ price_refs (calls s) -> r ∈ cargo_requests)).
    - intros i resp s [Hinv Hin]. split.
      + apply worker_step_inv. assumption.
      + apply (worker_step_price_in_batch p); assumption.
    - split.
      + apply ParsingFacts.start_inv.
      + intros r' Hr'. apply elem_of_nil in Hr'. contradiction. }
  split; [apply Hun|]. split; [apply Hsame|]. split.
  - intros Hr. apply Hsame. intros Hp. apply Hr, Hin. assumption.
  - intros Hr. split; [apply Hin|apply Hsid]; assumption.
Qed.

(** *** The calls *)

Lemma worker_step_budget_inv (batch : list ref) (p : CargoParserWithToken)
      (i : nat) (resp : result value) (s : loop) :
  budget_inv batch p s -> budget_inv batch p (worker_step i resp s).
Proof.
  intros Hinv. pose proof Hinv as ((taken & Hbatch & Hsub) & Hsid & Hprice).
  unfold Parsing.worker_step.
  destruct (tasks s !! i) as [[|r|r|e]|] eqn:Hw; try assumption.
  - destruct (Queue.qsize _ <=? 0); [assumption|].
    destruct (Queue.get _) as [[r q]|] eqn:Hget; [|assumption].
    apply ParsingFacts.get_Some in Hget as [Hitems _].
    rewrite Hitems in Hbatch.
    destruct (RequestForServiceId.of_cargo _).
    + pose proof (sum_insert awaiting_tariffs _ _ _ (AwaitingServiceId r) Hw).
      pose proof (sum_insert awaiting_price _ _ _ (AwaitingServiceId r) Hw).
      cbn [awaiting_tariffs awaiting_price] in *.
      split; [exists (taken ++ [r]); split|split];
        cbn [self tasks calls set_queue _queue _result_list];
        rewrite ?sid_refs_snoc, ?price_refs_snoc_sid, ?length_app;
        cbn [length]; try lia.
      * rewrite Hbatch, <- app_assoc. reflexivity.
      * apply sublist_app; [assumption|reflexivity].
    + pose proof (finish_sum awaiting_tariffs i _
                    (on_exception r (set_queue q (self s))) s
                    eq_refl (fun _ => eq_refl) Hw).
      pose proof (finish_sum awaiting_price i _
                    (on_exception r (set_queue q (self s))) s
                    eq_refl (fun _ => eq_refl) Hw).
      cbn [awaiting_tariffs awaiting_price] in *.
      split; [exists (taken ++ [r]); split|split];
        rewrite ?finish_items, ?finish_calls, ?finish_result_list;
        cbn [on_exception set_queue _queue _result_list]; try lia.
      * rewrite Hbatch, <- app_assoc. reflexivity.
      * apply sublist_inserts_r. assumption.
  - destruct (resp ≫= _) as [[[sid dmin] dmax]|].
    + pose proof (sum_insert awaiting_tariffs _ _ _ (AwaitingCargo r) Hw).
      pose proof (sum_insert awaiting_price _ _ _ (AwaitingCargo r) Hw).
      cbn [awaiting_tariffs awaiting_price] in *.
      split; [exists taken; split|split];
        cbn [self tasks calls];
        rewrite ?sid_refs_snoc_price, ?price_refs_snoc, ?length_app;
        cbn [length]; try assumption; lia.
    + pose proof (finish_sum awaiting_tariffs i _ (on_exception r (self s)) s
                    eq_refl (fun _ => eq_refl) Hw).
      pose proof (finish_sum awaiting_price i _ (on_exception r (self s)) s
                    eq_refl (fun _ => eq_refl) Hw).
      cbn [awaiting_tariffs awaiting_price] in *.
      split; [exists taken; split|split];
        rewrite ?finish_items, ?finish_calls, ?finish_result_list;
        cbn [on_exception _queue _result_list]; try assumption; lia.
  - destruct (resp ≫= _) as [route|].
    + pose proof (finish_sum awaiting_tariffs i _
                    (on_success route (self s)) s
                    eq_refl (fun _ => eq_refl) Hw).
      pose proof (finish_sum awaiting_price i _
                    (on_success route (self s)) s
                    eq_refl (fun _ => eq_refl) Hw).
      cbn [awaiting_tariffs awaiting_price] in *.
      split; [exists taken; split|split];
        rewrite ?finish_items, ?finish_calls, ?finish_result_list;
        cbn [on_success _queue _result_list]; rewrite ?length_app;
        cbn [length]; try assumption; lia.
    + pose proof (finish_sum awaiting_tariffs i _ (on_exception r (self s)) s
                    eq_refl (fun _ => eq_refl) Hw).
      pose proof (finish_sum awaiting_price i _ (on_exception r (self s)) s
                    eq_refl (fun _ => eq_refl) Hw).
      cbn [awaiting_tariffs awaiting_price] in *.
      split; [exists taken; split|split];
        rewrite ?finish_items, ?finish_calls, ?finish_result_list;
        cbn [on_exception _queue _result_list]; try assumption; lia.
Qed.

Lemma start_budget_inv (batch : list ref) (p : CargoParserWithToken)
      (h : store) :
  budget_inv batch p (start batch p h).
Proof.
  assert (forall (f : worker -> nat) (l : list nat),
             f Polling = 0%nat ->
             sum_list_with f (map (fun _ => Polling) l) = 0%nat) as Hidle.
  { intros f l Hf. induction l; cbn; [reflexivity|]. rewrite Hf. assumption. }
  split; [exists []; split|split];
    cbn [start self tasks calls set_queue _queue _result_list app];
    rewrite ?ParsingFacts.put_all_spec, ?Hidle by reflexivity;
    cbn [Queue.items Queue.new app sid_refs price_refs omap length];
    try reflexivity; try lia.
Qed.

(** X2: in every state of a run, the items of the service-id calls sent
    so far are a sub-sequence of the batch, in submission order, so there
    is at most one such call for each submitted item and none for
    anything else; there are never more price calls than service-id
    calls; and the result list has grown by at most one route for each
    price call. *)
Theorem X2_calls_follow_the_batch
        (cargo_requests : list ref) (p : CargoParserWithToken) (h : store)
        (sched : schedule) :
  sid_refs (calls (run sched (start cargo_requests p h)))
    `sublist_of` cargo_requests /\
  (length (price_refs (calls (run sched (start cargo_requests p h))))
   <= length (sid_refs (calls (run sched (start cargo_requests p h)))))%nat /\
  (length (_result_list (self (run sched (start cargo_requests p h))))
   <= length (_result_list p)
      + length (price_refs (calls (run sched (start cargo_requests p h)))))%nat
  /\
  (length (calls (run sched (start cargo_requests p h)))
   <= 2 * length cargo_requests)%nat.
Proof.
  pose proof (run_invariant (budget_inv cargo_requests p)
                (worker_step_budget_inv cargo_requests p) sched _
                (start_budget_inv cargo_requests p h))
    as ((taken & Hbatch & Hsub) & Hsid & Hprice).
  assert (sid_refs (calls (run sched (start cargo_requests p h)))
            `sublist_of` cargo_requests) as Hsub'.
  { etransitivity; [exact Hsub|]. rewrite Hbatch at 1.
    apply sublist_inserts_r. reflexivity. }
  split; [assumption|]. split; [lia|]. split; [lia|].
  apply sublist_length in Hsub'.
  assert (forall log : list call,
             length log = (length (sid_refs log) + length (price_refs log))%nat)
    as Hsplit.
  { intros log. unfold sid_refs, price_refs.
    induction log as [|[r b|r b] log IH]; cbn in *; lia. }
  rewrite Hsplit. lia.
Qed.

(** The state in which [join] returns is a state of the run. *)
Lemma event_loop_is_run (sched : schedule) (s s' : loop) :
  event_loop sched s = Some s' ->
  exists pre post, sched = pre ++ post /\ s' = run pre s.
Proof.
  revert s. induction sched as [|[i resp] sched IH]; intros s;
    cbn [Parsing.event_loop];
    destruct (Queue.joined (_queue (self s))); try discriminate.
  - intros [= <-]. exists [], []. split; reflexivity.
  - intros [= <-]. exists [], ((i, resp) :: sched). split; reflexivity.
  - intros H. apply IH in H as (pre & post & -> & ->).
    exists ((i, resp) :: pre), post. split; reflexivity.
Qed.

(** *** The bodies *)

Lemma of_cargo_unresolved (a b : RequestForCargo.t) :
  unresolved a = unresolved b ->
  RequestForServiceId.of_cargo a = RequestForServiceId.of_cargo b.
Proof.
  intros H. unfold RequestForServiceId.of_cargo.
  assert (RequestForCargo.packages a = RequestForCargo.packages b) as ->
    by exact (f_equal RequestForCargo.packages H).
  assert (RequestForCargo.payer_type a = RequestForCargo.payer_type b) as ->
    by exact (f_equal RequestForCargo.payer_type H).
  assert (RequestForCargo.currency_mark a = RequestForCargo.currency_mark b)
    as -> by exact (f_equal RequestForCargo.currency_mark H).
  assert (RequestForCargo.sender_city_id a = RequestForCargo.sender_city_id b)
    as -> by exact (f_equal RequestForCargo.sender_city_id H).
  assert (RequestForCargo.receiver_city_id a
          = RequestForCargo.receiver_city_id b)
    as -> by exact (f_equal RequestForCargo.receiver_city_id H).
  reflexivity.
Qed.

Lemma assign_unresolved (a b : RequestForCargo.t) (sid : UUID)
      (dmin dmax : value) :
  unresolved a = unresolved b ->
  RequestForCargo.assign a sid dmin dmax
  = RequestForCargo.assign b sid dmin dmax.
Proof.
  intros H. destruct a, b. cbn in H. injection H as -> -> -> -> -> -> -> ->
    -> -> -> ->. reflexivity.
Qed.

Lemma worker_step_bodies_inv (h : store) (i : nat) (resp : result value)
      (s : loop) :
  heap_inv h s -> bodies_inv h s -> bodies_inv h (worker_step i resp s).
Proof.
  intros (Hun & _ & _) Hbodies. unfold Parsing.worker_step.
  destruct (tasks s !! i) as [[|r|r|e]|] eqn:Hw; try assumption.
  - destruct (Queue.qsize _ <=? 0); [assumption|].
    destruct (Queue.get _) as [[r q]|]; [|assumption].
    destruct (RequestForServiceId.of_cargo _) as [sreq|] eqn:Hreq.
    + intros k c. cbn [calls]. intros Hk.
      apply lookup_app_Some in Hk as [Hk|[_ Hk]]; [apply (Hbodies k c Hk)|].
      apply list_lookup_singleton_Some in Hk as [_ <-].
      unfold service_id_body.
      rewrite <- (of_cargo_unresolved _ _ (Hun r)), Hreq. reflexivity.
    + unfold bodies_inv. rewrite finish_calls. assumption.
  - destruct (resp ≫= _) as [[[sid dmin] dmax]|].
    + intros k c. cbn [calls]. intros Hk.
      apply lookup_app_Some in Hk as [Hk|[_ Hk]]; [apply (Hbodies k c Hk)|].
      apply list_lookup_singleton_Some in Hk as [_ <-].
      exists sid, dmin, dmax.
      rewrite (assign_unresolved _ _ sid dmin dmax (Hun r)). reflexivity.
    + unfold bodies_inv. rewrite finish_calls. assumption.
  - destruct (resp ≫= _); unfold bodies_inv; rewrite finish_calls; assumption.
Qed.

Lemma run_bodies_inv (batch : list ref) (p : CargoParserWithToken)
      (h : store) (sched : schedule) :
  bodies_inv h (run sched (start batch p h)).
Proof.
  apply (run_invariant (fun s => heap_inv h s /\ bodies_inv h s)).
  - intros i resp s [Hheap Hbodies]. split.
    + apply worker_step_heap_inv. assumption.
    + apply worker_step_bodies_inv; assumption.
  - split; [apply start_heap_inv|].
    intros k c H. cbn [start calls] in H. rewrite lookup_nil in H.
    discriminate H.
Qed.

(** X3: the bodies a run sends are built from the requests as they were
    submitted: the body of a service-id call is the dump of the
    service-id request made from the submitted request, the body of a
    price call is the dump of the submitted request with a service id
    (and durations, which are not dumped) assigned; so the two bodies
    sent for an item agree on payer, currency, the two city ids and the
    package. *)
Theorem X3_bodies_come_from_the_submitted_requests
        (cargo_requests : list ref) (p : CargoParserWithToken) (h : store)
        (sched : schedule) :
  bodies_inv h (run sched (start cargo_requests p h)) /\
  forall (j k : nat) (r : ref) (b body : value),
    calls (run sched (start cargo_requests p h)) !! j
    = Some (PostServiceId r b) ->
    calls (run sched (start cargo_requests p h)) !! k
    = Some (PostCargo r body) ->
    Forall (fun key => Py.get body key = Py.get b key) shared_keys.
Proof.
  pose proof (run_bodies_inv cargo_requests p h sched) as Hbodies.
  split; [assumption|].
  intros j k r b body Hj Hk.
  pose proof (Hbodies j _ Hj) as Hb. cbn in Hb.
  destruct (Hbodies k _ Hk) as (sid & dmin & dmax & ->).
  unfold service_id_body, RequestForServiceId.of_cargo in Hb.
  destruct (RequestForCargo.packages (h r)) as [|pkg [|pkg' pkgs]] eqn:Hp;
    try discriminate Hb.
  cbn in Hb. injection Hb as <-.
  unfold shared_keys, RequestForCargo.model_dump, RequestForCargo.assign.
  cbn [RequestForCargo.packages]. rewrite Hp.
  repeat constructor.
Qed.

(** *** The routes *)

Lemma calculated_loop_length (items : list value)
      (calculated : list CalculatedService) :
  Parsing.calculated_loop validate_str validate_number items = Ok calculated ->
  length calculated = length items.
Proof.
  revert calculated. induction items as [|item items IH]; intros calculated;
    cbn [Parsing.calculated_loop].
  - intros [= <-]. reflexivity.
  - repeat (match goal with
            | |- context [mbind _ ?m] =>
                lazymatch m with
                | Parsing.calculated_loop _ _ _ => fail
                | _ => destruct m; cbn [mbind result_bind]; [|discriminate]
                end
            end).
    destruct (Parsing.calculated_loop _ _ items) as [tail|];
      cbn [mbind result_bind mret result_ret]; [|discriminate].
    intros [= <-]. cbn [length]. f_equal. apply IH. reflexivity.
Qed.

(** What a route returned by [_extract_data_from_resp_dict] is made
    of. *)
Lemma extract_Ok (cargo_data : value) (r : ref) (req : RequestForCargo.t)
      (route : Route) :
  _extract_data_from_resp_dict cargo_data r req = Ok route ->
  Py.truthy (field cargo_data "data") = true /\
  request route = r /\
  echoes req route /\
  validate_number (field (field cargo_data "data") "deliveryPrice")
  = Ok (delivery_price route) /\
  validate_number (field (field cargo_data "data") "totalCost")
  = Ok (total_cost route) /\
  validate_number (RequestForCargo.duration_min req)
  = Ok (route_duration_min route) /\
  validate_number (RequestForCargo.duration_max req)
  = Ok (route_duration_max route) /\
  exists items,
    Py.iter (if Py.truthy (field (field cargo_data "data")
                             "calculatedAdditionalServices")
             then field (field cargo_data "data")
                        "calculatedAdditionalServices"
             else VList []) = Ok items /\
    length (services route) = length items.
Proof.
  unfold Parsing._extract_data_from_resp_dict.
  destruct (Py.get cargo_data "data") as [cargo_dict|] eqn:Hd;
    [|discriminate]. apply ParsingFacts.get_Ok in Hd as [_ ->].
  cbn [mbind result_bind].
  destruct (Py.truthy (field cargo_data "data")) eqn:T; [|discriminate].
  cbn [negb].
  destruct (Py.get (field cargo_data "data") "calculatedAdditionalServices")
    as [raw|] eqn:Hraw; [|discriminate].
  apply ParsingFacts.get_Ok in Hraw as [Hdict ->].
  rewrite !(ParsingFacts.get_field _ _ Hdict).
  cbn [mbind result_bind].
  destruct (Py.iter _) as [items|] eqn:Hiter; [|discriminate].
  cbn [mbind result_bind].
  destruct (Parsing.calculated_loop _ _ items) as [calculated|] eqn:Hcalc;
    [|discriminate].
  apply calculated_loop_length in Hcalc.
  cbn [mbind result_bind].
  destruct (RequestForCargo.packages req) as [|first rest] eqn:Hp;
    [discriminate|]. cbn [mbind result_bind].
  destruct (validate_number (field (field cargo_data "data") "deliveryPrice"))
    as [dp|]; [|discriminate]. cbn [mbind result_bind].
  destruct (validate_number (field (field cargo_data "data") "totalCost"))
    as [tc|]; [|discriminate]. cbn [mbind result_bind].
  destruct (validate_number (RequestForCargo.duration_min req))
    as [dmin|]; [|discriminate]. cbn [mbind result_bind].
  destruct (validate_number (RequestForCargo.duration_max req))
    as [dmax|]; [|discriminate]. cbn [mbind result_bind mret result_ret].
  intros [= <-]. unfold echoes. rewrite Hp.
  cbn. repeat split. exists items. split; [reflexivity|assumption].
Qed.

(** X7: [_extract_data_from_resp_dict] raises when the response has no
    [data] or an empty one; when it returns a route, the route refers to
    the request, carries its city names and the weight of its first
    package, its prices are the validated [deliveryPrice] and [totalCost]
    of the response, its durations are the validated durations of the
    request, and it has one service for each item of
    [calculatedAdditionalServices], none when that list is missing, null
    or empty. *)
Theorem X7_route_extraction (cargo_data : value) (r : ref)
        (req : RequestForCargo.t) :
  (Py.truthy (field cargo_data "data") = false ->
   is_Ok (_extract_data_from_resp_dict cargo_data r req) = false) /\
  (forall route,
      _extract_data_from_resp_dict cargo_data r req = Ok route ->
      request route = r /\
      echoes req route /\
      validate_number (field (field cargo_data "data") "deliveryPrice")
      = Ok (delivery_price route) /\
      validate_number (field (field cargo_data "data") "totalCost")
      = Ok (total_cost route) /\
      validate_number (RequestForCargo.duration_min req)
      = Ok (route_duration_min route) /\
      validate_number (RequestForCargo.duration_max req)
      = Ok (route_duration_max route) /\
      (Py.truthy (field (field cargo_data "data")
                    "calculatedAdditionalServices") = false ->
       services route = []) /\
      (forall items,
          field (field cargo_data "data") "calculatedAdditionalServices"
          = VList items ->
          length (services route) = length items)).
Proof.
  split.
  - intros T.
    destruct (_extract_data_from_resp_dict cargo_data r req) as [route|] eqn:H;
      [|reflexivity].
    apply extract_Ok in H as [T' _]. rewrite T in T'. discriminate T'.
  - intros route H.
    apply extract_Ok in H
      as (_ & Hr & He & Hdp & Htc & Hmin & Hmax & items & Hiter & Hlen).
    do 6 (split; [assumption|]). split.
    + intros T. rewrite T in Hiter. injection Hiter as <-.
      destruct (services route); [reflexivity|discriminate Hlen].
    + intros items' Hraw. rewrite Hraw in Hiter.
      destruct items' as [|x items']; cbn in Hiter;
        injection Hiter as <-; assumption.
Qed.

Lemma echoes_unresolved (a b : RequestForCargo.t) (route : Route) :
  unresolved a = unresolved b -> echoes a route -> echoes b route.
Proof.
  intros H. unfold echoes.
  assert (RequestForCargo.sender_city_name a
          = RequestForCargo.sender_city_name b) as ->
    by exact (f_equal RequestForCargo.sender_city_name H).
  assert (RequestForCargo.receiver_city_name a
          = RequestForCargo.receiver_city_name b) as ->
    by exact (f_equal RequestForCargo.receiver_city_name H).
  assert (RequestForCargo.packages a = RequestForCargo.packages b) as ->
    by exact (f_equal RequestForCargo.packages H).
  trivial.
Qed.

Lemma insert_awaiting_cargo (ws : list worker) (i i' : nat) (w : worker)
      (r : ref) :
  <[i := w]> ws !! i' = Some (AwaitingCargo r) ->
  w = AwaitingCargo r \/ ws !! i' = Some (AwaitingCargo r).
Proof.
  intros H. apply list_lookup_insert_Some in H as [(_ & <- & _)|[_ H]]; auto.
Qed.

Lemma finish_routes_inv_tasks (i : nat) (p : CargoParserWithToken) (s : loop)
      (i' : nat) (r : ref) :
  tasks (finish i p s) !! i' = Some (AwaitingCargo r) ->
  tasks s !! i' = Some (AwaitingCargo r).
Proof.
  unfold finish. destruct (Queue.task_done _); cbn [tasks]; intros H;
    apply insert_awaiting_cargo in H as [H|H]; try discriminate H; assumption.
Qed.

Lemma worker_step_routes_inv (h : store) (p : CargoParserWithToken)
      (i : nat) (resp : result value) (s : loop) :
  heap_inv h s -> routes_inv h p s -> routes_inv h p (worker_step i resp s).
Proof.
  intros (Hun & _ & _) Hinv.
  pose proof Hinv as (Hwait & routes & Hlist & Hroutes).
  unfold Parsing.worker_step.
  destruct (tasks s !! i) as [[|r|r|e]|] eqn:Hw; try assumption.
  - destruct (Queue.qsize _ <=? 0); [assumption|].
    destruct (Queue.get _) as [[r q]|]; [|assumption].
    destruct (RequestForServiceId.of_cargo _).
    + split; cbn [tasks calls self set_queue _result_list];
        rewrite price_refs_snoc_sid.
      * intros i' r' H. apply insert_awaiting_cargo in H as [H|H];
          [discriminate H|]. apply (Hwait i' r' H).
      * exists routes. split; assumption.
    + split; rewrite ?finish_calls, ?finish_result_list.
      * intros i' r' H. apply finish_routes_inv_tasks in H.
        apply (Hwait i' r' H).
      * exists routes. split; assumption.
  - destruct (resp ≫= _) as [[[sid dmin] dmax]|].
    + split; cbn [tasks calls self]; rewrite price_refs_snoc.
      * intros i' r' H. apply elem_of_app.
        apply insert_awaiting_cargo in H as [[= <-]|H]; [right; left|].
        left. apply (Hwait i' r' H).
      * exists routes. split; [assumption|].
        eapply Forall_impl; [exact Hroutes|]. intros route [He Hin].
        split; [assumption|]. apply elem_of_app. left. assumption.
    + split; rewrite ?finish_calls, ?finish_result_list.
      * intros i' r' H. apply finish_routes_inv_tasks in H.
        apply (Hwait i' r' H).
      * exists routes. split; assumption.
  - destruct (resp ≫= _) as [route|] eqn:Hroute.
    + split; rewrite ?finish_calls, ?finish_result_list.
      * intros i' r' H. apply finish_routes_inv_tasks in H.
        apply (Hwait i' r' H).
      * exists (routes ++ [route]). cbn [on_success _result_list].
        split; [rewrite Hlist, app_assoc; reflexivity|].
        apply Forall_app. split; [assumption|].
        destruct resp as [cargo_data|]; [|discriminate Hroute].
        apply extract_Ok in Hroute as (_ & Hr & He & _).
        constructor; [split|constructor].
        -- rewrite Hr. eapply echoes_unresolved; [apply Hun|exact He].
        -- rewrite Hr. apply (Hwait i r Hw).
    + split; rewrite ?finish_calls, ?finish_result_list.
      * intros i' r' H. apply finish_routes_inv_tasks in H.
        apply (Hwait i' r' H).
      * exists routes. split; assumption.
Qed.

Lemma start_routes_inv (batch : list ref) (p : CargoParserWithToken)
      (h : store) :
  routes_inv h p (start batch p h).
Proof.
  split; cbn [start tasks calls self set_queue _result_list].
  - intros i r H. apply list_lookup_fmap_Some in H as (idx & H & _).
    discriminate H.
  - exists []. rewrite app_nil_r. split; [reflexivity|constructor].
Qed.

Lemma retrieve_data_loop (batch : list ref) (sched : schedule)
      (p : CargoParserWithToken) (h : store) out (s : loop) :
  _retrieve_data batch sched p h = Some (out, s) ->
  event_loop sched (start batch p h) = Some s.
Proof.
  unfold Parsing._retrieve_data, Parsing._run_cargo_parsing.
  destruct (event_loop sched _) as [s'|]; [|discriminate].
  intros [= _ <-]. reflexivity.
Qed.

(** X4: every route that a call of [retrieve_data] adds to the result
    list refers to a request of the batch, carries the city names and the
    first package's weight of that request as it was submitted, and its
    request has a service id when the call returns. *)
Theorem X4_routes_echo_their_requests
        (cargo_requests : list ref) (sched : schedule)
        (p : CargoParserWithToken) (h : store)
        (result_list : list Route) (report : RequestsReport) (s : loop) :
  _retrieve_data cargo_requests sched p h
  = Some (Ok (result_list, report), s) ->
  exists routes,
    result_list = _result_list p ++ routes /\
    Forall (fun route =>
              request route ∈ cargo_requests /\
              echoes (h (request route)) route /\
              is_Some (RequestForCargo.service_id (heap s (request route))))
           routes.
Proof.
  intros H. pose proof (retrieve_data_loop _ _ _ _ _ _ H) as Hloop.
  apply ParsingFacts.retrieve_data_returns in H
    as (routes' & _ & [= -> _] & _ & Hlist' & _).
  destruct (ParsingFacts.event_loop_invariant UUID_init validate_str
              validate_number
              (fun s => (inv p cargo_requests s /\
                         forall r, r ∈ price_refs (calls s) ->
                                   r ∈ cargo_requests) /\
                        heap_inv h s /\ routes_inv h p s))
    with (sched := sched) (s := start cargo_requests p h) (s' := s)
    as [((_ & Hin) & (_ & _ & Hsid) & (_ & routes & Hlist & Hroutes)) _].
  - intros i resp s0 ((Hinv & Hin) & Hheap & Hroutes).
    split; [split|split].
    + apply worker_step_inv. assumption.
    + apply (worker_step_price_in_batch p); assumption.
    + apply worker_step_heap_inv. assumption.
    + apply worker_step_routes_inv; assumption.
  - split; [split|split].
    + apply ParsingFacts.start_inv.
    + intros r Hr. apply elem_of_nil in Hr. contradiction.
    + apply start_heap_inv.
    + apply start_routes_inv.
  - exact Hloop.
  - rewrite Hlist' in Hlist. apply app_inv_head in Hlist as ->.
    exists routes. split; [reflexivity|].
    eapply Forall_impl; [exact Hroutes|]. intros route [He Hp].
    split; [apply Hin; assumption|]. split; [assumption|].
    apply Hsid. assumption.
Qed.

(** *** When every call fails *)

Lemma event_loop_invariant_on (Q : nat * result value -> Prop)
      (P : loop -> Prop) :
  (forall i resp s, Q (i, resp) -> P s -> P (worker_step i resp s)) ->
  forall sched s s',
    Forall Q sched -> P s -> event_loop sched s = Some s' -> P s'.
Proof.
  intros Hstep sched. induction sched as [|[i resp] sched IH];
    intros s s' HQ HP; cbn [Parsing.event_loop];
    destruct (Queue.joined (_queue (self s))); try discriminate;
    try (intros [= <-]; assumption).
  apply Forall_cons in HQ as [Hq HQ].
  apply IH; [assumption|]. apply Hstep; assumption.
Qed.

Lemma worker_step_nothing_priced (p : CargoParserWithToken) (h : store)
      (i : nat) (resp : result value) (s : loop) :
  is_Ok resp = false ->
  nothing_priced p h s -> nothing_priced p h (worker_step i resp s).
Proof.
  intros Hresp Hinv.
  pose proof Hinv as (Hlist & Hsucc & Hprice & Hwait & Hheap).
  destruct resp as [data|e]; [discriminate Hresp|].
  unfold Parsing.worker_step.
  destruct (tasks s !! i) as [[|r|r|e']|] eqn:Hw; try assumption.
  - destruct (Queue.qsize _ <=? 0); [assumption|].
    destruct (Queue.get _) as [[r q]|]; [|assumption].
    destruct (RequestForServiceId.of_cargo _).
    + pose proof (sum_insert awaiting_price _ _ _ (AwaitingServiceId r) Hw).
      cbn [awaiting_price] in *.
      repeat split;
        cbn [self tasks calls heap set_queue _result_list _routes_success];
        rewrite ?price_refs_snoc_sid; try assumption. lia.
    + pose proof (finish_sum awaiting_price i _
                    (on_exception r (set_queue q (self s))) s
                    eq_refl (fun _ => eq_refl) Hw).
      repeat split;
        rewrite ?finish_result_list, ?finish_routes_success, ?finish_calls,
          ?finish_heap; try assumption. lia.
  - cbn [mbind result_bind].
    pose proof (finish_sum awaiting_price i _ (on_exception r (self s)) s
                  eq_refl (fun _ => eq_refl) Hw).
    repeat split;
      rewrite ?finish_result_list, ?finish_routes_success, ?finish_calls,
        ?finish_heap; try assumption. lia.
  - pose proof (sum_insert awaiting_price _ _ _ Polling Hw).
    cbn [awaiting_price] in *. lia.
Qed.

Lemma event_loop_None (sched : schedule) (s : loop) :
  event_loop sched s = None ->
  Queue.joined (_queue (self s)) = false /\
  Queue.joined (_queue (self (run sched s))) = false.
Proof.
  revert s. induction sched as [|[i resp] sched IH]; intros s;
    cbn [Parsing.event_loop];
    destruct (Queue.joined (_queue (self s))) eqn:J; try discriminate.
  - intros _. split; [reflexivity|exact J].
  - intros H. apply IH in H as [_ H]. split; [reflexivity|exact H].
Qed.

Lemma start_joined_or_workers (batch : list ref) (p : CargoParserWithToken)
      (h : store) :
  0 < _thread_limit p \/ batch = [] ->
  Queue.joined (_queue (self (start batch p h))) = true \/
  tasks (start batch p h) <> [].
Proof.
  intros Hlimit. destruct batch as [|r batch]; [left; reflexivity|].
  right. destruct Hlimit as [Hlimit|Hnil]; [|discriminate Hnil].
  cbn [start tasks]. unfold range.
  rewrite <- length_zero_iff_nil, length_map, length_seq.
  cbn [length]. lia.
Qed.

(** X5: when every HTTP call of a run raises, [retrieve_data] still
    returns, provided there is a worker to run (the thread limit is
    positive, or the batch is empty): every run in which all calls
    raise and which goes on until no worker can do anything more has
    reached the join, and there is such a run.  And whenever a call in
    which all HTTP calls raise returns, it returns the result list and
    the success count the instance had, a fail count raised by the size
    of the batch and a fail list extended by the items of the batch; no
    price call was sent and no request was modified. *)
Theorem X5_all_calls_fail
        (cargo_requests : list ref) (p : CargoParserWithToken) (h : store) :
  (0 < _thread_limit p \/ cargo_requests = [] ->
   (forall sched : schedule,
       all_raise sched ->
       (forall i, enabled i (run sched (start cargo_requests p h)) = false) ->
       is_Some (_retrieve_data cargo_requests sched p h)) /\
   (exists sched : schedule,
       all_raise sched /\
       is_Some (_retrieve_data cargo_requests sched p h))) /\
  (forall (sched : schedule) out (s : loop),
      all_raise sched ->
      _retrieve_data cargo_requests sched p h = Some (out, s) ->
      exists fails,
        out = Ok (_result_list p,
                  {| routes_total := Z.of_nat (length cargo_requests);
                     routes_success := _routes_success p;
                     routes_fail :=
                       _routes_fail p + Z.of_nat (length cargo_requests);
                     routes_fail_list := _routes_fail_list p ++ fails |}) /\
        fails ≡ₚ cargo_requests /\
        price_refs (calls s) = [] /\
        forall r, heap s r = h r).
Proof.
  assert (forall sched,
             is_Some (event_loop sched (start cargo_requests p h)) ->
             is_Some (_retrieve_data cargo_requests sched p h)) as Hret.
  { intros sched [s Hs].
    unfold Parsing._retrieve_data, Parsing._run_cargo_parsing.
    rewrite Hs. eexists. reflexivity. }
  split.
  - intros Hlimit.
    pose proof (start_joined_or_workers cargo_requests p h Hlimit)
      as Hstart.
    split.
    + intros sched _ Hquiet. apply Hret.
      destruct (event_loop sched _) as [s|] eqn:Hloop;
        [eexists; reflexivity|].
      apply event_loop_None in Hloop as [J0 J].
      destruct Hstart as [Hj|Hworkers]; [rewrite Hj in J0; discriminate J0|].
      destruct (ParsingFacts.exists_enabled p cargo_requests
                  (run sched (start cargo_requests p h))) as [i Hi].
      * apply run_invariant;
          [apply worker_step_inv|apply ParsingFacts.start_inv].
      * intros Hnil. apply Hworkers. apply length_zero_iff_nil.
        rewrite <- (ParsingFacts.run_tasks_length UUID_init validate_str
                      validate_number sched), Hnil.
        reflexivity.
      * exact J.
      * rewrite Hquiet in Hi. discriminate Hi.
    + destruct Hstart as [Hj|Hworkers].
      * exists []. split; [constructor|]. apply Hret.
        cbn [Parsing.event_loop]. rewrite Hj. eexists. reflexivity.
      * destruct (ParsingFacts.some_schedule_returns UUID_init validate_str
                    validate_number p cargo_requests
                    (pending (start cargo_requests p h))
                    (start cargo_requests p h)
                    (fun _ => Raise ClientError))
          as (sched & Hnet & Hsome);
          [apply ParsingFacts.start_inv|assumption|lia|].
        exists sched. split; [|apply Hret; assumption].
        apply Forall_lookup. intros k step Hk.
        rewrite (Hnet k step Hk). reflexivity.
  - intros sched out s Hraise H.
    pose proof (retrieve_data_loop _ _ _ _ _ _ H) as Hloop.
    apply ParsingFacts.retrieve_data_returns in H
      as (routes & fails & -> & Hperm & Hlist & _).
    assert (nothing_priced p h s) as (Hlist' & _ & Hprice & _ & Hheap).
    { apply (event_loop_invariant_on
               (fun step => is_Ok step.2 = false) (nothing_priced p h))
        with (sched := sched) (s := start cargo_requests p h).
      - intros i resp s0 Hq. apply worker_step_nothing_priced. exact Hq.
      - exact Hraise.
      - assert (forall l : list nat,
                   sum_list_with awaiting_price (map (fun _ => Polling) l)
                   = 0%nat) as Hidle.
        { induction l; [reflexivity|assumption]. }
        repeat split; cbn [start self tasks calls heap set_queue
                           _result_list _routes_success]; try reflexivity.
        apply Hidle.
      - exact Hloop. }
    rewrite Hlist' in Hlist.
    rewrite <- (app_nil_r (_result_list p)) in Hlist at 1.
    apply app_inv_head in Hlist as <-.
    cbn [fmap list_fmap app length] in *.
    exists fails. rewrite app_nil_r, Z.add_0_r.
    rewrite (Permutation_length Hperm).
    repeat split; try assumption. symmetry. assumption.
Qed.

(** *** The workers *)

(** X6: in every state of a run no worker has ended with an exception
    ([task_done] is never called more often than items were put) and the
    number of workers is the one created at the start; and when [join]
    returns the queue is empty and every worker is polling, so the
    cancellation that follows abandons no HTTP call in flight. *)
Theorem X6_workers_are_idle_at_the_join
        (cargo_requests : list ref) (p : CargoParserWithToken) (h : store)
        (sched : schedule) :
  Forall alive (tasks (run sched (start cargo_requests p h))) /\
  length (tasks (run sched (start cargo_requests p h)))
  = Z.to_nat (Z.min (Z.of_nat (length cargo_requests)) (_thread_limit p)) /\
  forall s,
    _run_cargo_parsing cargo_requests sched p h = Some s ->
    Forall (fun w => w = Polling) (tasks s) /\
    Queue.items (_queue (self s)) = [] /\
    Queue.unfinished_tasks (_queue (self s)) = 0%nat.
Proof.
  pose proof (run_invariant (inv p cargo_requests)
                (worker_step_inv p cargo_requests) sched _
                (ParsingFacts.start_inv cargo_requests p h)) as Hinv.
  split; [apply (inv_alive _ _ _ Hinv)|]. split.
  - rewrite (ParsingFacts.run_tasks_length UUID_init validate_str
               validate_number).
    cbn [start tasks]. unfold range. rewrite length_map, length_seq.
    reflexivity.
  - intros s Hs. unfold Parsing._run_cargo_parsing in Hs.
    destruct (ParsingFacts.event_loop_invariant UUID_init validate_str
                validate_number (inv p cargo_requests)
                (worker_step_inv p cargo_requests) _ _ _
                (ParsingFacts.start_inv cargo_requests p h) Hs)
      as [Hinv' J].
    destruct (ParsingFacts.joined_idle _ _ _ Hinv' J) as [Hitems Hbusy].
    split; [|split; [assumption|]].
    + apply ParsingFacts.idle_workers; [apply (inv_alive _ _ _ Hinv')|].
      assumption.
    + unfold Queue.joined in J.
      destruct (Queue.unfinished_tasks _); [reflexivity|discriminate J].
Qed.

(** *** Which items reach the site *)

Lemma of_cargo_one_package (req : RequestForCargo.t) :
  is_Ok (RequestForServiceId.of_cargo req) = one_package req.
Proof.
  unfold RequestForServiceId.of_cargo, one_package.
  destruct (RequestForCargo.packages req) as [|x [|y l]]; reflexivity.
Qed.

Lemma worker_step_sent_inv (batch : list ref) (h : store) (i : nat)
      (resp : result value) (s : loop) :
  heap_inv h s ->
  sent_inv batch h s -> sent_inv batch h (worker_step i resp s).
Proof.
  intros (Hun & _) Hinv. pose proof Hinv as (taken & Hbatch & Hsent).
  unfold Parsing.worker_step.
  destruct (tasks s !! i) as [[|r|r|e]|] eqn:Hw; try assumption.
  - destruct (Queue.qsize _ <=? 0); [assumption|].
    destruct (Queue.get _) as [[r q]|] eqn:Hget; [|assumption].
    apply ParsingFacts.get_Some in Hget as [Hitems _].
    rewrite Hitems in Hbatch.
    pose proof (of_cargo_one_package (h r)) as Hone.
    rewrite (of_cargo_unresolved _ _ (Hun r)).
    destruct (RequestForServiceId.of_cargo (h r)); cbn [is_Ok] in Hone;
      exists (taken ++ [r]).
    + cbn [self calls set_queue _queue]. rewrite sid_refs_snoc.
      split; [rewrite Hbatch, <- app_assoc; reflexivity|].
      rewrite filter_app, filter_cons_True, filter_nil by (symmetry; exact Hone).
      rewrite Hsent. reflexivity.
    + rewrite finish_items, finish_calls.
      cbn [on_exception set_queue _queue].
      split; [rewrite Hbatch, <- app_assoc; reflexivity|].
      rewrite filter_app, filter_cons_False, filter_nil, app_nil_r
        by (rewrite <- Hone; discriminate).
      exact Hsent.
  - destruct (resp ≫= _) as [[[sid dmin] dmax]|]; exists taken.
    + cbn [self calls heap]. rewrite sid_refs_snoc_price.
      split; assumption.
    + rewrite finish_items, finish_calls. cbn [on_exception _queue].
      split; assumption.
  - destruct (resp ≫= _) as [route|]; exists taken;
      rewrite finish_items, finish_calls;
      cbn [on_success on_exception _queue]; split; assumption.
Qed.

Lemma start_sent_inv (batch : list ref) (p : CargoParserWithToken)
      (h : store) :
  sent_inv batch h (start batch p h).
Proof.
  exists []. cbn [start self calls set_queue _queue].
  rewrite ParsingFacts.put_all_spec. split; reflexivity.
Qed.

Lemma finish_awaiting (i j : nat) (p : CargoParserWithToken) (s : loop)
      (r : ref) :
  tasks (finish i p s) !! j = Some (AwaitingServiceId r) ->
  tasks s !! j = Some (AwaitingServiceId r).
Proof.
  unfold finish. destruct (Queue.task_done _); cbn [tasks]; intros Hj;
    apply list_lookup_insert_Some in Hj as [(_ & Hj & _)|[_ Hj]];
    try discriminate Hj; exact Hj.
Qed.

Lemma worker_step_priced_inv (i : nat) (resp : result value) (s : loop) :
  priced_inv s -> priced_inv (worker_step i resp s).
Proof.
  intros Hinv. pose proof Hinv as (Hwait & Hprice).
  unfold Parsing.worker_step.
  destruct (tasks s !! i) as [[|r|r|e]|] eqn:Hw; try assumption.
  - destruct (Queue.qsize _ <=? 0); [assumption|].
    destruct (Queue.get _) as [[r q]|]; [|assumption].
    destruct (RequestForServiceId.of_cargo _).
    + split; cbn [tasks calls]; rewrite ?sid_refs_snoc, ?price_refs_snoc_sid.
      * intros j r' Hj. apply elem_of_app.
        apply list_lookup_insert_Some in Hj as [(_ & [= ->] & _)|[_ Hj]].
        -- right. apply list_elem_of_singleton. reflexivity.
        -- left. eapply Hwait. exact Hj.
      * intros r' Hr'. apply elem_of_app. left. apply Hprice. assumption.
    + split; rewrite finish_calls.
      * intros j r' Hj. apply finish_awaiting in Hj. eapply Hwait. exact Hj.
      * assumption.
  - destruct (resp ≫= _) as [[[sid dmin] dmax]|].
    + split; cbn [tasks calls];
        rewrite ?sid_refs_snoc_price, ?price_refs_snoc.
      * intros j r' Hj.
        apply list_lookup_insert_Some in Hj as [(_ & Hj & _)|[_ Hj]];
          [discriminate Hj|]. eapply Hwait. exact Hj.
      * intros r' Hr'. apply elem_of_app in Hr' as [Hr'|Hr'].
        -- apply Hprice. assumption.
        -- apply list_elem_of_singleton in Hr' as ->. eapply Hwait. exact Hw.
    + split; rewrite finish_calls.
      * intros j r' Hj. apply finish_awaiting in Hj. eapply Hwait. exact Hj.
      * assumption.
  - destruct (resp ≫= _) as [route|]; split; rewrite finish_calls;
      try assumption;
      intros j r' Hj; apply finish_awaiting in Hj; eapply Hwait; exact Hj.
Qed.

Lemma start_priced_inv (batch : list ref) (p : CargoParserWithToken)
      (h : store) :
  priced_inv (start batch p h).
Proof.
  split; cbn [start tasks calls].
  - intros i r Hi. apply list_lookup_fmap_Some in Hi as (idx & Hi & _).
    discriminate Hi.
  - intros r Hr. apply elem_of_nil in Hr. contradiction.
Qed.

(** What holds when [_retrieve_data] returns. *)
Lemma retrieve_data_summary (batch : list ref) (sched : schedule)
      (p : CargoParserWithToken) (h : store) out (s : loop) :
  _retrieve_data batch sched p h = Some (out, s) ->
  exists routes fails,
    out = Ok (_result_list p ++ routes,
              {| routes_total := Z.of_nat (length batch);
                 routes_success :=
                   _routes_success p + Z.of_nat (length routes);
                 routes_fail := _routes_fail p + Z.of_nat (length fails);
                 routes_fail_list := _routes_fail_list p ++ fails |}) /\
    batch ≡ₚ (request <$> routes) ++ fails /\
    Forall (fun route => echoes (h (request route)) route /\
                         request route ∈ price_refs (calls s)) routes /\
    sid_refs (calls s) = filter (fun r => one_package (h r) = true) batch /\
    (forall r, r ∈ price_refs (calls s) -> r ∈ sid_refs (calls s)).
Proof.
  intros H. pose proof (retrieve_data_loop _ _ _ _ _ _ H) as Hloop.
  apply ParsingFacts.retrieve_data_returns in H
    as (routes' & fails & -> & Hperm & Hlist' & _).
  destruct (ParsingFacts.event_loop_invariant UUID_init validate_str
              validate_number
              (fun s => inv p batch s /\ heap_inv h s /\ routes_inv h p s /\
                        sent_inv batch h s /\ priced_inv s))
    with (sched := sched) (s := start batch p h) (s' := s)
    as [(Hinv & _ & (_ & routes & Hlist & Hroutes)
         & (taken & Hbatch & Hsent) & (_ & Hprice)) J].
  - intros i resp s0 (Hinv & Hheap & Hroutes & Hsent & Hprice).
    split; [apply worker_step_inv; assumption|].
    split; [apply worker_step_heap_inv; assumption|].
    split; [apply worker_step_routes_inv; assumption|].
    split; [apply worker_step_sent_inv; assumption|].
    apply worker_step_priced_inv; assumption.
  - split; [apply ParsingFacts.start_inv|].
    split; [apply start_heap_inv|].
    split; [apply start_routes_inv|].
    split; [apply start_sent_inv|apply start_priced_inv].
  - exact Hloop.
  - destruct (ParsingFacts.joined_idle _ _ _ Hinv J) as [Hitems _].
    rewrite Hitems, app_nil_r in Hbatch. subst taken.
    rewrite Hlist' in Hlist. apply app_inv_head in Hlist as ->.
    exists routes, fails. repeat split; assumption.
Qed.

(** X17: when [retrieve_data] returns, the service-id calls it sent are
    exactly for the submitted requests that have one package, in the
    order of submission, and every price call was preceded by a
    service-id call for its item; a request submitted with no package,
    or with more than one, ends in the fail list without any HTTP
    call. *)
Theorem X17_only_one_package_requests_reach_the_site
        (cargo_requests : list ref) (sched : schedule)
        (p : CargoParserWithToken) (h : store) out (s : loop) :
  _retrieve_data cargo_requests sched p h = Some (out, s) ->
  sid_refs (calls s)
  = filter (fun r => one_package (h r) = true) cargo_requests /\
  (forall r, r ∈ price_refs (calls s) -> r ∈ sid_refs (calls s)) /\
  exists result_list report fails,
    out = Ok (result_list, report) /\
    routes_fail_list report = _routes_fail_list p ++ fails /\
    forall r, r ∈ cargo_requests -> one_package (h r) = false ->
              r ∈ fails /\
              (r ∉ sid_refs (calls s)) /\ (r ∉ price_refs (calls s)).
Proof.
  intros H.
  apply retrieve_data_summary in H
    as (routes & fails & -> & Hperm & Hroutes & Hsent & Hprice).
  split; [assumption|]. split; [assumption|].
  eexists _, _, fails. split; [reflexivity|]. split; [reflexivity|].
  intros r Hr Hone.
  assert (r ∉ sid_refs (calls s)) as Hnot.
  { rewrite Hsent. intros Hin. apply list_elem_of_filter in Hin as [Ht _].
    rewrite Hone in Ht. discriminate Ht. }
  split; [|split; [assumption|]].
  - rewrite Hperm in Hr. apply elem_of_app in Hr as [Hr|Hr]; [|assumption].
    apply list_elem_of_fmap in Hr as (route & -> & Hroute).
    contradiction Hnot. apply Hprice.
    apply (proj1 (Forall_forall _ _) Hroutes route Hroute).
  - intros Hin. apply Hnot. apply Hprice. assumption.
Qed.

(** *** Reaching the join *)

Lemma event_loop_stuck (sched : schedule) (s : loop) :
  tasks s = [] -> Queue.joined (_queue (self s)) = false ->
  event_loop sched s = None.
Proof.
  intros Hnil J. induction sched as [|[i resp] sched IH];
    cbn [Parsing.event_loop]; rewrite J; [reflexivity|].
  unfold Parsing.worker_step. rewrite Hnil. cbn [lookup list_lookup].
  exact IH.
Qed.

Lemma retrieve_data_is_Some (batch : list ref) (sched : schedule)
      (p : CargoParserWithToken) (h : store) :
  is_Some (event_loop sched (start batch p h)) ->
  is_Some (_retrieve_data batch sched p h).
Proof.
  intros [s Hs]. unfold Parsing._retrieve_data, Parsing._run_cargo_parsing.
  rewrite Hs. eexists. reflexivity.
Qed.

(** X8: a call of [retrieve_data] with at least one request returns
    only when the thread limit is positive: with a limit of zero or less
    no worker is created and the join never returns, whatever the
    schedule; with a positive limit, whatever the site answers to the
    successive calls, some order of resumption of the workers reaches
    the join. *)
Theorem X8_cargo_parsing_needs_a_worker
        (cargo_requests : list ref) (p : CargoParserWithToken) (h : store) :
  cargo_requests <> [] ->
  (_thread_limit p <= 0 ->
   forall sched : schedule,
     _retrieve_data cargo_requests sched p h = None) /\
  (0 < _thread_limit p ->
   forall net : nat -> result value,
     exists sched : schedule,
       (forall k step, sched !! k = Some step -> step.2 = net k) /\
       is_Some (_retrieve_data cargo_requests sched p h)).
Proof.
  intros Hne.
  assert (0 < length cargo_requests)%nat as Hlen
    by (destruct cargo_requests; [contradiction|cbn; lia]).
  split.
  - intros Hlimit sched.
    unfold Parsing._retrieve_data, Parsing._run_cargo_parsing.
    rewrite event_loop_stuck; [reflexivity| |].
    + cbn [start tasks]. unfold range.
      replace (Z.to_nat _) with 0%nat by lia. reflexivity.
    + cbn [start self set_queue _queue].
      rewrite ParsingFacts.put_all_spec.
      destruct cargo_requests; [contradiction|reflexivity].
  - intros Hlimit net.
    destruct (ParsingFacts.some_schedule_returns UUID_init validate_str
                validate_number p cargo_requests
                (pending (start cargo_requests p h))
                (start cargo_requests p h) net)
      as (sched & Hnet & Hsome).
    + apply ParsingFacts.start_inv.
    + cbn [start tasks]. unfold range.
      rewrite <- length_zero_iff_nil, length_map, length_seq. lia.
    + lia.
    + exists sched. split; [assumption|].
      apply retrieve_data_is_Some. assumption.
Qed.

End Facts.

(** X1 on one item that is priced: its request has got a service
    id. *)
Lemma X1_requests_change_only_by_assignment_witness :
  is_Some (RequestForCargo.service_id
             (heap (sample_run one_item_schedule
                      (start [0%nat] (__init__ 10) a_store)) 0%nat)) /\
  heap (sample_run one_item_schedule
          (start [0%nat] (__init__ 10) a_store)) 1%nat
  = a_store 1%nat.
Proof.
  destruct (X1_requests_change_only_by_assignment Sample.UUID_init
              Sample.validate_str Sample.validate_number
              [0%nat] (__init__ 10) a_store one_item_schedule 0%nat)
    as (_ & _ & _ & Hpriced).
  destruct (X1_requests_change_only_by_assignment Sample.UUID_init
              Sample.validate_str Sample.validate_number
              [0%nat] (__init__ 10) a_store one_item_schedule 1%nat)
    as (_ & _ & Hout & _).
  split.
  - apply Hpriced. vm_compute. left.
  - apply Hout. intros Hin. apply list_elem_of_singleton in Hin.
    discriminate Hin.
Defined.

(** X3 on one item that is priced: its two bodies agree. *)
Lemma X3_bodies_come_from_the_submitted_requests_witness :
  exists b body,
    calls (sample_run one_item_schedule
             (start [0%nat] (__init__ 10) a_store)) !! 0%nat
    = Some (PostServiceId 0%nat b) /\
    calls (sample_run one_item_schedule
             (start [0%nat] (__init__ 10) a_store)) !! 1%nat
    = Some (PostCargo 0%nat body) /\
    Forall (fun key => Py.get body key = Py.get b key) shared_keys.
Proof.
  eexists _, _. split; [vm_compute; reflexivity|].
  split; [vm_compute; reflexivity|].
  apply (proj2 (X3_bodies_come_from_the_submitted_requests
                  Sample.UUID_init Sample.validate_str
                  Sample.validate_number
                  [0%nat] (__init__ 10) a_store one_item_schedule)
           0%nat 1%nat 0%nat);
    vm_compute; reflexivity.
Defined.

(** X6 on two items, one of which fails: both workers are idle at the
    join. *)
Lemma X6_workers_are_idle_at_the_join_witness :
  match Parsing._run_cargo_parsing Sample.UUID_init Sample.validate_str
          Sample.validate_number [0%nat; 1%nat] two_items_schedule
          (__init__ 10) a_store
  with
  | Some s =>
      Forall (fun w => w = Polling) (tasks s) /\
      Queue.items (_queue (self s)) = [] /\
      Queue.unfinished_tasks (_queue (self s)) = 0%nat
  | None => False
  end.
Proof.
  destruct (Parsing._run_cargo_parsing _ _ _ _ _ _ _) as [s|] eqn:H;
    [|vm_compute in H; discriminate H].
  exact (proj2 (proj2 (X6_workers_are_idle_at_the_join Sample.UUID_init
                         Sample.validate_str Sample.validate_number
                         [0%nat; 1%nat] (__init__ 10) a_store
                         two_items_schedule)) s H).
Defined.

(** X7 on the sample price response, for a request with a service id
    and durations. *)
Lemma X7_route_extraction_witness :
  match Parsing._extract_data_from_resp_dict Sample.validate_str
          Sample.validate_number price_response 0%nat
          (RequestForCargo.assign a_request {| int := 10 |}
             (VInt 1) (VInt 3))
  with
  | Ok route =>
      request route = 0%nat /\
      city_from route = "Moscow" /\
      length (services route) = 1%nat
  | Raise _ => False
  end.
Proof.
  destruct (Parsing._extract_data_from_resp_dict _ _ _ _ _)
    as [route|e] eqn:H; [|vm_compute in H; discriminate H].
  destruct (proj2 (X7_route_extraction Sample.validate_str
                     Sample.validate_number price_response 0%nat _)
              route H)
    as (Hreq & (Hfrom & _) & _ & _ & _ & _ & _ & Hlen).
  split; [exact Hreq|]. split; [exact Hfrom|].
  apply (Hlen [VDict [("alias", VStr "insurance");
                      ("original_name", VStr "Insurance");
                      ("paymentDetail", VDict [("totalCost", VInt 150)])]]).
  reflexivity.
Defined.

(** X4 on a fresh parser and one item that is priced. *)
Lemma X4_routes_echo_their_requests_witness :
  match sample_retrieve_data [0%nat] one_item_schedule (__init__ 10) a_store
  with
  | Some (Ok (result_list, _), s) =>
      exists routes,
        result_list = [] ++ routes /\
        Forall (fun route =>
                  request route ∈ [0%nat] /\
                  echoes (a_store (request route)) route /\
                  is_Some (RequestForCargo.service_id
                             (heap s (request route))))
               routes
  | _ => False
  end.
Proof.
  destruct (sample_retrieve_data _ _ _ _)
    as [[[[result_list report]|e] s]|] eqn:H;
    [|vm_compute in H; discriminate H..].
  exact (X4_routes_echo_their_requests _ _ _ _ _ _ _ _ _ _ H).
Defined.

(** X5 on a fresh parser and one item whose first call fails: the
    run of the single worker ends with no worker able to go on, so the
    call returns, with the item in the fail list. *)
Lemma X5_all_calls_fail_witness :
  match sample_retrieve_data [0%nat] failing_schedule (__init__ 10) a_store
  with
  | Some (out, s) =>
      exists fails,
        out = Ok ([], {| routes_total := 1; routes_success := 0;
                         routes_fail := 1;
                         routes_fail_list := [] ++ fails |}) /\
        fails ≡ₚ [0%nat] /\
        price_refs (calls s) = [] /\
        forall r, heap s r = a_store r
  | None => False
  end.
Proof.
  assert (all_raise failing_schedule) as Hall by (repeat constructor).
  destruct (X5_all_calls_fail Sample.UUID_init Sample.validate_str
              Sample.validate_number [0%nat] (__init__ 10) a_store)
    as [Hreturns Hreport].
  destruct (proj1 (Hreturns ltac:(left; cbn; lia)) failing_schedule Hall)
    as [[out s] H].
  - intros [|i]; reflexivity.
  - unfold sample_retrieve_data. rewrite H.
    exact (Hreport failing_schedule out s Hall H).
Defined.

(** X8 on one item and a thread limit of zero: the call does not
    return. *)
Lemma X8_cargo_parsing_needs_a_worker_witness :
  sample_retrieve_data [0%nat] one_item_schedule (__init__ 0) a_store = None.
Proof.
  apply (X8_cargo_parsing_needs_a_worker Sample.UUID_init
           Sample.validate_str Sample.validate_number
           [0%nat] (__init__ 0) a_store);
    [discriminate|cbn; lia].
Defined.

(** X17 on two items, the second of which has two packages. *)
Lemma X17_only_one_package_requests_reach_the_site_witness :
  match sample_retrieve_data [0%nat; 1%nat] mixed_schedule (__init__ 10)
          mixed_store
  with
  | Some (out, s) =>
      sid_refs (calls s) = [0%nat] /\
      exists result_list report fails,
        out = Ok (result_list, report) /\
        routes_fail_list report = [] ++ fails /\
        1%nat ∈ fails
  | None => False
  end.
Proof.
  destruct (sample_retrieve_data _ _ _ _) as [[out s]|] eqn:H;
    [|vm_compute in H; discriminate H].
  destruct (X17_only_one_package_requests_reach_the_site _ _ _ _ _ _ _ _ _ H)
    as (Hsent & _ & result_list & report & fails & Hout & Hlist & Hfail).
  split; [exact Hsent|].
  exists result_list, report, fails. split; [exact Hout|].
  split; [exact Hlist|].
  apply (Hfail 1%nat); [right; left|reflexivity].
Defined.

End ParsingRunsFacts.

(** ** More on the runs of the city parser *)

Module CitiesRunsFacts.
Import Cities CitiesSpec CitiesRuns.

(** *** What [finish] leaves alone *)

Lemma city_finish_cache (i : nat) (p : CityParser) (s : loop) :
  _cached_cities (self (finish i p s)) = _cached_cities p.
Proof. unfold finish. destruct (Queue.task_done _); reflexivity. Qed.

Lemma city_finish_results (i : nat) (p : CityParser) (s : loop) :
  _results (self (finish i p s)) = _results p.
Proof. unfold finish. destruct (Queue.task_done _); reflexivity. Qed.

Lemma city_finish_calls (i : nat) (p : CityParser) (s : loop) :
  calls (finish i p s) = calls s.
Proof. unfold finish. destruct (Queue.task_done _); reflexivity. Qed.

Lemma city_finish_items (i : nat) (p : CityParser) (s : loop) :
  Queue.items (_queue (self (finish i p s))) = Queue.items (_queue p).
Proof.
  unfold finish, Queue.task_done.
  destruct (Queue.unfinished_tasks _); reflexivity.
Qed.

Lemma city_finish_busy (i : nat) (w : worker) (p : CityParser) (s : loop) :
  tasks s !! i = Some w ->
  exists rest,
    busy_names (tasks s) ≡ₚ name_of w ++ rest /\
    busy_names (tasks (finish i p s)) ≡ₚ rest.
Proof.
  intros Hw. unfold finish. destruct (Queue.task_done _); cbn [tasks].
  - destruct (CitiesFacts.busy_names_insert _ _ _ Polling Hw)
      as (rest & Hb & Hb'). exists rest. split; assumption.
  - destruct (CitiesFacts.busy_names_insert _ _ _ (Crashed e) Hw)
      as (rest & Hb & Hb'). exists rest. split; assumption.
Qed.

Lemma city_get_Some (q : Queue.t string) (x : string) (q' : Queue.t string) :
  Queue.get q = Some (x, q') ->
  Queue.items q = x :: Queue.items q' /\
  Queue.unfinished_tasks q' = Queue.unfinished_tasks q.
Proof.
  unfold Queue.get. destruct (Queue.items q); [discriminate|].
  intros [= <- <-]. split; reflexivity.
Qed.

(** *** Counters, fail list and result *)

(** The end of an iteration: worker [i] held the name of [w], the parser
    [p] records its outcome. *)
Lemma city_finish_inv (p0 : CityParser) (batch : list string) (i : nat)
      (w : worker) (rest : list string) (p : CityParser) (s : loop) :
  tasks s !! i = Some w ->
  Forall alive (tasks s) ->
  busy_names (tasks s) ≡ₚ name_of w ++ rest ->
  _thread_limit p = _thread_limit p0 ->
  Queue.unfinished_tasks (_queue p)
  = S (length (Queue.items (_queue p)) + length rest) ->
  (exists resolved fails,
      _cities_success p = _cities_success p0 + Z.of_nat (length resolved) /\
      _cities_fail p = _cities_fail p0 + Z.of_nat (length fails) /\
      _cities_fail_list p = _cities_fail_list p0 ++ fails /\
      batch ≡ₚ resolved ++ fails ++ Queue.items (_queue p) ++ rest /\
      (forall c, c ∈ resolved <-> is_Some (_results p !! c))) ->
  inv p0 batch (finish i p s).
Proof.
  intros Hw Halive Hbusy Hlimit Hunf
         (resolved & fails & H1 & H2 & H3 & H4 & H5).
  destruct (CitiesFacts.busy_names_insert _ _ _ Polling Hw)
    as (rest' & Hb & Hb').
  assert (rest' ≡ₚ rest) as Hrest.
  { rewrite Hbusy in Hb. eapply Permutation_app_inv_l. symmetry. exact Hb. }
  unfold finish, Queue.task_done. rewrite Hunf.
  split; cbn [self tasks _queue _thread_limit _cities_success _cities_fail
              _cities_fail_list _results Queue.items Queue.unfinished_tasks].
  - apply Forall_insert; [assumption|exact I].
  - rewrite Hb'. cbn [name_of app]. rewrite Hrest. reflexivity.
  - assumption.
  - exists resolved, fails. repeat split; try assumption; try apply H5.
    rewrite Hb'. cbn [name_of app]. rewrite Hrest. exact H4.
Qed.

Lemma resolved_insert (resolved : list string) (results : gmap string value)
      (x : string) (v : value) :
  (forall c, c ∈ resolved <-> is_Some (results !! c)) ->
  forall c, c ∈ resolved ++ [x] <-> is_Some (<[x := v]> results !! c).
Proof.
  intros H c. rewrite elem_of_app, list_elem_of_singleton, H.
  rewrite lookup_insert_is_Some.
  destruct (decide (x = c)); intuition congruence.
Qed.

Lemma city_worker_step_inv (p0 : CityParser) (batch : list string)
      (i : nat) (resp : result value) (s : loop) :
  inv p0 batch s -> inv p0 batch (worker_step i resp s).
Proof.
  intros Hinv. pose proof Hinv as [Halive Hunf Hlimit Hout].
  destruct Hout as (resolved & fails & H1 & H2 & H3 & H4 & H5).
  unfold worker_step.
  destruct (tasks s !! i) as [[|x|e]|] eqn:Hw; try assumption.
  - destruct (Queue.qsize _ <=? 0); [assumption|].
    destruct (Queue.get _) as [[x q]|] eqn:Hget; [|assumption].
    apply city_get_Some in Hget as [Hitems Hq].
    destruct (CitiesFacts.busy_names_insert _ _ _ (AwaitingCity x) Hw)
      as (rest & Hb & Hb').
    cbn [name_of app] in Hb, Hb'.
    destruct (Py.truthy _).
    + eapply (city_finish_inv p0 batch i Polling rest); try eassumption;
        cbn [on_cached _queue _thread_limit _cities_success _cities_fail
             _cities_fail_list _results].
      * rewrite Hq, Hunf, Hitems, Hb. cbn [length]. lia.
      * exists (resolved ++ [x]), fails. repeat split; try assumption.
        -- rewrite H1, length_app. cbn [length]. lia.
        -- rewrite H4, Hitems, Hb. solve_Permutation.
        -- apply resolved_insert. assumption.
        -- apply resolved_insert. assumption.
    + split; cbn [self tasks _queue _thread_limit _cities_success
                  _cities_fail _cities_fail_list _results].
      * apply Forall_insert; [assumption|exact I].
      * rewrite Hq, Hunf, Hitems, Hb', Hb. cbn [length]. lia.
      * assumption.
      * exists resolved, fails. repeat split; try assumption; try apply H5.
        rewrite H4, Hitems, Hb', Hb. solve_Permutation.
  - destruct (CitiesFacts.busy_names_insert _ _ _ Polling Hw)
      as (rest & Hb & _).
    cbn [name_of] in Hb.
    destruct (resp ≫= _) as [city_dict|].
    + eapply (city_finish_inv p0 batch i _ rest); try eassumption;
        cbn [on_success _queue _thread_limit _cities_success _cities_fail
             _cities_fail_list _results].
      * rewrite Hunf, Hb. cbn [name_of length app]. lia.
      * exists (resolved ++ [x]), fails. repeat split; try assumption.
        -- rewrite H1, length_app. cbn [length]. lia.
        -- rewrite H4, Hb. solve_Permutation.
        -- apply resolved_insert. assumption.
        -- apply resolved_insert. assumption.
    + eapply (city_finish_inv p0 batch i _ rest); try eassumption;
        cbn [on_exception _queue _thread_limit _cities_success _cities_fail
             _cities_fail_list _results].
      * rewrite Hunf, Hb. cbn [name_of length app]. lia.
      * exists resolved, (fails ++ [x]).
        repeat split; try assumption; try apply H5.
        -- rewrite H2, length_app. cbn [length]. lia.
        -- rewrite H3, app_assoc. reflexivity.
        -- rewrite H4, Hb. solve_Permutation.
Qed.

Lemma city_busy_names_polling {A} (l : list A) :
  busy_names (map (fun _ => Polling) l) = [].
Proof. induction l; [reflexivity|assumption]. Qed.

Lemma city_start_inv (cities : list string) (p : CityParser) :
  inv (reset_results p) cities (start cities (reset_results p)).
Proof.
  split;
    cbn [start self tasks _queue _thread_limit _cities_success _cities_fail
         _cities_fail_list _results reset_results];
    rewrite ?CitiesFacts.city_put_all_spec, ?city_busy_names_polling;
    cbn [Queue.items Queue.unfinished_tasks Queue.new app length].
  - apply Forall_forall. intros w Hw.
    apply list_elem_of_fmap in Hw as (idx & -> & _). exact I.
  - lia.
  - reflexivity.
  - exists [], []. rewrite !app_nil_r. cbn [length app].
    repeat split; try lia; try reflexivity.
    + intros Hc. apply elem_of_nil in Hc. contradiction.
    + rewrite lookup_empty. intros [v Hv]. discriminate Hv.
Qed.

Lemma city_run_invariant (P : loop -> Prop) :
  (forall i resp s, P s -> P (worker_step i resp s)) ->
  forall sched s, P s -> P (run sched s).
Proof.
  intros Hstep sched. unfold run.
  induction sched as [|[i resp] sched IH]; intros s HP; cbn [fold_left].
  - assumption.
  - apply IH. apply Hstep. assumption.
Qed.

Lemma city_joined_idle (p0 : CityParser) (batch : list string) (s : loop) :
  inv p0 batch s ->
  Queue.joined (_queue (self s)) = true ->
  Queue.items (_queue (self s)) = [] /\ busy_names (tasks s) = [].
Proof.
  intros [_ Hunf _ _]. unfold Queue.joined.
  destruct (Queue.unfinished_tasks _); [|discriminate]. intros _.
  destruct (Queue.items _); [|discriminate].
  destruct (busy_names _); [|discriminate]. auto.
Qed.

(** *** The cache *)

Lemma busy_names_insert_elem (ws : list worker) (i : nat) (w w' : worker)
      (c : string) :
  ws !! i = Some w ->
  c ∈ busy_names (<[i := w']> ws) ->
  c ∈ name_of w' \/ c ∈ busy_names ws.
Proof.
  intros Hw Hc.
  destruct (CitiesFacts.busy_names_insert _ _ _ w' Hw) as (rest & Hb & Hb').
  rewrite Hb' in Hc. rewrite Hb.
  apply elem_of_app in Hc as [Hc|Hc]; [left; assumption|].
  right. apply elem_of_app. right. assumption.
Qed.

Lemma city_finish_busy_elem (i : nat) (w : worker) (p : CityParser)
      (s : loop) (c : string) :
  tasks s !! i = Some w ->
  c ∈ busy_names (tasks (finish i p s)) -> c ∈ busy_names (tasks s).
Proof.
  intros Hw Hc. destruct (city_finish_busy i w p s Hw) as (rest & Hb & Hb').
  rewrite Hb' in Hc. rewrite Hb. apply elem_of_app. right. assumption.
Qed.

Lemma busy_names_lookup (ws : list worker) (i : nat) (x : string) :
  ws !! i = Some (AwaitingCity x) -> x ∈ busy_names ws.
Proof.
  intros Hw. unfold busy_names. apply list_elem_of_bind.
  exists (AwaitingCity x). split; [left|].
  apply list_elem_of_lookup. exists i. assumption.
Qed.

Lemma city_worker_step_cache_inv (cache0 : gmap string value) (i : nat)
      (resp : result value) (s : loop) :
  cache_inv cache0 s -> cache_inv cache0 (worker_step i resp s).
Proof.
  intros Hinv. pose proof Hinv as (Hframe & Hkeep & Hfull & Hbusy).
  unfold worker_step.
  destruct (tasks s !! i) as [[|x|e]|] eqn:Hw; try assumption.
  - destruct (Queue.qsize _ <=? 0); [assumption|].
    destruct (Queue.get _) as [[x q]|]; [|assumption].
    destruct (Py.truthy (default VNone (_cached_cities (self s) !! x)))
      eqn:Hx.
    + unfold cache_inv.
      rewrite city_finish_cache, city_finish_calls.
      cbn [on_cached _cached_cities].
      split; [assumption|]. split; [assumption|]. split.
      * intros c d Hc Hd. destruct (Hfull c d Hc Hd) as (? & ? & Hnb).
        repeat split; try assumption. intros Hin. apply Hnb.
        eapply city_finish_busy_elem; eassumption.
      * intros c Hc. apply Hbusy.
        eapply city_finish_busy_elem; eassumption.
    + unfold cache_inv. cbn [self tasks calls _cached_cities].
      split; [|split; [assumption|split]].
      * intros c Hc. apply Hframe. intros Hin. apply Hc.
        apply elem_of_app. left. assumption.
      * intros c d Hc Hd. destruct (Hfull c d Hc Hd) as (Hcache & Hnc & Hnb).
        assert (x <> c) as Hne.
        { intros ->. rewrite Hcache in Hx.
          change (default VNone (Some d)) with d in Hx.
          rewrite Hd in Hx. discriminate Hx. }
        repeat split; [assumption| |].
        -- intros Hin. apply elem_of_app in Hin as [Hin|Hin];
             [contradiction|].
           apply list_elem_of_singleton in Hin. congruence.
        -- intros Hin.
           apply (busy_names_insert_elem _ _ _ _ _ Hw) in Hin as [Hin|Hin];
             [|contradiction].
           apply list_elem_of_singleton in Hin. congruence.
      * intros c Hc. apply elem_of_app.
        apply (busy_names_insert_elem _ _ _ _ _ Hw) in Hc as [Hc|Hc];
          [right; assumption|left; apply Hbusy; assumption].
  - pose proof (busy_names_lookup _ _ _ Hw) as Hxb.
    pose proof (Hbusy x Hxb) as Hxc.
    destruct (resp ≫= _) as [city_dict|]; unfold cache_inv;
      rewrite city_finish_cache, city_finish_calls;
      cbn [on_success on_exception _cached_cities].
    + split; [|split; [|split]].
      * intros c Hc. rewrite lookup_insert_ne by congruence.
        apply Hframe. assumption.
      * intros c Hc. apply lookup_insert_is_Some.
        destruct (decide (x = c)); [left; assumption|right].
        split; [assumption|]. apply Hkeep. assumption.
      * intros c d Hc Hd. destruct (Hfull c d Hc Hd) as (Hcache & Hnc & Hnb).
        rewrite lookup_insert_ne by congruence.
        repeat split; try assumption. intros Hin. apply Hnb.
        eapply city_finish_busy_elem; eassumption.
      * intros c Hc. apply Hbusy.
        eapply city_finish_busy_elem; eassumption.
    + split; [assumption|]. split; [assumption|]. split.
      * intros c d Hc Hd. destruct (Hfull c d Hc Hd) as (? & ? & Hnb).
        repeat split; try assumption. intros Hin. apply Hnb.
        eapply city_finish_busy_elem; eassumption.
      * intros c Hc. apply Hbusy.
        eapply city_finish_busy_elem; eassumption.
Qed.

Lemma city_start_cache_inv (cities : list string) (p : CityParser) :
  cache_inv (_cached_cities p) (start cities (reset_results p)).
Proof.
  unfold cache_inv.
  cbn [start self tasks calls _cached_cities reset_results].
  rewrite city_busy_names_polling.
  split; [reflexivity|]. split; [trivial|]. split.
  - intros c d Hc _. repeat split; [assumption|apply not_elem_of_nil..].
  - intros c Hc. apply elem_of_nil in Hc. contradiction.
Qed.

(** *** The requests *)

Lemma city_worker_step_calls_inv (batch : list string)
      (cache0 : gmap string value) (i : nat) (resp : result value)
      (s : loop) :
  cache_inv cache0 s ->
  calls_inv batch cache0 s -> calls_inv batch cache0 (worker_step i resp s).
Proof.
  intros (Hframe & _) Hinv.
  pose proof Hinv as (taken & Hbatch & Hsub & Hexact).
  unfold worker_step.
  destruct (tasks s !! i) as [[|x|e]|] eqn:Hw; try assumption.
  - destruct (Queue.qsize _ <=? 0); [assumption|].
    destruct (Queue.get _) as [[x q]|] eqn:Hget; [|assumption].
    apply city_get_Some in Hget as [Hitems _].
    rewrite Hitems in Hbatch.
    assert (batch = (taken ++ [x]) ++ Queue.items q) as Hbatch'.
    { rewrite Hbatch, <- app_assoc. reflexivity. }
    assert (NoDup batch ->
            miss cache0 x
            = negb (Py.truthy (default VNone (_cached_cities (self s) !! x))))
      as Hmiss.
    { intros Hnd. unfold miss. rewrite Hframe; [reflexivity|].
      intros Hin. rewrite Hbatch in Hnd.
      apply NoDup_app in Hnd as (_ & Hdisj & _).
      apply (Hdisj x); [|left].
      eapply elem_of_sublist; eassumption. }
    destruct (Py.truthy (default VNone (_cached_cities (self s) !! x))).
    + exists (taken ++ [x]).
      rewrite city_finish_items, city_finish_calls.
      cbn [on_cached _queue]. split; [assumption|]. split.
      * apply sublist_inserts_r. assumption.
      * intros Hnd. rewrite filter_app, filter_cons_False, filter_nil,
          app_nil_r by (rewrite (Hmiss Hnd); discriminate).
        apply Hexact. assumption.
    + exists (taken ++ [x]). cbn [self calls _queue].
      split; [assumption|]. split.
      * apply sublist_app; [assumption|reflexivity].
      * intros Hnd. rewrite filter_app, filter_cons_True, filter_nil
          by (rewrite (Hmiss Hnd); reflexivity).
        rewrite (Hexact Hnd). reflexivity.
  - destruct (resp ≫= _); exists taken;
      rewrite city_finish_items, city_finish_calls;
      cbn [on_success on_exception _queue]; repeat split; assumption.
Qed.

Lemma city_start_calls_inv (cities : list string) (p : CityParser) :
  calls_inv cities (_cached_cities p) (start cities (reset_results p)).
Proof.
  exists []. cbn [start self calls _queue].
  rewrite CitiesFacts.city_put_all_spec. cbn [Queue.items Queue.new app].
  repeat split. apply sublist_nil_l.
Qed.

(** *** The call as a whole *)

Lemma city_worker_step_changed (cache0 : gmap string value) (i : nat)
      (resp : result value) (s : loop) :
  (forall c, _cached_cities (self s) !! c = cache0 !! c \/
             (is_Some (_results (self s) !! c) /\
              _cached_cities (self s) !! c = _results (self s) !! c)) ->
  forall c,
    _cached_cities (self (worker_step i resp s)) !! c = cache0 !! c \/
    (is_Some (_results (self (worker_step i resp s)) !! c) /\
     _cached_cities (self (worker_step i resp s)) !! c
     = _results (self (worker_step i resp s)) !! c).
Proof.
  intros H c. unfold worker_step.
  destruct (tasks s !! i) as [[|x|e]|]; try apply H.
  - destruct (Queue.qsize _ <=? 0); [apply H|].
    destruct (Queue.get _) as [[x q]|]; [|apply H].
    destruct (Py.truthy _) eqn:Hx; [|apply H].
    rewrite city_finish_cache, city_finish_results.
    cbn [on_cached _cached_cities _results].
    destruct (decide (x = c)) as [->|Hne].
    + right. rewrite lookup_insert_eq.
      apply CitiesFacts.truthy_default_Some in Hx.
      split; [eexists; reflexivity|exact Hx].
    + rewrite lookup_insert_ne by assumption. apply H.
  - destruct (resp ≫= _) as [city_dict|];
      rewrite city_finish_cache, city_finish_results;
      cbn [on_success on_exception _cached_cities _results]; [|apply H].
    destruct (decide (x = c)) as [->|Hne].
    + right. rewrite !lookup_insert_eq. split; [eexists|]; reflexivity.
    + rewrite !lookup_insert_ne by assumption. apply H.
Qed.

(** What holds when [_get_cities_info] returns. *)
Lemma city_get_cities_info_inv (cities : list string) (sched : schedule)
      (p : CityParser) out (s : loop) :
  _get_cities_info cities sched p = Some (out, s) ->
  out = Ok (_results (self s),
            {| cities_total := 0; cities_success := 0; cities_fail := 0;
               routes_fail_list := _cities_fail_list (self s) |}) /\
  Queue.joined (_queue (self s)) = true /\
  inv (reset_results p) cities s /\
  cache_inv (_cached_cities p) s /\
  calls_inv cities (_cached_cities p) s /\
  _results (self s) ⊆ _cached_cities (self s) /\
  (forall c, _cached_cities (self s) !! c = _cached_cities p !! c \/
             (is_Some (_results (self s) !! c) /\
              _cached_cities (self s) !! c = _results (self s) !! c)).
Proof.
  intros H. apply CitiesFacts.get_cities_info_returns in H as [Hloop ->].
  split; [reflexivity|].
  destruct (CitiesFacts.city_loop_invariant
              (fun s => inv (reset_results p) cities s /\
                        cache_inv (_cached_cities p) s /\
                        calls_inv cities (_cached_cities p) s /\
                        _results (self s) ⊆ _cached_cities (self s) /\
                        (forall c,
                            _cached_cities (self s) !! c
                            = _cached_cities p !! c \/
                            (is_Some (_results (self s) !! c) /\
                             _cached_cities (self s) !! c
                             = _results (self s) !! c)))
              ) with sched (start cities (reset_results p)) s
    as [HI J]; [| |exact Hloop|split; [exact J|exact HI]].
  - intros i resp s0 (H1 & H2 & H3 & H4 & H5).
    split; [apply city_worker_step_inv; assumption|].
    split; [apply city_worker_step_cache_inv; assumption|].
    split; [apply city_worker_step_calls_inv; assumption|].
    split; [apply CitiesFacts.worker_step_results_cached; assumption|].
    apply city_worker_step_changed; assumption.
  - split; [apply city_start_inv|].
    split; [apply (city_start_cache_inv cities p)|].
    split; [apply (city_start_calls_inv cities p)|].
    split; [apply CitiesFacts.start_results_cached|].
    intros c. left. reflexivity.
Qed.

(** X9: when [_get_cities_info] returns, every submitted name has
    exactly one outcome: the names split into the resolved ones, which
    are the keys of the returned dict, and the failed ones, which the
    call appends to the fail list of the instance, the list the report
    carries.  The success and fail counters of the instance grow by the
    two numbers, and every returned record is in the cache. *)
Theorem X9_every_city_is_resolved_or_failed
        (cities : list string) (sched : schedule) (p : CityParser) out
        (s : loop) :
  _get_cities_info cities sched p = Some (out, s) ->
  exists results report resolved fails,
    out = Ok (results, report) /\
    cities ≡ₚ resolved ++ fails /\
    (forall c, c ∈ resolved <-> is_Some (results !! c)) /\
    routes_fail_list report = _cities_fail_list p ++ fails /\
    _cities_fail_list (self s) = _cities_fail_list p ++ fails /\
    _cities_success (self s)
    = _cities_success p + Z.of_nat (length resolved) /\
    _cities_fail (self s) = _cities_fail p + Z.of_nat (length fails) /\
    results ⊆ _cached_cities (self s).
Proof.
  intros H.
  apply city_get_cities_info_inv in H
    as (-> & J & Hinv & _ & _ & Hsub & _).
  destruct (city_joined_idle _ _ _ Hinv J) as [Hitems Hbusy].
  destruct Hinv as [_ _ _ (resolved & fails & H1 & H2 & H3 & H4 & H5)].
  rewrite Hitems, Hbusy, !app_nil_r in H4.
  cbn [reset_results _cities_success _cities_fail _cities_fail_list]
    in H1, H2, H3.
  eexists _, _, resolved, fails.
  split; [reflexivity|]. cbn [routes_fail_list].
  do 6 (split; [assumption|]). assumption.
Qed.

(** X10: a call of [_get_cities_info] changes the cache only under
    names it sent a request for, which are submitted names that had no
    record or an empty one; what it writes there is the record it
    returns for the name.  It deletes no entry and leaves every
    non-empty record as it was. *)
Theorem X10_cache_changes_only_where_requested
        (cities : list string) (sched : schedule) (p : CityParser) out
        (s : loop) :
  _get_cities_info cities sched p = Some (out, s) ->
  (forall c,
      _cached_cities (self s) !! c <> _cached_cities p !! c ->
      c ∈ calls s /\ c ∈ cities /\ miss (_cached_cities p) c = true /\
      is_Some (_results (self s) !! c) /\
      _cached_cities (self s) !! c = _results (self s) !! c) /\
  (forall c, is_Some (_cached_cities p !! c) ->
             is_Some (_cached_cities (self s) !! c)) /\
  (forall c d, _cached_cities p !! c = Some d -> Py.truthy d = true ->
               _cached_cities (self s) !! c = Some d /\ c ∉ calls s).
Proof.
  intros H.
  apply city_get_cities_info_inv in H
    as (_ & J & Hinv & Hcache & Hcalls & _ & Hchanged).
  destruct (city_joined_idle _ _ _ Hinv J) as [Hitems _].
  destruct Hcache as (Hframe & Hkeep & Hfull & _).
  destruct Hcalls as (taken & Hbatch & Hsub & _).
  rewrite Hitems, app_nil_r in Hbatch. subst taken.
  split; [|split].
  - intros c Hc.
    assert (c ∈ calls s) as Hin.
    { destruct (decide (c ∈ calls s)) as [Hin|Hout]; [assumption|].
      contradiction Hc. apply Hframe. assumption. }
    split; [assumption|]. split; [eapply elem_of_sublist; eassumption|].
    split.
    + unfold miss.
      destruct (_cached_cities p !! c) as [d|] eqn:Hd; [|reflexivity].
      change (default VNone (Some d)) with d.
      destruct (Py.truthy d) eqn:Ht; [|reflexivity].
      destruct (Hfull c d Hd Ht) as (_ & Hout & _). contradiction.
    + destruct (Hchanged c) as [Heq|Hres]; [contradiction|assumption].
  - assumption.
  - intros c d Hc Hd. destruct (Hfull c d Hc Hd) as (? & ? & _).
    split; assumption.
Qed.

(** X11: the requests of a call of [_get_cities_info] are for submitted
    names, in the order of submission, at most one for each occurrence
    of a name; when no name is submitted twice they are exactly the
    names for which the cache held no record, or an empty one, when the
    call started. *)
Theorem X11_requests_are_the_cache_misses
        (cities : list string) (sched : schedule) (p : CityParser) out
        (s : loop) :
  _get_cities_info cities sched p = Some (out, s) ->
  calls s `sublist_of` cities /\
  (NoDup cities ->
   calls s = filter (fun c => miss (_cached_cities p) c = true) cities).
Proof.
  intros H.
  apply city_get_cities_info_inv in H as (_ & J & Hinv & _ & Hcalls & _).
  destruct (city_joined_idle _ _ _ Hinv J) as [Hitems _].
  destruct Hcalls as (taken & Hbatch & Hsub & Hexact).
  rewrite Hitems, app_nil_r in Hbatch. subst taken.
  split; assumption.
Qed.

(** X19: when no name is submitted twice, the outcomes of a call of
    [_get_cities_info] are disjoint: a name in the fail list has no
    entry in the returned dict and its cache entry is as it was before
    the call; a name in the returned dict is not in the fail list and
    the cache holds the returned record for it. *)
Theorem X19_failed_names_leave_no_trace
        (cities : list string) (sched : schedule) (p : CityParser) out
        (s : loop) :
  NoDup cities ->
  _get_cities_info cities sched p = Some (out, s) ->
  exists fails,
    _cities_fail_list (self s) = _cities_fail_list p ++ fails /\
    (forall c, c ∈ fails ->
               c ∈ cities /\
               _results (self s) !! c = None /\
               _cached_cities (self s) !! c = _cached_cities p !! c) /\
    (forall c d, _results (self s) !! c = Some d ->
                 c ∈ cities /\ (c ∉ fails) /\
                 _cached_cities (self s) !! c = Some d).
Proof.
  intros Hnd H.
  apply city_get_cities_info_inv in H
    as (_ & J & Hinv & _ & _ & Hsub & Hchanged).
  destruct (city_joined_idle _ _ _ Hinv J) as [Hitems Hbusy].
  destruct Hinv as [_ _ _ (resolved & fails & _ & _ & H3 & H4 & H5)].
  rewrite Hitems, Hbusy, !app_nil_r in H4.
  cbn [reset_results _cities_fail_list] in H3.
  rewrite H4 in Hnd. apply NoDup_app in Hnd as (_ & Hdisj & _).
  exists fails. split; [assumption|]. split.
  - intros c Hc.
    assert (_results (self s) !! c = None) as Hnone.
    { destruct (_results (self s) !! c) as [d|] eqn:Hd; [|reflexivity].
      assert (c ∈ resolved) as Hres
        by (apply H5; rewrite Hd; eexists; reflexivity).
      contradiction (Hdisj c Hres Hc). }
    split; [rewrite H4; apply elem_of_app; right; assumption|].
    split; [assumption|].
    destruct (Hchanged c) as [Heq|[[d Hd] _]]; [assumption|].
    rewrite Hnone in Hd. discriminate Hd.
  - intros c d Hd.
    assert (c ∈ resolved) as Hres
      by (apply H5; rewrite Hd; eexists; reflexivity).
    split; [rewrite H4; apply elem_of_app; left; assumption|].
    split; [apply Hdisj; assumption|].
    eapply lookup_weaken; eassumption.
Qed.

(** *** Reaching the join *)

Lemma city_worker_step_stutter (i : nat) (resp : result value) (s : loop) :
  enabled i s = false -> worker_step i resp s = s.
Proof.
  unfold enabled, worker_step.
  destruct (tasks s !! i) as [[|x|e]|]; try discriminate; try reflexivity.
  destruct (Queue.qsize _ <=? 0); [reflexivity|discriminate].
Qed.

Lemma city_remaining_insert (ws : list worker) (i : nat) (w w' : worker) :
  ws !! i = Some w ->
  exists n,
    sum_list_with remaining ws = (remaining w + n)%nat /\
    sum_list_with remaining (<[i := w']> ws) = (remaining w' + n)%nat.
Proof.
  intros Hw.
  exists (sum_list_with remaining (take i ws)
          + sum_list_with remaining (drop (S i) ws))%nat.
  assert (i < length ws)%nat as Hi by (eapply lookup_lt_Some; exact Hw).
  rewrite insert_take_drop by assumption.
  rewrite <- (take_drop_middle ws i w Hw) at 1.
  rewrite !sum_list_with_app. cbn [sum_list_with]. lia.
Qed.

Lemma city_finish_pending (i : nat) (w : worker) (p : CityParser)
      (s : loop) :
  tasks s !! i = Some w ->
  (pending (finish i p s) + remaining w
   = 2 * length (Queue.items (_queue p))
     + sum_list_with remaining (tasks s))%nat.
Proof.
  intros Hw. unfold pending, finish, Queue.task_done.
  destruct (Queue.unfinished_tasks (_queue p)) as [|m];
    cbn [self tasks _queue Queue.items];
    [ destruct (city_remaining_insert _ _ _ (Crashed ValueError) Hw)
        as (n & -> & ->)
    | destruct (city_remaining_insert _ _ _ Polling Hw) as (n & -> & ->) ];
    cbn [remaining]; lia.
Qed.

(** A resumption that does something brings the end of the batch
    nearer. *)
Lemma city_worker_step_pending (i : nat) (resp : result value) (s : loop) :
  enabled i s = true ->
  (pending (worker_step i resp s) < pending s)%nat.
Proof.
  unfold enabled, worker_step.
  destruct (tasks s !! i) as [[|x|e]|] eqn:Hw; try discriminate.
  - destruct (Queue.qsize _ <=? 0) eqn:Hsize; [discriminate|]. intros _.
    destruct (Queue.get _) as [[x q]|] eqn:Hget.
    + apply city_get_Some in Hget as [Hitems _].
      destruct (Py.truthy _).
      * pose proof (city_finish_pending i _ (on_cached x q (self s)) s Hw)
          as H.
        cbn [on_cached _queue remaining] in H.
        unfold pending at 2. rewrite Hitems. cbn [length]. lia.
      * unfold pending at 1. cbn [self tasks _queue].
        destruct (city_remaining_insert _ _ _ (AwaitingCity x) Hw)
          as (n & Hn & ->).
        unfold pending. rewrite Hitems, Hn. cbn [remaining length]. lia.
    + unfold Queue.get in Hget. unfold Queue.qsize in Hsize.
      destruct (Queue.items _); [discriminate Hsize|discriminate Hget].
  - intros _. destruct (resp ≫= _) as [city_dict|].
    + pose proof (city_finish_pending i _ (on_success x city_dict (self s))
                    s Hw) as H.
      cbn [on_success _queue remaining] in H. unfold pending at 2. lia.
    + pose proof (city_finish_pending i _ (on_exception x (self s)) s Hw)
        as H.
      cbn [on_exception _queue remaining] in H. unfold pending at 2. lia.
Qed.

Lemma city_busy_names_nil (ws : list worker) :
  sum_list_with remaining ws = 0%nat -> busy_names ws = [].
Proof.
  induction ws as [|w ws IH]; [reflexivity|].
  cbn [sum_list_with]. unfold busy_names. rewrite bind_cons.
  destruct w; cbn [remaining name_of]; intros H; try lia; apply IH; lia.
Qed.

Lemma city_pending_zero_joined (p0 : CityParser) (batch : list string)
      (s : loop) :
  inv p0 batch s -> pending s = 0%nat ->
  Queue.joined (_queue (self s)) = true.
Proof.
  intros [_ Hunf _ _]. unfold pending. intros H.
  unfold Queue.joined. rewrite Hunf, city_busy_names_nil by lia.
  destruct (Queue.items _); [reflexivity|cbn [length] in H; lia].
Qed.

Lemma city_busy_worker (ws : list worker) :
  busy_names ws <> [] -> exists i x, ws !! i = Some (AwaitingCity x).
Proof.
  induction ws as [|w ws IH]; [intros H; contradiction H; reflexivity|].
  unfold busy_names. rewrite bind_cons.
  destruct w as [|x|e]; cbn [name_of app].
  - intros H. destruct (IH H) as (i & x & Hi). exists (S i), x. exact Hi.
  - intros _. exists 0%nat, x. reflexivity.
  - intros H. destruct (IH H) as (i & x & Hi). exists (S i), x. exact Hi.
Qed.

(** Before the join, with at least one worker, some worker can go on. *)
Lemma city_exists_enabled (p0 : CityParser) (batch : list string)
      (s : loop) :
  inv p0 batch s ->
  tasks s <> [] ->
  Queue.joined (_queue (self s)) = false ->
  exists i, enabled i s = true.
Proof.
  intros [Halive Hunf _ _] Hne J. unfold enabled.
  destruct (busy_names (tasks s)) as [|x busy] eqn:Hbusy.
  - destruct (tasks s) as [|w ws] eqn:Hws; [contradiction Hne; reflexivity|].
    exists 0%nat. cbn [lookup list_lookup].
    apply Forall_cons in Halive as [Hw _].
    unfold busy_names in Hbusy. rewrite bind_cons in Hbusy.
    apply app_eq_nil in Hbusy as [Hname _].
    destruct w; try discriminate Hname; try contradiction Hw.
    unfold Queue.joined in J. rewrite Hunf in J. unfold Queue.qsize.
    destruct (Queue.items _); [discriminate J|reflexivity].
  - destruct (city_busy_worker (tasks s)) as (i & x' & Hi).
    { rewrite Hbusy. discriminate. }
    exists i. rewrite Hi. reflexivity.
Qed.

Lemma city_worker_step_tasks_length (i : nat) (resp : result value)
      (s : loop) :
  length (tasks (worker_step i resp s)) = length (tasks s).
Proof.
  unfold worker_step, finish.
  repeat match goal with
         | |- context [match ?x with _ => _ end] => destruct x
         end;
    cbn [tasks]; rewrite ?length_insert; reflexivity.
Qed.

(** With at least one worker, whatever the site answers to the
    successive requests, some order of resumption reaches the join. *)
Lemma city_some_schedule_returns (p0 : CityParser) (batch : list string)
      (n : nat) :
  forall (s : loop) (net : nat -> result value),
    inv p0 batch s ->
    tasks s <> [] ->
    (pending s <= n)%nat ->
    exists sched : schedule,
      (forall k step, sched !! k = Some step -> step.2 = net k) /\
      is_Some (event_loop sched s).
Proof.
  induction n as [|n IH]; intros s net Hinv Hne Hle.
  - exists []. split; [intros k step H; discriminate H|].
    cbn [event_loop].
    rewrite (city_pending_zero_joined p0 batch s Hinv) by lia.
    eexists. reflexivity.
  - destruct (Queue.joined (_queue (self s))) eqn:J.
    + exists []. split; [intros k step H; discriminate H|].
      cbn [event_loop]. rewrite J. eexists. reflexivity.
    + destruct (city_exists_enabled p0 batch s Hinv Hne J) as [i Hi].
      destruct (IH (worker_step i (net 0%nat) s) (fun k => net (S k)))
        as (sched & Hnet & Hret).
      * apply city_worker_step_inv. assumption.
      * intros H. apply Hne. apply length_zero_iff_nil.
        rewrite <- (city_worker_step_tasks_length i (net 0%nat) s), H.
        reflexivity.
      * pose proof (city_worker_step_pending i (net 0%nat) s Hi). lia.
      * exists ((i, net 0%nat) :: sched). split.
        -- intros [|k] step H; [injection H as <-; reflexivity|].
           apply Hnet. exact H.
        -- cbn [event_loop]. rewrite J. exact Hret.
Qed.

(** A schedule that does not reach the join leaves the queue with
    unfinished tasks. *)
Lemma city_event_loop_None (sched : schedule) (s : loop) :
  event_loop sched s = None ->
  Queue.joined (_queue (self (run sched s))) = false.
Proof.
  revert s. induction sched as [|[i resp] sched IH]; intros s;
    cbn [event_loop]; destruct (Queue.joined (_queue (self s))) eqn:J;
    try discriminate.
  - intros _. exact J.
  - intros H. apply IH in H. exact H.
Qed.

(** Without workers nothing ever happens. *)
Lemma city_no_worker_no_step (sched : schedule) (s : loop) :
  tasks s = [] -> run sched s = s.
Proof.
  intros Hnil. unfold run.
  induction sched as [|[i resp] sched IH]; [reflexivity|].
  cbn [fold_left]. unfold worker_step at 2. rewrite Hnil.
  cbn [lookup list_lookup]. exact IH.
Qed.

Lemma city_event_loop_stuck (sched : schedule) (s : loop) :
  tasks s = [] -> Queue.joined (_queue (self s)) = false ->
  event_loop sched s = None.
Proof.
  intros Hnil J. induction sched as [|[i resp] sched IH];
    cbn [event_loop]; rewrite J; [reflexivity|].
  unfold worker_step. rewrite Hnil. cbn [lookup list_lookup]. exact IH.
Qed.

Lemma city_start_workers (cities : list string) (p : CityParser) :
  cities <> [] ->
  (tasks (start cities p) <> [] <-> 0 < _thread_limit p).
Proof.
  intros Hne. cbn [start tasks]. unfold range.
  assert (0 < length cities)%nat
    by (destruct cities; [contradiction|cbn; lia]).
  rewrite <- length_zero_iff_nil, length_map, length_seq. lia.
Qed.

(** X12: a call of [_get_cities_info] with at least one name returns
    exactly when the thread limit is positive.  With a positive limit,
    whatever the site answers to the successive requests, some order of
    resumption of the workers reaches the join, and every schedule after
    which no worker can go on has reached it; with a limit of zero or
    less no worker is created and the join never returns. *)
Theorem X12_city_parsing_needs_a_worker
        (cities : list string) (p : CityParser) :
  cities <> [] ->
  (0 < _thread_limit p ->
   (forall net : nat -> result value,
       exists sched : schedule,
         (forall k step, sched !! k = Some step -> step.2 = net k) /\
         is_Some (_get_cities_info cities sched p)) /\
   (forall sched : schedule,
       (forall i,
           enabled i (run sched (start cities (reset_results p))) = false) ->
       is_Some (_get_cities_info cities sched p))) /\
  (_thread_limit p <= 0 ->
   forall sched : schedule, _get_cities_info cities sched p = None).
Proof.
  intros Hne.
  assert (forall sched,
             is_Some (event_loop sched (start cities (reset_results p))) ->
             is_Some (_get_cities_info cities sched p)) as Hret.
  { intros sched [s Hs]. unfold _get_cities_info, _run_city_parsing.
    rewrite Hs. eexists. reflexivity. }
  pose proof (city_start_workers cities (reset_results p) Hne) as Hworkers.
  cbn [reset_results _thread_limit] in Hworkers.
  split.
  - intros Hlimit. apply Hworkers in Hlimit. split.
    + intros net.
      destruct (city_some_schedule_returns (reset_results p) cities
                  (pending (start cities (reset_results p)))
                  (start cities (reset_results p)) net)
        as (sched & Hnet & Hsome);
        [apply city_start_inv|assumption|lia|].
      exists sched. split; [assumption|]. apply Hret. assumption.
    + intros sched Hquiet. apply Hret.
      destruct (event_loop sched _) as [s|] eqn:Hloop;
        [eexists; reflexivity|].
      apply city_event_loop_None in Hloop.
      destruct (city_exists_enabled (reset_results p) cities
                  (run sched (start cities (reset_results p))))
        as [i Hi]; [| |assumption|].
      * apply city_run_invariant;
          [intros; apply city_worker_step_inv; assumption
          |apply city_start_inv].
      * intros Hnil. apply Hlimit. apply length_zero_iff_nil.
        apply length_zero_iff_nil in Hnil. rewrite <- Hnil.
        clear. unfold run.
        generalize (start cities (reset_results p)).
        induction sched as [|[i resp] sched IH]; intros s;
          [reflexivity|].
        cbn [fold_left].
        change (fold_left _ sched ?x) with (run sched x).
        unfold run in IH.
        rewrite <- (city_worker_step_tasks_length i resp s). apply IH.
      * rewrite Hquiet in Hi. discriminate Hi.
  - intros Hlimit sched. unfold _get_cities_info, _run_city_parsing.
    rewrite city_event_loop_stuck; [reflexivity| |].
    + destruct (tasks (start cities (reset_results p))) eqn:Ht;
        [reflexivity|].
      assert (0 < _thread_limit p); [|lia].
      apply Hworkers. discriminate.
    + cbn [start self _queue]. rewrite CitiesFacts.city_put_all_spec.
      destruct cities; [contradiction|reflexivity].
Qed.

(** *** The extraction of a record *)

Lemma extract_loop_Ok (items : list value) (city_name : string)
      (acc res : list (string * value)) :
  extract_loop items city_name acc = Ok res -> Forall is_dict items.
Proof.
  revert acc. induction items as [|item rest IH]; intros acc;
    [constructor|].
  cbn [extract_loop].
  destruct item; cbn [Py.get mbind result_bind]; try discriminate.
  intros H. constructor; [exact I|].
  destruct (negb _); eapply IH; exact H.
Qed.

(** X13: [_extract_city_dict] returns exactly when the response is an
    object whose [data] is a non-empty list of objects, and then it
    returns the record of the last candidate named as asked, or the
    empty dict when there is none; on every other response (not an
    object, no [data], [data] empty, null, a string, a number or an
    object, or a candidate that is not an object) it raises. *)
Theorem X13_extract_city_dict_returns_iff
        (city_data : value) (city_name : string) (city_dict : value) :
  _extract_city_dict city_data city_name = Ok city_dict <->
  exists items,
    is_dict city_data /\
    field city_data "data" = VList items /\
    items <> [] /\
    Forall is_dict items /\
    city_dict = match list.last (matching city_name items) with
                | Some item => city_record city_name item
                | None => VDict []
                end.
Proof.
  split.
  - unfold _extract_city_dict.
    destruct city_data as [| | | | | |d]; try discriminate.
    cbn [Py.get mbind result_bind].
    destruct (default VNone (Py.lookup "data" d)) as [| | | | |items|d']
      eqn:Hdata; cbn [Py.truthy Py.iter negb mbind result_bind];
      try discriminate.
    + destruct b; discriminate.
    + destruct (z =? 0); discriminate.
    + destruct f; discriminate.
    + destruct s as [|a s]; cbn; discriminate.
    + destruct items as [|item rest]; [discriminate|]. cbn [negb].
      destruct (extract_loop _ _ _) as [res|] eqn:Hloop; [|discriminate].
      pose proof (extract_loop_Ok _ _ _ _ Hloop) as Hd.
      rewrite CitiesFacts.extract_loop_spec in Hloop by assumption.
      injection Hloop as <-.
      cbn [mbind result_bind mret result_ret]. intros [= <-].
      exists (item :: rest). split; [exact I|].
      split; [exact Hdata|]. split; [discriminate|].
      split; [assumption|].
      destruct (list.last _); reflexivity.
    + destruct d' as [|[k v] d']; [discriminate|]. cbn. discriminate.
  - intros (items & Hd & Hdata & Hne & Hitems & ->).
    apply CitiesFacts.extract_city_dict_spec; [|assumption..].
    rewrite CitiesFacts.get_dict by assumption. f_equal. assumption.
Qed.

(** *** On a sample batch *)

Lemma two_names_NoDup : NoDup ["Moscow"; "Atlantis"].
Proof.
  apply NoDup_cons. split.
  - intros Hin. apply list_elem_of_singleton in Hin. discriminate Hin.
  - apply NoDup_singleton.
Qed.

(** X9 on a fresh parser and two names, one of which fails. *)
Lemma X9_every_city_is_resolved_or_failed_witness :
  match _get_cities_info ["Moscow"; "Atlantis"] two_cities_schedule
          (__init__ ∅ 10)
  with
  | Some (out, s) =>
      exists results report resolved fails,
        out = Ok (results, report) /\
        ["Moscow"; "Atlantis"] ≡ₚ resolved ++ fails /\
        (forall c, c ∈ resolved <-> is_Some (results !! c)) /\
        routes_fail_list report = [] ++ fails /\
        _cities_fail_list (self s) = [] ++ fails /\
        _cities_success (self s) = 0 + Z.of_nat (length resolved) /\
        _cities_fail (self s) = 0 + Z.of_nat (length fails) /\
        results ⊆ _cached_cities (self s)
  | None => False
  end.
Proof.
  destruct (_get_cities_info _ _ _) as [[out s]|] eqn:H;
    [|vm_compute in H; discriminate H].
  exact (X9_every_city_is_resolved_or_failed _ _ _ _ _ H).
Defined.

(** X10 on the same call. *)
Lemma X10_cache_changes_only_where_requested_witness :
  match _get_cities_info ["Moscow"; "Atlantis"] two_cities_schedule
          (__init__ ∅ 10)
  with
  | Some (out, s) =>
      forall c,
        _cached_cities (self s) !! c <> None ->
        c ∈ calls s /\ c ∈ ["Moscow"; "Atlantis"] /\
        _cached_cities (self s) !! c = _results (self s) !! c
  | None => False
  end.
Proof.
  destruct (_get_cities_info _ _ _) as [[out s]|] eqn:H;
    [|vm_compute in H; discriminate H].
  intros c Hc.
  destruct (proj1 (X10_cache_changes_only_where_requested _ _ _ _ _ H) c)
    as (H1 & H2 & _ & _ & H3).
  - exact Hc.
  - repeat split; assumption.
Defined.

(** X11 on the same call: both names are requested, in order. *)
Lemma X11_requests_are_the_cache_misses_witness :
  match _get_cities_info ["Moscow"; "Atlantis"] two_cities_schedule
          (__init__ ∅ 10)
  with
  | Some (out, s) => calls s = ["Moscow"; "Atlantis"]
  | None => False
  end.
Proof.
  destruct (_get_cities_info _ _ _) as [[out s]|] eqn:H;
    [|vm_compute in H; discriminate H].
  exact (proj2 (X11_requests_are_the_cache_misses _ _ _ _ _ H)
           two_names_NoDup).
Defined.

(** X12 on one name and a thread limit of zero: the call does not
    return. *)
Lemma X12_city_parsing_needs_a_worker_witness :
  _get_cities_info ["Moscow"] two_cities_schedule (__init__ ∅ 0) = None.
Proof.
  apply (X12_city_parsing_needs_a_worker ["Moscow"] (__init__ ∅ 0));
    [discriminate|cbn; lia].
Defined.

(** X19 on a fresh parser and two names, one of which fails. *)
Lemma X19_failed_names_leave_no_trace_witness :
  match _get_cities_info ["Moscow"; "Atlantis"] two_cities_schedule
          (__init__ ∅ 10)
  with
  | Some (out, s) =>
      exists fails,
        _cities_fail_list (self s) = [] ++ fails /\
        (forall c, c ∈ fails ->
                   c ∈ ["Moscow"; "Atlantis"] /\
                   _results (self s) !! c = None /\
                   _cached_cities (self s) !! c = None) /\
        (forall c d, _results (self s) !! c = Some d ->
                     c ∈ ["Moscow"; "Atlantis"] /\ (c ∉ fails) /\
                     _cached_cities (self s) !! c = Some d)
  | None => False
  end.
Proof.
  destruct (_get_cities_info _ _ _) as [[out s]|] eqn:H;
    [|vm_compute in H; discriminate H].
  exact (X19_failed_names_leave_no_trace _ _ _ _ _ two_names_NoDup H).
Defined.

End CitiesRunsFacts.

(** ** The interface *)

Module InterfaceFacts.
Import Interface.

Section Facts.

Context {K : Type} `{Countable K}.
Variable UUID_init : value -> result UUID.
Variable validate_str : value -> result string.
Variable validate_number : value -> result number.

Local Abbreviation city_uuid := (Interface.city_uuid UUID_init).
Local Abbreviation endpoints := (Interface.endpoints UUID_init).
Local Abbreviation requests_of := (Interface.requests_of UUID_init).
Local Abbreviation route_step := (Interface.route_step UUID_init).
Local Abbreviation _prepare_cargo_requests :=
  (Interface._prepare_cargo_requests UUID_init).

Implicit Types self : MainTokenCargoInterFace (K := K).

Lemma with_lists_self self :
  with_lists (_cargo_requests self) (_route_errors self) self = self.
Proof. destruct self. reflexivity. Qed.

Lemma packages_loop_with_lists self rq er su sc ru rc items requests :
  packages_loop (with_lists rq er self) su sc ru rc items requests
  = packages_loop self su sc ru rc items requests.
Proof.
  revert requests. induction items as [|[key package] rest IH];
    intros requests; [reflexivity|].
  cbn [packages_loop with_lists additional_services].
  destruct (additional_services self !! key); [|reflexivity].
  apply IH.
Qed.

(** The loop over the packages appends a request for each package up
    to the first key without additional services. *)
Lemma packages_loop_served self su sc ru rc pre rest requests :
  Forall (served self) pre ->
  packages_loop self su sc ru rc (pre ++ rest) requests
  = packages_loop self su sc ru rc rest
      (requests
       ++ omap (fun item : K * Package.t =>
                  new_request self su sc ru rc item.2
                  <$> additional_services self !! item.1) pre).
Proof.
  intros Hpre. revert requests.
  induction Hpre as [|[key package] pre [add Hadd] _ IH]; intros requests.
  - cbn [app omap list_omap]. rewrite app_nil_r. reflexivity.
  - cbn [app packages_loop omap list_omap fst snd] in *.
    rewrite Hadd. cbn [fmap option_fmap option_map].
    rewrite IH, <- app_assoc. reflexivity.
Qed.

(** A dict of packages splits into the packages that get a request and
    the rest, which is empty or starts with a key without additional
    services. *)
Lemma packages_split self (items : list (K * Package.t)) :
  exists pre rest,
    items = pre ++ rest /\ Forall (served self) pre /\
    (rest = [] \/
     exists item post,
       rest = item :: post /\ additional_services self !! item.1 = None).
Proof.
  induction items as [|item items (pre & rest & -> & Hpre & Hrest)].
  - exists [], []. split; [reflexivity|]. split; [constructor|].
    left. reflexivity.
  - destruct (additional_services self !! item.1) as [add|] eqn:Hadd.
    + exists (item :: pre), rest. split; [reflexivity|].
      split; [|assumption].
      constructor; [|assumption]. exists add. assumption.
    + exists [], (item :: pre ++ rest). split; [reflexivity|].
      split; [constructor|]. right. exists item, (pre ++ rest).
      split; [reflexivity|assumption].
Qed.

Lemma route_step_bad self rq er route :
  endpoints self route = None ->
  route_step (with_lists rq er self) route
  = with_lists rq (er ++ [route]) self.
Proof.
  destruct route as [sender_city receiver_city].
  unfold Interface.endpoints, Interface.route_step. cbn [fst snd].
  change (Interface.city_uuid UUID_init (with_lists rq er self))
    with (city_uuid self).
  destruct (city_uuid self sender_city) as [su|];
    cbn [mbind result_bind]; [|reflexivity].
  destruct (city_uuid self receiver_city) as [ru|];
    cbn [mbind result_bind]; [discriminate|reflexivity].
Qed.

Lemma route_step_good self rq er route su ru :
  endpoints self route = Some (su, ru) ->
  route_step (with_lists rq er self) route
  = match packages_loop self su route.1 ru route.2 (packages self) rq with
    | (requests, Ok _) => with_lists requests er self
    | (requests, Raise _) => with_lists requests (er ++ [route]) self
    end.
Proof.
  destruct route as [sender_city receiver_city].
  unfold Interface.endpoints, Interface.route_step. cbn [fst snd].
  change (Interface.city_uuid UUID_init (with_lists rq er self))
    with (city_uuid self).
  destruct (city_uuid self sender_city) as [su'|];
    cbn [mbind result_bind]; [|discriminate].
  destruct (city_uuid self receiver_city) as [ru'|];
    cbn [mbind result_bind mret result_ret]; [|discriminate].
  intros [= -> ->].
  rewrite packages_loop_with_lists.
  cbn [with_lists packages _cargo_requests].
  destruct (packages_loop _ _ _ _ _ _ _) as [requests [[]|e]]; reflexivity.
Qed.

Lemma requests_of_bad self items route :
  endpoints self route = None -> requests_of self items route = [].
Proof. unfold Interface.requests_of. intros ->. reflexivity. Qed.

(** Every package has additional services: a route gets its requests or
    is refused as a whole. *)
Lemma prepare_all_served self (routes : list (string * string)) rq er :
  Forall (served self) (packages self) ->
  fold_left route_step routes (with_lists rq er self)
  = with_lists
      (rq ++ routes ≫= requests_of self (packages self))
      (er ++ filter (fun route => ~ is_Some (endpoints self route)) routes)
      self.
Proof.
  intros Hserved. revert rq er.
  induction routes as [|route routes IH]; intros rq er.
  - cbn [fold_left]. rewrite filter_nil, !app_nil_r. reflexivity.
  - cbn [fold_left]. rewrite bind_cons.
    destruct (endpoints self route) as [[su ru]|] eqn:Hends.
    + rewrite (route_step_good self rq er route su ru Hends).
      rewrite <- (app_nil_r (packages self)) at 1.
      rewrite packages_loop_served by assumption.
      cbn [packages_loop]. rewrite IH.
      rewrite filter_cons_False
        by (cbv beta; rewrite Hends; intros Hn; apply Hn; eexists; reflexivity).
      unfold Interface.requests_of at 2. rewrite Hends.
      rewrite <- app_assoc. reflexivity.
    + rewrite (route_step_bad self rq er route Hends), IH.
      rewrite filter_cons_True
        by (cbv beta; rewrite Hends; intros [x Hx]; discriminate Hx).
      rewrite (requests_of_bad self _ route Hends).
      rewrite <- app_assoc. reflexivity.
Qed.

(** A key of the packages has no additional services: every route is
    refused, after the requests for the packages before that key were
    appended. *)
Lemma prepare_some_missing self (routes : list (string * string)) rq er
      (pre post : list (K * Package.t)) (item : K * Package.t) :
  packages self = pre ++ item :: post ->
  Forall (served self) pre ->
  additional_services self !! item.1 = None ->
  fold_left route_step routes (with_lists rq er self)
  = with_lists (rq ++ routes ≫= requests_of self pre) (er ++ routes) self.
Proof.
  intros Hsplit Hpre Hmiss. revert rq er.
  induction routes as [|route routes IH]; intros rq er.
  - cbn [fold_left]. rewrite !app_nil_r. reflexivity.
  - cbn [fold_left]. rewrite bind_cons.
    destruct (endpoints self route) as [[su ru]|] eqn:Hends.
    + rewrite (route_step_good self rq er route su ru Hends).
      rewrite Hsplit, packages_loop_served by assumption.
      destruct item as [key package]. cbn [packages_loop fst] in *.
      rewrite Hmiss, IH.
      unfold Interface.requests_of at 2. rewrite Hends.
      rewrite <- !app_assoc. reflexivity.
    + rewrite (route_step_bad self rq er route Hends), IH.
      rewrite (requests_of_bad self _ route Hends).
      rewrite <- !app_assoc. reflexivity.
Qed.

Lemma prepare_unfold self :
  _prepare_cargo_requests self
  = fold_left route_step (routes_to_parse self)
      (with_lists (_cargo_requests self) (_route_errors self) self).
Proof.
  unfold Interface._prepare_cargo_requests. rewrite with_lists_self.
  reflexivity.
Qed.

Lemma requests_of_elem self (items : list (K * Package.t))
      (route : string * string) (req : RequestForCargo.t) :
  req ∈ requests_of self items route <->
  exists item add su ru,
    item ∈ items /\ additional_services self !! item.1 = Some add /\
    endpoints self route = Some (su, ru) /\
    req = new_request self su route.1 ru route.2 item.2 add.
Proof.
  unfold Interface.requests_of.
  destruct (endpoints self route) as [[su ru]|].
  - rewrite list_elem_of_omap. split.
    + intros (item & Hitem & Hreq).
      destruct (additional_services self !! item.1) as [add|] eqn:Hadd;
        [|discriminate].
      injection Hreq as <-. exists item, add, su, ru.
      repeat split; assumption.
    + intros (item & add & su' & ru' & Hitem & Hadd & [= <- <-] & ->).
      exists item. split; [assumption|]. rewrite Hadd. reflexivity.
  - split; [intros Hin; apply elem_of_nil in Hin; contradiction|].
    intros (item & add & su & ru & _ & _ & Hends & _). discriminate.
Qed.

(** X14: [_prepare_cargo_requests] only appends to the two lists of the
    instance.  Every request it appends is for a route of
    [routes_to_parse] whose two cities have a cache record with a valid
    [city_uid] and for a package of [packages] whose key has additional
    services; it carries these ids, names, package and services and the
    settings of the instance, has no service id, and has exactly one
    package.  Every error it records is a route of [routes_to_parse], in
    order; a route with a city that has no usable record is recorded;
    and a route that is not recorded got a request for every package. *)
Theorem X14_prepared_requests
        (self : MainTokenCargoInterFace (K := K)) :
  exists new errs,
    _prepare_cargo_requests self
    = with_lists (_cargo_requests self ++ new) (_route_errors self ++ errs)
                 self /\
    errs `sublist_of` routes_to_parse self /\
    (forall route,
        route ∈ routes_to_parse self -> endpoints self route = None ->
        route ∈ errs) /\
    Forall (fun req =>
              (exists route item add su ru,
                  route ∈ routes_to_parse self /\
                  item ∈ packages self /\
                  additional_services self !! item.1 = Some add /\
                  endpoints self route = Some (su, ru) /\
                  req = new_request self su route.1 ru route.2 item.2 add)
              /\ RequestForCargo.service_id req = None
              /\ is_Ok (RequestForServiceId.of_cargo req) = true)
           new /\
    (forall route item,
        route ∈ routes_to_parse self -> route ∉ errs ->
        item ∈ packages self ->
        exists req,
          req ∈ new /\
          RequestForCargo.sender_city_name req = route.1 /\
          RequestForCargo.receiver_city_name req = route.2 /\
          RequestForCargo.packages req = [item.2]).
Proof.
  assert (forall pre,
             (forall item, item ∈ pre -> item ∈ packages self) ->
             Forall (fun req =>
                       (exists route item add su ru,
                           route ∈ routes_to_parse self /\
                           item ∈ packages self /\
                           additional_services self !! item.1 = Some add /\
                           endpoints self route = Some (su, ru) /\
                           req = new_request self su route.1 ru route.2
                                   item.2 add)
                       /\ RequestForCargo.service_id req = None
                       /\ is_Ok (RequestForServiceId.of_cargo req) = true)
                    (routes_to_parse self ≫= requests_of self pre))
    as Hsound.
  { intros pre Hsub. apply Forall_forall. intros req Hreq.
    apply list_elem_of_bind in Hreq as (route & Hreq & Hroute).
    apply requests_of_elem in Hreq
      as (item & add & su & ru & Hitem & Hadd & Hends & ->).
    split; [|split; reflexivity].
    exists route, item, add, su, ru. repeat split; auto. }
  destruct (packages_split self (packages self))
    as (pre & rest & Hsplit & Hpre & [->|(item & post & -> & Hmiss)]).
  - rewrite app_nil_r in Hsplit. subst pre.
    eexists _, _. split.
    { rewrite prepare_unfold. apply prepare_all_served. assumption. }
    split; [apply sublist_filter|]. split; [|split].
    + intros route Hroute Hends. apply list_elem_of_filter.
      split; [|assumption]. rewrite Hends. intros [x Hx]. discriminate Hx.
    + apply Hsound. auto.
    + intros route item Hroute Hout Hitem.
      destruct (endpoints self route) as [[su ru]|] eqn:Hends.
      * pose proof (proj1 (Forall_forall _ _) Hpre item Hitem)
          as [add Hadd].
        exists (new_request self su route.1 ru route.2 item.2 add).
        split; [|repeat split].
        apply list_elem_of_bind. exists route. split; [|assumption].
        apply requests_of_elem. exists item, add, su, ru.
        repeat split; assumption.
      * contradiction Hout. apply list_elem_of_filter.
        split; [|assumption]. rewrite Hends. intros [x Hx].
        discriminate Hx.
  - eexists _, _. split.
    { rewrite prepare_unfold.
      apply (prepare_some_missing self _ _ _ pre post item);
        assumption. }
    split; [reflexivity|]. split; [|split].
    + intros route Hroute _. assumption.
    + apply Hsound. intros x Hx. rewrite Hsplit.
      apply elem_of_app. left. assumption.
    + intros route x Hroute Hout _. contradiction.
Qed.

(** X15: when every key of [packages] has additional services,
    [_prepare_cargo_requests] appends, for each route whose two cities
    have a usable cache record, one request for each package, in the
    order of the routes and of the packages, and records exactly the
    other routes as errors; so the number of new requests is the number
    of routes not recorded times the number of packages. *)
Theorem X15_requests_for_every_package
        (self : MainTokenCargoInterFace (K := K)) :
  Forall (served self) (packages self) ->
  _cargo_requests (_prepare_cargo_requests self)
  = _cargo_requests self
    ++ routes_to_parse self ≫= requests_of self (packages self) /\
  _route_errors (_prepare_cargo_requests self)
  = _route_errors self
    ++ filter (fun route => ~ is_Some (endpoints self route))
         (routes_to_parse self) /\
  (length (_cargo_requests (_prepare_cargo_requests self))
   + length (_route_errors (_prepare_cargo_requests self))
     * length (packages self)
   = length (_cargo_requests self)
     + (length (_route_errors self) + length (routes_to_parse self))
       * length (packages self))%nat.
Proof.
  intros Hserved. rewrite prepare_unfold, prepare_all_served by assumption.
  cbn [with_lists _cargo_requests _route_errors].
  split; [reflexivity|]. split; [reflexivity|].
  rewrite !length_app.
  assert (forall routes : list (string * string),
             (length (routes ≫= requests_of self (packages self))
              + length (filter (fun route => ~ is_Some (endpoints self route))
                               routes) * length (packages self)
              = length routes * length (packages self))%nat) as Hcount.
  { induction routes as [|route routes IH]; [reflexivity|].
    rewrite bind_cons, length_app.
    destruct (endpoints self route) as [[su ru]|] eqn:Hends.
    - rewrite filter_cons_False
        by (cbv beta; rewrite Hends; intros Hn; apply Hn; eexists; reflexivity).
      assert (length (requests_of self (packages self) route)
              = length (packages self)) as ->.
      { unfold Interface.requests_of. rewrite Hends.
        clear -Hserved.
        induction Hserved as [|item items [add Hadd] _ IH];
          [reflexivity|].
        cbn [omap list_omap]. rewrite Hadd.
        cbn [fmap option_fmap option_map length]. f_equal. exact IH. }
      cbn [length]. lia.
    - rewrite filter_cons_True
        by (cbv beta; rewrite Hends; intros [x Hx]; discriminate Hx).
      rewrite (requests_of_bad self _ route Hends).
      cbn [length]. lia. }
  specialize (Hcount (routes_to_parse self)). nia.
Qed.

(** X16: when a key of [packages] has no additional services,
    [_prepare_cargo_requests] records every route as an error, and still
    appends, for each route whose two cities have a usable cache record,
    one request for each package that comes before that key: such a
    route is both recorded as not processed and sent to the parser. *)
Theorem X16_missing_services_refuse_every_route
        (self : MainTokenCargoInterFace (K := K))
        (pre post : list (K * Package.t)) (item : K * Package.t) :
  packages self = pre ++ item :: post ->
  Forall (served self) pre ->
  additional_services self !! item.1 = None ->
  _route_errors (_prepare_cargo_requests self)
  = _route_errors self ++ routes_to_parse self /\
  _cargo_requests (_prepare_cargo_requests self)
  = _cargo_requests self ++ routes_to_parse self ≫= requests_of self pre /\
  (forall route,
      route ∈ routes_to_parse self ->
      is_Some (endpoints self route) ->
      length (requests_of self pre route) = length pre /\
      forall req,
        req ∈ requests_of self pre route ->
        req ∈ _cargo_requests (_prepare_cargo_requests self)).
Proof.
  intros Hsplit Hpre Hmiss.
  rewrite prepare_unfold,
    (prepare_some_missing self _ _ _ pre post item Hsplit Hpre Hmiss).
  cbn [with_lists _cargo_requests _route_errors].
  split; [reflexivity|]. split; [reflexivity|].
  intros route Hroute [[su ru] Hends]. split.
  - unfold Interface.requests_of. rewrite Hends.
    clear -Hpre.
    induction Hpre as [|x items [add Hadd] _ IH]; [reflexivity|].
    cbn [omap list_omap]. rewrite Hadd.
    cbn [fmap option_fmap option_map length]. f_equal. exact IH.
  - intros req Hreq. apply elem_of_app. right.
    apply list_elem_of_bind. exists route. split; assumption.
Qed.

(** *** From the interface to the parser *)

Lemma prepare_requests_sound (self : MainTokenCargoInterFace (K := K)) :
  exists new,
    _cargo_requests (_prepare_cargo_requests self)
    = _cargo_requests self ++ new /\
    Forall (fun req =>
              exists route item add su ru,
                route ∈ routes_to_parse self /\
                item ∈ packages self /\
                req = new_request self su route.1 ru route.2 item.2 add)
           new.
Proof.
  assert (forall pre,
             (forall item, item ∈ pre -> item ∈ packages self) ->
             Forall (fun req =>
                       exists route item add su ru,
                         route ∈ routes_to_parse self /\
                         item ∈ packages self /\
                         req = new_request self su route.1 ru route.2
                                 item.2 add)
                    (routes_to_parse self ≫= requests_of self pre))
    as Hsound.
  { intros pre Hsub. apply Forall_forall. intros req Hreq.
    apply list_elem_of_bind in Hreq as (route & Hreq & Hroute).
    apply requests_of_elem in Hreq
      as (item & add & su & ru & Hitem & _ & _ & ->).
    exists route, item, add, su, ru. repeat split; auto. }
  destruct (packages_split self (packages self))
    as (pre & rest & Hsplit & Hpre & [->|(item & post & -> & Hmiss)]).
  - rewrite app_nil_r in Hsplit. subst pre. eexists. split.
    + rewrite prepare_unfold, prepare_all_served by assumption.
      reflexivity.
    + apply Hsound. auto.
  - eexists. split.
    + rewrite prepare_unfold,
        (prepare_some_missing self _ _ _ pre post item) by assumption.
      reflexivity.
    + apply Hsound. intros x Hx. rewrite Hsplit.
      apply elem_of_app. left. assumption.
Qed.

Lemma filter_all {A} (P : A -> Prop) `{!forall x, Decision (P x)}
      (l : list A) :
  Forall P l -> filter P l = l.
Proof.
  induction 1 as [|x l Hx _ IH]; [reflexivity|].
  rewrite filter_cons_True by assumption. f_equal. exact IH.
Qed.

(** X18: the step of [_run_parsing] from [_prepare_cargo_requests] to
    [retrieve_data] on a fresh parser.  On an interface that has
    prepared nothing before, every prepared request gets its service-id
    call, in the order of preparation; the report counts as many
    outcomes as there are prepared requests; and every returned route
    carries a pair of cities of [routes_to_parse] and the weight of a
    package of [packages]. *)
Theorem X18_every_prepared_request_is_sent
        (self : MainTokenCargoInterFace (K := K)) (h : store)
        (sched : Parsing.schedule) out (s : Parsing.loop) :
  _cargo_requests self = [] ->
  (forall r req,
      _cargo_requests (_prepare_cargo_requests self) !! r = Some req ->
      h r = req) ->
  Parsing._retrieve_data UUID_init validate_str validate_number
    (seq 0 (length (_cargo_requests (_prepare_cargo_requests self))))
    sched (Parsing.__init__ 10) h
  = Some (out, s) ->
  ParsingRuns.sid_refs (Parsing.calls s)
  = seq 0 (length (_cargo_requests (_prepare_cargo_requests self))) /\
  exists result_list report,
    out = Ok (result_list, report) /\
    routes_total report
    = Z.of_nat (length (_cargo_requests (_prepare_cargo_requests self))) /\
    routes_success report = Z.of_nat (length result_list) /\
    routes_success report + routes_fail report = routes_total report /\
    Forall (fun route =>
              (city_from route, city_to route) ∈ routes_to_parse self /\
              exists item,
                item ∈ packages self /\
                route_weight route = Package.weight item.2)
           result_list.
Proof.
  intros Hfresh Hstore Hret.
  destruct (prepare_requests_sound self) as (new & Hnew & Hsound).
  rewrite Hfresh in Hnew. cbn [app] in Hnew. rewrite Hnew in *.
  apply (ParsingRunsFacts.retrieve_data_summary UUID_init validate_str
           validate_number) in Hret
    as (routes & fails & -> & Hperm & Hroutes & Hsent & Hprice).
  assert (forall r, r ∈ seq 0 (length new) ->
                    exists route item add su ru,
                      route ∈ routes_to_parse self /\
                      item ∈ packages self /\
                      h r = new_request self su route.1 ru route.2
                              item.2 add) as Hheap.
  { intros r Hr. apply elem_of_seq in Hr as [_ Hr].
    destruct (lookup_lt_is_Some_2 new r) as [req Hreq]; [lia|].
    rewrite (Hstore r req Hreq).
    apply (proj1 (Forall_forall _ _) Hsound req).
    apply list_elem_of_lookup. exists r. assumption. }
  assert (ParsingRuns.sid_refs (Parsing.calls s) = seq 0 (length new))
    as Hall.
  { rewrite Hsent. apply filter_all. apply Forall_forall. intros r Hr.
    destruct (Hheap r Hr) as (route & item & add & su & ru & _ & _ & ->).
    reflexivity. }
  split; [assumption|].
  eexists _, _. split; [reflexivity|].
  cbn [routes_total routes_success routes_fail Parsing.__init__
       Parsing._result_list Parsing._routes_success Parsing._routes_fail
       app].
  rewrite length_seq.
  split; [reflexivity|]. split; [lia|]. split.
  - apply Permutation_length in Hperm.
    rewrite length_seq, length_app, length_fmap in Hperm. lia.
  - apply Forall_forall. intros route Hroute.
    destruct (proj1 (Forall_forall _ _) Hroutes route Hroute)
      as [(Hfrom & Hto & Hweight) Hpriced].
    apply Hprice in Hpriced. rewrite Hall in Hpriced.
    destruct (Hheap _ Hpriced)
      as (rt & item & add & su & ru & Hrt & Hitem & Hreq).
    rewrite Hreq in Hfrom, Hto, Hweight.
    cbn [new_request RequestForCargo.sender_city_name
         RequestForCargo.receiver_city_name RequestForCargo.packages
         head fmap option_fmap option_map] in Hfrom, Hto, Hweight.
    rewrite Hfrom, Hto. split.
    + destruct rt. assumption.
    + exists item. split; [assumption|]. congruence.
Qed.

End Facts.

(** *** On the sample interface *)

Lemma all_services_served :
  Forall (served (sample_interface all_services))
         (packages (sample_interface all_services)).
Proof. repeat constructor; eexists; reflexivity. Qed.

(** X15 on the sample interface: the route to the city without a record
    is refused, the other gets a request for each of the two packages. *)
Lemma X15_requests_for_every_package_witness :
  length (_cargo_requests
            (_prepare_cargo_requests Sample.UUID_init
               (sample_interface all_services))) = 2%nat /\
  _route_errors
    (_prepare_cargo_requests Sample.UUID_init
       (sample_interface all_services))
  = [("Moscow", "Atlantis")].
Proof.
  destruct (X15_requests_for_every_package Sample.UUID_init
              (sample_interface all_services) all_services_served)
    as (Hrequests & Herrors & _).
  rewrite Hrequests, Herrors. split; reflexivity.
Defined.

(** X16 on the sample interface without services for the second
    package: both routes are refused and the first still gets a
    request. *)
Lemma X16_missing_services_refuse_every_route_witness :
  _route_errors
    (_prepare_cargo_requests Sample.UUID_init
       (sample_interface some_services))
  = [("Moscow", "Kazan"); ("Moscow", "Atlantis")] /\
  length (_cargo_requests
            (_prepare_cargo_requests Sample.UUID_init
               (sample_interface some_services))) = 1%nat.
Proof.
  destruct (X16_missing_services_refuse_every_route Sample.UUID_init
              (sample_interface some_services)
              [(2, small_package)] [] (3, large_package))
    as (Herrors & Hrequests & _).
  - reflexivity.
  - repeat constructor. eexists. reflexivity.
  - reflexivity.
  - rewrite Herrors, Hrequests. split; reflexivity.
Defined.

(** X18 on the sample interface: both prepared requests are sent. *)
Lemma X18_every_prepared_request_is_sent_witness :
  match ParsingSpec.sample_retrieve_data [0%nat; 1%nat]
          ParsingSpec.two_items_schedule (Parsing.__init__ 10) sample_store
  with
  | Some (out, s) =>
      ParsingRuns.sid_refs (Parsing.calls s) = [0%nat; 1%nat] /\
      exists result_list report,
        out = Ok (result_list, report) /\
        routes_total report = 2 /\
        routes_success report + routes_fail report = routes_total report /\
        Forall (fun route =>
                  (city_from route, city_to route)
                  ∈ [("Moscow", "Kazan"); ("Moscow", "Atlantis")])
               result_list
  | None => False
  end.
Proof.
  destruct (ParsingSpec.sample_retrieve_data _ _ _ _) as [[out s]|] eqn:H;
    [|vm_compute in H; discriminate H].
  destruct (X18_every_prepared_request_is_sent Sample.UUID_init
              Sample.validate_str Sample.validate_number
              (sample_interface all_services) sample_store
              ParsingSpec.two_items_schedule out s)
    as (Hsent & result_list & report & Hout & Htotal & _ & Hsum & Hroutes).
  - reflexivity.
  - intros r req Hr. unfold sample_store, sample_requests.
    rewrite Hr. reflexivity.
  - exact H.
  - split; [exact Hsent|].
    exists result_list, report. split; [exact Hout|].
    split; [exact Htotal|]. split; [exact Hsum|].
    eapply Forall_impl; [exact Hroutes|]. intros route [Hpair _].
    exact Hpair.
Defined.

End InterfaceFacts.

(** ** The Excel repository *)

Module RoutesFacts.
Import Routes.

Lemma index_is_Ok {A} (eqb : A -> A -> bool) (x : A) (l : list A) :
  is_Ok (index eqb x l) = true <-> Exists (fun y => eqb y x = true) l.
Proof.
  induction l as [|y l IH]; cbn [index].
  - split; [discriminate|]. intros Hex. apply Exists_nil in Hex.
    contradiction.
  - rewrite Exists_cons. destruct (eqb y x) eqn:Hy.
    + split; [left|]; reflexivity.
    + destruct (index eqb x l) as [n|e]; cbn [mbind result_bind is_Ok] in *.
      * split; [right|reflexivity]. apply IH. reflexivity.
      * split; [discriminate|]. intros [Hy'|Hex]; [discriminate|].
        apply IH. assumption.
Qed.

Lemma index_lt {A} (eqb : A -> A -> bool) (x : A) (l : list A) (n : nat) :
  index eqb x l = Ok n -> (n < length l)%nat.
Proof.
  revert n. induction l as [|y l IH]; intros n; cbn [index];
    [discriminate|].
  destruct (eqb y x); [intros [= <-]; cbn; lia|].
  destruct (index eqb x l) as [m|e]; cbn [mbind result_bind];
    [|discriminate].
  intros [= <-]. specialize (IH m eq_refl). cbn [length]. lia.
Qed.

Lemma pair_eq_true (a b : string * string) : pair_eq a b = true <-> a = b.
Proof.
  unfold pair_eq. destruct a as [a1 a2], b as [b1 b2]. cbn [fst snd].
  rewrite andb_true_iff, !String.eqb_eq. split.
  - intros [-> ->]. reflexivity.
  - intros [= -> ->]. split; reflexivity.
Qed.

Lemma pair_index_is_Ok (pair : string * string)
      (row_titles : list (string * string)) :
  is_Ok (index pair_eq pair row_titles) = true <-> pair ∈ row_titles.
Proof.
  rewrite index_is_Ok, Exists_exists. split.
  - intros (y & Hy & Heq). apply pair_eq_true in Heq as ->. assumption.
  - intros Hin. exists pair. split; [assumption|].
    apply pair_eq_true. reflexivity.
Qed.

Lemma set_value_Ok (ws : worksheet) (row column : Z) (v : value) :
  1 <= row -> 1 <= column ->
  set_value ws row column v = Ok (<[(row, column) := v]> ws).
Proof.
  intros Hr Hc. unfold set_value.
  destruct (row <? 1) eqn:E1; [lia|].
  destruct (column <? 1) eqn:E2; [lia|]. reflexivity.
Qed.

Lemma fill_item_is_Ok (self : ExcelRouteRepository)
      (row_titles : list (string * string)) (ws : worksheet)
      (item : Route) :
  2 <= last_column self ->
  is_Ok (fill_item self row_titles ws item)
  = is_Ok (index pair_eq (city_from item, city_to item) row_titles)
    && is_Ok (index num_eq (route_weight item) (weight_list self)).
Proof.
  intros Hlast. unfold fill_item.
  destruct (index pair_eq _ _) as [i|]; [|reflexivity].
  destruct (index num_eq _ _) as [j|]; [|reflexivity].
  cbn [mbind result_bind is_Ok andb].
  rewrite set_value_Ok by lia. cbn [mbind result_bind].
  rewrite set_value_Ok by lia. cbn [mbind result_bind].
  rewrite set_value_Ok by lia. reflexivity.
Qed.

(** X20: on a sheet whose headers are made ([last_column] at least 2),
    [_fill_data] returns exactly when every route carries a pair of
    cities that is among the row titles and a weight that is equal to
    one of the weight list; on any other route it raises
    [ValueError]. *)
Theorem X20_fill_data_returns_iff
        (self : ExcelRouteRepository) (routes : list Route)
        (row_titles : list (string * string)) (ws : worksheet) :
  2 <= last_column self ->
  is_Ok (_fill_data self routes row_titles ws) = true <->
  Forall (fun item =>
            (city_from item, city_to item) ∈ row_titles /\
            Exists (fun w => num_eq w (route_weight item) = true)
                   (weight_list self))
         routes.
Proof.
  intros Hlast. revert ws.
  induction routes as [|item rest IH]; intros ws; cbn [_fill_data].
  - split; [constructor|reflexivity].
  - rewrite Forall_cons, <- pair_index_is_Ok, <- index_is_Ok.
    pose proof (fill_item_is_Ok self row_titles ws item Hlast) as Hitem.
    destruct (fill_item self row_titles ws item) as [ws'|e];
      cbn [mbind result_bind is_Ok] in *.
    + symmetry in Hitem. apply andb_true_iff in Hitem. rewrite IH. tauto.
    + symmetry in Hitem. apply andb_false_iff in Hitem.
      split; [discriminate|]. intros [[H1 H2] _].
      destruct Hitem as [Hf|Hf]; congruence.
Qed.

Lemma fill_item_written (self : ExcelRouteRepository)
      (row_titles : list (string * string)) (ws ws' : worksheet)
      (item : Route) (cell : Z * Z) :
  fill_item self row_titles ws item = Ok ws' ->
  ws' !! cell = match written self row_titles item cell with
                | Some v => Some v
                | None => ws !! cell
                end.
Proof.
  unfold fill_item, written.
  destruct (index pair_eq _ _) as [i|]; [|discriminate].
  destruct (index num_eq _ _) as [j|]; [|discriminate].
  cbn [mbind result_bind]. unfold set_value.
  repeat match goal with
         | |- context [if ?b then Raise _ else _] => destruct b
         end; cbn [mbind result_bind]; try discriminate.
  intros [= <-]. destruct cell as [r c]. cbn [fst snd].
  repeat match goal with
         | |- context [decide ?P] => destruct (decide P)
         end;
    subst;
    repeat first [rewrite lookup_insert_eq
                 |rewrite lookup_insert_ne by congruence];
    reflexivity.
Qed.

Lemma written_area (self : ExcelRouteRepository)
      (row_titles : list (string * string)) (item : Route) (cell : Z * Z) :
  is_Some (written self row_titles item cell) ->
  4 <= cell.1 < 4 + Z.of_nat (length row_titles) /\
  (3 <= cell.2 < 3 + Z.of_nat (length (weight_list self)) \/
   cell.2 = last_column self - 1 \/ cell.2 = last_column self).
Proof.
  unfold written.
  destruct (index pair_eq _ _) as [i|] eqn:Hi;
    [|intros [v Hv]; discriminate Hv].
  destruct (index num_eq _ _) as [j|] eqn:Hj;
    [|intros [v Hv]; discriminate Hv].
  apply index_lt in Hi, Hj.
  repeat match goal with
         | |- context [decide ?P] => destruct (decide P)
         end;
    intros [v Hv]; try discriminate Hv; lia.
Qed.

(** X21: when [_fill_data] returns, each cell holds what the last
    route that writes to it left there, and is as before when no route
    does: the total cost in the column of the route's weight, and in
    the last two columns the durations of the last route of that row,
    whatever its weight.  Only cells from row 4 on, within the rows of
    the titles, and in the weight columns or the last two columns are
    changed. *)
Theorem X21_fill_data_last_write_wins
        (self : ExcelRouteRepository) (routes : list Route)
        (row_titles : list (string * string)) (ws ws' : worksheet) :
  _fill_data self routes row_titles ws = Ok ws' ->
  (forall cell,
      ws' !! cell
      = match list.last (omap (fun item => written self row_titles item cell)
                              routes)
        with
        | Some v => Some v
        | None => ws !! cell
        end) /\
  (forall cell,
      ws' !! cell <> ws !! cell ->
      4 <= cell.1 < 4 + Z.of_nat (length row_titles) /\
      (3 <= cell.2 < 3 + Z.of_nat (length (weight_list self)) \/
       cell.2 = last_column self - 1 \/ cell.2 = last_column self)).
Proof.
  intros Hfill.
  assert (forall cell,
             ws' !! cell
             = match list.last
                       (omap (fun item => written self row_titles item cell)
                             routes)
               with
               | Some v => Some v
               | None => ws !! cell
               end) as Hlast.
  { intros cell. revert ws Hfill.
    induction routes as [|item rest IH]; intros ws; cbn [_fill_data].
    - intros [= ->]. reflexivity.
    - destruct (fill_item self row_titles ws item) as [ws1|] eqn:Hitem;
        cbn [mbind result_bind]; [|discriminate].
      intros Hrest. rewrite (IH ws1 Hrest).
      rewrite (fill_item_written _ _ _ _ _ cell Hitem).
      cbn [omap list_omap].
      destruct (written self row_titles item cell) as [v|];
        [|reflexivity].
      rewrite last_cons.
      destruct (list.last _); reflexivity. }
  split; [exact Hlast|].
  intros cell Hcell. rewrite Hlast in Hcell.
  destruct (list.last _) as [v|] eqn:Hv; [|contradiction].
  apply last_Some_elem_of in Hv.
  apply list_elem_of_omap in Hv as (item & _ & Hw).
  apply (written_area self row_titles item cell).
  rewrite Hw. eexists. reflexivity.
Qed.

(** X20 on the sample sheet: both routes are written. *)
Lemma X20_fill_data_returns_iff_witness :
  is_Ok (_fill_data sample_repository sample_routes [("Moscow", "Kazan")] ∅)
  = true.
Proof.
  apply (X20_fill_data_returns_iff sample_repository sample_routes
           [("Moscow", "Kazan")] ∅).
  - cbn. lia.
  - unfold sample_routes.
    apply Forall_cons. split; [|apply Forall_cons; split; [|constructor]].
    + split; [apply list_elem_of_singleton; reflexivity|].
      apply Exists_cons. left. reflexivity.
    + split; [apply list_elem_of_singleton; reflexivity|].
      apply Exists_cons. right. apply Exists_cons. left. reflexivity.
Defined.

(** X21 on the sample sheet: the price cells hold the two total costs
    and the duration cells those of the second route. *)
Lemma X21_fill_data_last_write_wins_witness :
  match _fill_data sample_repository sample_routes [("Moscow", "Kazan")] ∅
  with
  | Ok ws =>
      ws !! (4, 3) = Some (VInt 650) /\ ws !! (4, 4) = Some (VInt 800) /\
      ws !! (4, 5) = Some (VInt 2) /\ ws !! (4, 6) = Some (VInt 4) /\
      ws !! (1, 1) = None
  | Raise _ => False
  end.
Proof.
  destruct (_fill_data _ _ _ _) as [ws|e] eqn:H;
    [|vm_compute in H; discriminate H].
  destruct (X21_fill_data_last_write_wins _ _ _ _ _ H) as [Hlast _].
  rewrite !Hlast. repeat split; reflexivity.
Defined.

End RoutesFacts.
